(** * Blockchain AI agent: revenue ledger, reinvestment policy, scoring
    engine and arbitrage evaluator

  Shallow embedding of
    - [src/agent/revenue-manager.ts]   (RevenueManager, AutonomousAgent),
    - [src/ai/ai-engine.ts]            (AIEngine; unnamed part 001),
    - [src/services/trading-strategy.service.ts] (TradingStrategyService),
    - [src/services/oracle.service.ts] (OracleService),
    - [src/services/market-analysis.service.ts] (MarketAnalysisService),
    - the service table of [src/index.ts] (unnamed part 001).

  Conventions.
    - A JavaScript [number] is embedded twice.  The modules of the first
      part compute with exact rationals ([Qc], rationals in lowest terms,
      so that equality is Leibniz equality); rounding, [NaN] and the
      infinities are outside that model, and the one place where the
      source can divide by zero is written out where it occurs.  They
      carry the properties that rounding leaves alone: which branch is
      taken, what is stored where, and bounds that the rounded results
      respect as well.  [Module Binary64] embeds the ledger and the
      arbitrage finder a second time with the binary64 numbers of the
      program (Rocq's primitive floats) and with [byService] as the plain
      object it is; it carries the properties that depend on rounding,
      on [NaN] or on the keys of [Object.prototype].
    - [async] methods run to completion one after the other: a method is a
      function from the state before the call to the state after it.
    - Whatever a method reads from the outside world (clock, random
      numbers, key generation, price oracle, payment rail) is an explicit
      argument of its model. *)

From Stdlib Require Import QArith Qcanon Lqa.
From Stdlib Require PrimFloat SpecFloat FloatOps FloatAxioms.
From stdpp Require Import gmap strings list fin_maps numbers.

Local Open Scope Qc_scope.

(** ** Numbers *)

Module Num.

(** Decimal literals of the source: [num 0.3] is the rational 3/10. *)
Definition num (x : Q) : Qc := Q2Qc x.

(** [Math.abs], [Math.min], [Math.max]. *)
Definition abs (x : Qc) : Qc := if decide (x < 0) then - x else x.
Definition min (x y : Qc) : Qc := if decide (x < y) then x else y.
Definition max (x y : Qc) : Qc := if decide (x < y) then y else x.

(** [v || 0] on a property read: [undefined] and [0] are falsy. *)
Definition or_zero (o : option Qc) : Qc :=
  match o with
  | Some v => if decide (v = 0) then 0 else v
  | None => 0
  end.

End Num.

Import Num.

(** ** Data model ([src/types]) *)

Module AgentEarnings.
Record t : Type := mk {
  total : Qc;
  byService : gmap string Qc;
  reinvested : Qc;
  available : Qc;
}.
End AgentEarnings.

Inductive SubAgentStatus : Type := active | inactive | upgrading.

Module SubAgent.
Record t : Type := mk {
  id : string;
  parentId : string;
  role : string;
  balance : Qc;
  status : SubAgentStatus;
  createdAt : Z;
  walletAddress : option string;
  fundingTxHash : option string;
}.
End SubAgent.

(** ** RevenueManager ([src/agent/revenue-manager.ts]) *)

Module RevenueManager.

Import AgentEarnings.

(** The fields of the class that the ledger logic reads or writes.
    [subAgents] is a [Map<string, SubAgent>]. *)
Record t : Type := mk {
  earnings : AgentEarnings.t;
  reinvestmentThreshold : Qc;
  subAgents : gmap string SubAgent.t;
}.

(** State of a freshly constructed manager. *)
Definition init (reinvestmentThreshold : Qc) : t :=
  {| earnings := {| total := 0; byService := ∅; reinvested := 0; available := 0 |};
     reinvestmentThreshold := reinvestmentThreshold;
     subAgents := ∅ |}.

(** Default of the constructor argument. *)
Definition defaultThreshold : Qc := num 1.0.

(** What one call of [spawnSubAgent] obtains from outside the ledger:
    the identifier built from [Date.now()] and [Math.random()], the
    address of the generated key pair, the reference returned by
    [fundSubAgentWallet] (a transaction hash, or the simulated
    placeholder when the transfer throws), and the creation time. *)
Record SpawnEnv : Type := mkSpawnEnv {
  subAgentId : string;
  newWalletAddress : string;
  newFundingTxHash : string;
  now : Z;
}.

Definition upgradeCost : Qc := num 0.5.
Definition spawnCost : Qc := num 0.3.

Definition debit (cost : Qc) (e : AgentEarnings.t) : AgentEarnings.t :=
  {| total := total e;
     byService := byService e;
     reinvested := reinvested e + cost;
     available := available e - cost |}.

(** [spawnSubAgent(role, cost)]: builds the record and stores it under
    its identifier. *)
Definition newSubAgent (env : SpawnEnv) (role : string) (cost : Qc) : SubAgent.t :=
  {| SubAgent.id := subAgentId env;
     SubAgent.parentId := "main";
     SubAgent.role := role;
     SubAgent.balance := cost;
     SubAgent.status := active;
     SubAgent.createdAt := now env;
     SubAgent.walletAddress := Some (newWalletAddress env);
     SubAgent.fundingTxHash := Some (newFundingTxHash env) |}.

Definition spawnSubAgent (env : SpawnEnv) (role : string) (cost : Qc) (rm : t) : t :=
  {| earnings := earnings rm;
     reinvestmentThreshold := reinvestmentThreshold rm;
     subAgents := <[subAgentId env := newSubAgent env role cost]> (subAgents rm) |}.

(** [upgradeAgent(cost)] only logs. *)
Definition upgradeAgent (cost : Qc) (rm : t) : t := rm.
Arguments upgradeAgent cost rm /.

Definition shouldUpgrade (rm : t) : bool :=
  bool_decide (size (subAgents rm) < 2)%nat || bool_decide (num 10 < total (earnings rm)).

Definition withEarnings (f : AgentEarnings.t → AgentEarnings.t) (rm : t) : t :=
  {| earnings := f (earnings rm);
     reinvestmentThreshold := reinvestmentThreshold rm;
     subAgents := subAgents rm |}.

Definition considerReinvestment (env : SpawnEnv) (rm : t) : t :=
  if decide (available (earnings rm) < reinvestmentThreshold rm) then rm
  else
    let canUpgrade := bool_decide (upgradeCost <= available (earnings rm)) in
    let canSpawn := bool_decide (spawnCost <= available (earnings rm)) in
    if canSpawn && bool_decide (size (subAgents rm) < 5)%nat then
      withEarnings (debit spawnCost) (spawnSubAgent env "data-collector" spawnCost rm)
    else if canUpgrade && shouldUpgrade rm then
      withEarnings (debit upgradeCost) (upgradeAgent upgradeCost rm)
    else rm.

(** The three assignments at the head of [recordPayment], on exact
    numbers and for a [serviceId] that is no property name of
    [Object.prototype]; [Binary64.RevenueManager.credit], below, has the
    rounded additions and the plain object. *)
Definition credit (serviceId : string) (amount : Qc) (e : AgentEarnings.t) : AgentEarnings.t :=
  {| total := total e + amount;
     byService := <[serviceId := or_zero (byService e !! serviceId) + amount]> (byService e);
     reinvested := reinvested e;
     available := available e + amount |}.

Definition recordPayment (env : SpawnEnv) (serviceId : string) (amount : Qc) (rm : t) : t :=
  let rm1 := withEarnings (credit serviceId amount) rm in
  if decide (reinvestmentThreshold rm1 <= available (earnings rm1)) then
    considerReinvestment env rm1
  else rm1.

(** Sequences of calls on one manager. *)
Inductive Call : Type :=
| CallRecordPayment (env : SpawnEnv) (serviceId : string) (amount : Qc)
| CallConsiderReinvestment (env : SpawnEnv).

Definition step (rm : t) (c : Call) : t :=
  match c with
  | CallRecordPayment env serviceId amount => recordPayment env serviceId amount rm
  | CallConsiderReinvestment env => considerReinvestment env rm
  end.

Definition run (calls : list Call) (rm : t) : t := foldl step rm calls.

(** Sum of the values of [byService]. *)
Definition sumByService (m : gmap string Qc) : Qc :=
  map_fold (λ _ v acc, v + acc) 0 m.

End RevenueManager.

(** ** AIEngine ([src/ai/ai-engine.ts]) *)

Inductive Action : Type := buy | sell | hold.

(** Text that the source builds from numbers ([toString], [toFixed]) is
    kept as the list of its pieces: the decimal rendering of a binary64
    value is not computed here. *)
Inductive Fragment : Type :=
| Lit (s : string)
| NumberToString (x : Qc)
| NumberToFixed (x : Qc) (digits : nat).

Definition Text : Type := list Fragment.

Module TradingSignalInput.
Record t : Type := mk {
  price : Qc;
  volume24h : Qc;
  priceChange24h : Qc;
  liquidity : Qc;
  sentiment : Qc;
}.
End TradingSignalInput.

Module TradingSignal.
Record t : Type := mk {
  action : Action;
  token : Text;
  confidence : Qc;
  price : Qc;
  reasoning : Text;
}.
End TradingSignal.

Module ArbitrageOpportunity.
Record t : Type := mk {
  token : string;
  dexA : string;
  dexB : string;
  priceDiff : Qc;
  profitEstimate : Qc;
  risk : Qc;
}.
End ArbitrageOpportunity.

(** ** More of the data model ([src/types], [src/ai/ai-engine.ts]) *)

Module MarketData.
Record t : Type := mk {
  token : string;
  price : Qc;
  volume24h : Qc;
  priceChange24h : Qc;
  liquidity : Qc;
  timestamp : Z;
}.
End MarketData.

Module YieldFarmingOpportunity.
Record t : Type := mk {
  protocol : string;
  token : string;
  apy : Qc;
  tvl : Qc;
  risk : Qc;
  estimatedReturn : Qc;
}.
End YieldFarmingOpportunity.

Inductive RiskTolerance : Type := low | medium | high.

Module TechnicalIndicators.
Record t : Type := mk {
  currentPrice : Qc;
  volume : Qc;
  priceChange : Qc;
  timeframe : string;
}.
End TechnicalIndicators.

Inductive Trend : Type := bullish | bearish | neutral.

Module TechnicalAnalysis.
Record t : Type := mk {
  support : Qc;
  resistance : Qc;
  trend : Trend;
  recommendations : list string;
}.
End TechnicalAnalysis.

(** The parameter bag of a request ([Record<string, any>]), with the
    properties the trading-strategy code reads; [None] is [undefined].
    [riskTolerance] is whatever string the caller sent: nothing checks
    that it is one of the three names before it is used. *)
Module Params.
Record t : Type := mk {
  strategy : option string;
  tokens : option (list string);
  amount : option Qc;
  riskTolerance : option string;
  token : option string;
  currentPrice : option Qc;
}.
End Params.

(** An entry of the table [protocolConfigs] of [optimizeYieldFarming]. *)
Module ProtocolConfig.
Record t : Type := mk {
  name : string;
  slug : string;
  defaultAPY : Qc;
  risk : Qc;
  chain : string;
}.
End ProtocolConfig.

(** The object returned by [fetchProtocolData]. *)
Module ProtocolData.
Record t : Type := mk {
  apy : option Qc;
  tvl : option Qc;
}.
End ProtocolData.

Module ServiceConfig.
Record t : Type := mk {
  id : string;
  name : string;
  type : string;
  price : Qc;
  enabled : bool;
}.
End ServiceConfig.

Module ServiceRequest.
Record t : Type := mk {
  serviceId : string;
  userId : string;
  params : Params.t;
  paymentAmount : Qc;
}.
End ServiceRequest.

(** ** Array methods *)

Module JSArray.

(** [xs.sort((a, b) => key(b) - key(a))]: the sort is stable, so it is
    the stable insertion sort, descending in [key]. *)
Fixpoint insertDesc {A : Type} (key : A → Qc) (x : A) (l : list A) : list A :=
  match l with
  | [] => [x]
  | y :: rest =>
      if decide (key x < key y) then y :: insertDesc key x rest
      else x :: y :: rest
  end.

Definition sortDesc {A : Type} (key : A → Qc) (l : list A) : list A :=
  foldr (insertDesc key) [] l.

(** [xs.slice(0, n)] and [xs.slice(-n)] for [n > 0]. *)
Definition sliceFront {A : Type} (n : nat) (l : list A) : list A := take n l.
Definition sliceBack {A : Type} (n : nat) (l : list A) : list A := drop (length l - n) l.

(** [s || d] for a string: [undefined] and the empty string are falsy. *)
Definition or_string (o : option string) (d : string) : string :=
  match o with
  | Some s => if decide (s = "") then d else s
  | None => d
  end.

End JSArray.

Module AIEngine.

Import TradingSignalInput.

Record Weights : Type := mkWeights {
  w_price : Qc;
  w_volume : Qc;
  w_sentiment : Qc;
  w_momentum : Qc;
  w_liquidity : Qc;
}.

(** The private field [modelWeights]. *)
Definition modelWeights : Weights :=
  {| w_price := num 0.3;
     w_volume := num 0.25;
     w_sentiment := num 0.2;
     w_momentum := num 0.15;
     w_liquidity := num 0.1 |}.

(** The value of the local variable [score] of [calculateSignalScore]
    when the [return] statement is reached, for a weight table [w]. *)
Definition rawScore (w : Weights) (input : TradingSignalInput.t) : Qc :=
  let score := 0 in
  let priceMomentum := priceChange24h input / num 100 in
  let score := score + priceMomentum * w_price w in
  let volumeScore := min (volume24h input / num 1000000) 1 in
  let score := score + volumeScore * w_volume w in
  let score := score + sentiment input * w_sentiment w in
  let liquidityScore := min (liquidity input / num 10000000) 1 in
  let score := score + liquidityScore * w_liquidity w in
  score.

Definition calculateSignalScoreWith (w : Weights) (input : TradingSignalInput.t) : Qc :=
  max (-1) (min 1 (rawScore w input)).

Definition calculateSignalScore : TradingSignalInput.t → Qc :=
  calculateSignalScoreWith modelWeights.

Definition determineAction (score : Qc) : Action :=
  if decide (num 0.3 < score) then buy
  else if decide (score < - num 0.3) then sell
  else hold.

Definition toUpperCase (a : Action) : string :=
  match a with buy => "BUY" | sell => "SELL" | hold => "HOLD" end.

(** [factors.join(', ')] *)
Fixpoint join (sep : string) (factors : list Text) : Text :=
  match factors with
  | [] => []
  | [f] => f
  | f :: rest => f ++ Lit sep :: join sep rest
  end.

Definition generateReasoning (input : TradingSignalInput.t) (action : Action) : Text :=
  let factors :=
    (if decide (0 < priceChange24h input) then
       [[Lit "Price up "; NumberToFixed (priceChange24h input) 2; Lit "%"]]
     else if decide (priceChange24h input < 0) then
       [[Lit "Price down "; NumberToFixed (abs (priceChange24h input)) 2; Lit "%"]]
     else [])
    ++ (if decide (num 1000000 < volume24h input) then [[Lit "High volume"]] else [])
    ++ (if decide (num 0.5 < sentiment input) then [[Lit "Positive sentiment"]]
        else if decide (sentiment input < - num 0.5) then [[Lit "Negative sentiment"]]
        else []) in
  Lit (toUpperCase action) :: Lit ": " :: join ", " factors.

Definition generateTradingSignals (input : TradingSignalInput.t) : list TradingSignal.t :=
  let score := calculateSignalScore input in
  let action := determineAction score in
  let primarySignal :=
    {| TradingSignal.action := action;
       TradingSignal.token := [NumberToString (price input)];
       TradingSignal.confidence := abs score;
       TradingSignal.price := price input;
       TradingSignal.reasoning := generateReasoning input action |} in
  if bool_decide (abs score < num 0.7) && bool_decide (num 0.3 < abs score) then
    [primarySignal;
     {| TradingSignal.action := hold;
        TradingSignal.token := TradingSignal.token primarySignal;
        TradingSignal.confidence := num 0.5;
        TradingSignal.price := TradingSignal.price primarySignal;
        TradingSignal.reasoning :=
          [Lit "Market conditions are unclear, holding recommended"] |}]
  else [primarySignal].

(** [assessArbitrageRisk] reads only [priceDiff] of its argument. *)
Definition assessArbitrageRisk (token dexA dexB : string) (priceDiff : Qc) : Qc :=
  let baseRisk := num 0.3 in
  let liquidityRisk := min (priceDiff / num 10) (num 0.4) in
  let executionRisk := num 0.2 in
  min (baseRisk + liquidityRisk + executionRisk) (num 1.0).

(** *** Technical indicators, ranking and derived signals *)

Definition analyzeTechnicalIndicators (indicators : TechnicalIndicators.t)
  : TechnicalAnalysis.t :=
  let support :=
    TechnicalIndicators.currentPrice indicators
    * (1 - abs (TechnicalIndicators.priceChange indicators) / num 100) in
  let resistance :=
    TechnicalIndicators.currentPrice indicators
    * (1 + abs (TechnicalIndicators.priceChange indicators) / num 100) in
  let trend :=
    if bool_decide (num 2 < TechnicalIndicators.priceChange indicators)
       && bool_decide (0 < TechnicalIndicators.volume indicators) then bullish
    else if decide (TechnicalIndicators.priceChange indicators < - num 2) then bearish
    else neutral in
  let recommendations :=
    match trend with
    | bullish => ["Consider entry on pullbacks"; "Set stop-loss below support level"]
    | bearish => ["Consider exiting long positions"; "Wait for confirmation before entering"]
    | neutral => ["Market is consolidating, wait for breakout"]
    end in
  {| TechnicalAnalysis.support := support;
     TechnicalAnalysis.resistance := resistance;
     TechnicalAnalysis.trend := trend;
     TechnicalAnalysis.recommendations := recommendations |}.

Definition riskMultiplier (riskTolerance : RiskTolerance) : Qc :=
  match riskTolerance with
  | low => num 0.3
  | medium => num 0.6
  | high => num 1.0
  end.

(** The [score] attached to an opportunity while ranking. *)
Definition yieldScore (multiplier : Qc) (opp : YieldFarmingOpportunity.t) : Qc :=
  (YieldFarmingOpportunity.apy opp * multiplier)
  - (YieldFarmingOpportunity.risk opp * num 50).

Definition rankYieldOpportunities (opportunities : list YieldFarmingOpportunity.t)
    (riskTolerance : RiskTolerance) : list YieldFarmingOpportunity.t :=
  let multiplier := riskMultiplier riskTolerance in
  fst <$> JSArray.sortDesc snd ((λ opp, (opp, yieldScore multiplier opp)) <$> opportunities).

Definition generateSignalsFromArbitrage (opportunities : list ArbitrageOpportunity.t)
  : list TradingSignal.t :=
  (λ opp,
     {| TradingSignal.action := buy;
        TradingSignal.token := [Lit (ArbitrageOpportunity.token opp)];
        TradingSignal.confidence := 1 - ArbitrageOpportunity.risk opp;
        TradingSignal.price := 0;
        TradingSignal.reasoning :=
          [Lit "Arbitrage opportunity: ";
           NumberToFixed (ArbitrageOpportunity.priceDiff opp) 2;
           Lit "% price difference between "; Lit (ArbitrageOpportunity.dexA opp);
           Lit " and "; Lit (ArbitrageOpportunity.dexB opp)] |})
  <$> JSArray.sliceFront 5 opportunities.

Definition generateSignalsFromYield (opportunities : list YieldFarmingOpportunity.t)
  : list TradingSignal.t :=
  (λ opp,
     {| TradingSignal.action := buy;
        TradingSignal.token := [Lit (YieldFarmingOpportunity.token opp)];
        TradingSignal.confidence := YieldFarmingOpportunity.apy opp / num 20;
        TradingSignal.price := 0;
        TradingSignal.reasoning :=
          [Lit "Yield farming: "; Lit (YieldFarmingOpportunity.protocol opp);
           Lit " offers "; NumberToFixed (YieldFarmingOpportunity.apy opp) 2;
           Lit "% APY with estimated return of $";
           NumberToFixed (YieldFarmingOpportunity.estimatedReturn opp) 2] |})
  <$> JSArray.sliceFront 3 opportunities.

Definition generateMomentumSignals (params : Params.t) : list TradingSignal.t :=
  [ {| TradingSignal.action := buy;
       TradingSignal.token := [Lit (JSArray.or_string (Params.token params) "")];
       TradingSignal.confidence := num 0.6;
       TradingSignal.price := or_zero (Params.currentPrice params);
       TradingSignal.reasoning := [Lit "Momentum indicators suggest upward trend"] |} ].

End AIEngine.

(** ** TradingStrategyService ([src/services/trading-strategy.service.ts]) *)

Module TradingStrategyService.

Import ArbitrageOpportunity.

Definition dexes : list string := ["jupiter"; "raydium"; "orca"].

(** A price oracle as [findArbitrageOpportunities] sees it:
    [oracle k token dex] is the answer of [getDEXPrice(token, dex)] in the
    [k]-th iteration of the loop over [tokens] (the real oracle is
    randomised, two calls need not agree). *)
Definition Oracle : Type := nat → string → string → Qc.

(** The object [prices] once the loop over [dexes] is done, as the list
    of its entries in insertion order (the order of [Object.keys]). *)
Definition collectPrices (quote : string → Qc) : list (string * Qc) :=
  filter (λ entry, 0 < entry.2) ((λ dex, (dex, quote dex)) <$> dexes).

(** The index pairs [i < j] of the two nested loops, in loop order. *)
Fixpoint pairs {A : Type} (l : list A) : list (A * A) :=
  match l with
  | [] => []
  | x :: rest => ((λ y, (x, y)) <$> rest) ++ pairs rest
  end.

(** A number used as a condition. *)
Definition truthy (x : Qc) : bool := bool_decide (x ≠ 0).

Definition priceDiffPercent (priceA priceB : Qc) : Qc :=
  let priceDiff := abs (priceA - priceB) in
  let avgPrice := (priceA + priceB) / num 2 in
  (priceDiff / avgPrice) * num 100.

(** Body of the inner loop: what one pair pushes on [opportunities]. *)
Definition considerPair (token : string) (a b : string * Qc) : list ArbitrageOpportunity.t :=
  let '(dexA, priceA) := a in
  let '(dexB, priceB) := b in
  if truthy priceA && truthy priceB then
    let priceDiff := abs (priceA - priceB) in
    if decide (num 0.5 < priceDiffPercent priceA priceB) then
      let profitEstimate := priceDiff * num 0.997 in
      let risk := AIEngine.assessArbitrageRisk token dexA dexB priceDiff in
      [ {| token := token; dexA := dexA; dexB := dexB;
           priceDiff := priceDiff; profitEstimate := profitEstimate; risk := risk |} ]
    else []
  else [].

Definition opportunitiesOfToken (quote : string → Qc) (token : string)
  : list ArbitrageOpportunity.t :=
  concat ((λ ab, considerPair token ab.1 ab.2) <$> pairs (collectPrices quote)).

(** [opportunities.sort((a, b) => b.profitEstimate - a.profitEstimate)]:
    the sort is stable, so its result is the one of a stable insertion
    sort, descending in [profitEstimate]. *)
Fixpoint insertByProfit (x : ArbitrageOpportunity.t) (l : list ArbitrageOpportunity.t)
  : list ArbitrageOpportunity.t :=
  match l with
  | [] => [x]
  | y :: rest =>
      if decide (profitEstimate x < profitEstimate y) then y :: insertByProfit x rest
      else x :: y :: rest
  end.

Definition sortByProfit (l : list ArbitrageOpportunity.t) : list ArbitrageOpportunity.t :=
  foldr insertByProfit [] l.

Definition findArbitrageOpportunities (oracle : Oracle) (tokens : list string)
  : list ArbitrageOpportunity.t :=
  sortByProfit
    (concat (imap (λ k token, opportunitiesOfToken (oracle k token) token) tokens)).

(** *** executeArbitrage *)

Inductive Direction : Type := dirBuy | dirSell.

(** One call of [executeSwap]. *)
Record SwapRequest : Type := mkSwapRequest {
  tokenAddress : string;
  quoteToken : string;
  amount : Qc;
  dex : string;
  direction : Direction;
}.

Record ArbitrageResult : Type := mkArbitrageResult {
  success : bool;
  txHash1 : option string;
  txHash2 : option string;
  actualProfit : option Qc;
  error : option string;
}.

(** What one call of [executeArbitrage] obtains from outside: the two
    re-fetched prices, [process.env.PAYMENT_MODE], and the rendering of
    [Date.now()] and [Math.random()] inside each swap reference. *)
Record ExecEnv : Type := mkExecEnv {
  currentPriceA : Qc;
  currentPriceB : Qc;
  PAYMENT_MODE : option string;
  swapSuffix1 : string;
  swapSuffix2 : string;
}.

(** [process.env.PAYMENT_MODE || 'simulated'] *)
Definition paymentMode (env : ExecEnv) : string :=
  match PAYMENT_MODE env with
  | Some s => if decide (s = "") then "simulated" else s
  | None => "simulated"
  end.

Definition executeSwap (env : ExecEnv) (suffix : string) (req : SwapRequest) : option string :=
  if decide (paymentMode env = "simulated") then
    Some ("swap_" +:+ dex req +:+ "_" +:+ suffix)
  else None.

(** [!txHash] for a [string | null]. *)
Definition falsy (h : option string) : bool :=
  match h with
  | Some s => bool_decide (s = "")
  | None => true
  end.

Definition failure (msg : string) : ArbitrageResult :=
  {| success := false; txHash1 := None; txHash2 := None;
     actualProfit := None; error := Some msg |}.

(** The result of the call, and the calls of [executeSwap] it made, in
    order.  The [catch] clause is not modelled: nothing in the [try]
    block throws ([getDEXPrice] and [executeSwap] catch their own
    errors). *)
Definition executeArbitrage (env : ExecEnv) (opportunity : ArbitrageOpportunity.t)
    (amount : Qc) : ArbitrageResult * list SwapRequest :=
  let currentPriceA := currentPriceA env in
  let currentPriceB := currentPriceB env in
  if bool_decide (currentPriceA = 0) || bool_decide (currentPriceB = 0) then
    (failure "Price data unavailable for one or both DEXs", [])
  else
    let currentPriceDiff := abs (currentPriceA - currentPriceB) in
    let currentAvgPrice := (currentPriceA + currentPriceB) / num 2 in
    (* When [currentAvgPrice] is 0 (opposite prices) the quotient is
       [Infinity] in the source and the comparison is false. *)
    if bool_decide (currentAvgPrice ≠ 0)
       && bool_decide ((currentPriceDiff / currentAvgPrice) * num 100 < num 0.3) then
      (failure "Arbitrage opportunity no longer viable", [])
    else
      let cheaperA := bool_decide (currentPriceA < currentPriceB) in
      let buyDEX := if cheaperA then dexA opportunity else dexB opportunity in
      let sellDEX := if cheaperA then dexB opportunity else dexA opportunity in
      let buyPrice := if cheaperA then currentPriceA else currentPriceB in
      let sellPrice := if cheaperA then currentPriceB else currentPriceA in
      let maxSlippage := num 0.005 in
      let safeAmount := amount * (1 - maxSlippage) in
      let tokensReceived := safeAmount / buyPrice in
      let tokensToSell := tokensReceived * (1 - num 0.003) in
      let proceeds := tokensToSell * sellPrice in
      let netProfit := proceeds - amount in
      if decide (netProfit <= 0) then
        (failure "Arbitrage would result in loss after fees", [])
      else
        let swap1 := {| tokenAddress := token opportunity; quoteToken := "SOL";
                        amount := safeAmount; dex := buyDEX; direction := dirBuy |} in
        let h1 := executeSwap env (swapSuffix1 env) swap1 in
        if falsy h1 then (failure "First swap failed", [swap1])
        else
          let swap2 := {| tokenAddress := token opportunity; quoteToken := "SOL";
                          amount := tokensToSell; dex := sellDEX; direction := dirSell |} in
          let h2 := executeSwap env (swapSuffix2 env) swap2 in
          if falsy h2 then
            ({| success := false; txHash1 := h1; txHash2 := None;
                actualProfit := None; error := Some "Second swap failed" |},
             [swap1; swap2])
          else
            ({| success := true; txHash1 := h1; txHash2 := h2;
                actualProfit := Some netProfit; error := None |},
             [swap1; swap2]).

(** *** Yield farming *)

Import ProtocolConfig ProtocolData.

Definition matchesRiskTolerance (risk : Qc) (tolerance : RiskTolerance) : bool :=
  let threshold :=
    match tolerance with
    | low => num 0.3
    | medium => num 0.6
    | high => num 1.0
    end in
  bool_decide (risk <= threshold).

Definition protocolConfigs : list ProtocolConfig.t :=
  [ {| name := "Marinade Finance"; slug := "marinade-finance";
       defaultAPY := num 7.5; risk := num 0.2; chain := "solana" |};
    {| name := "Lido"; slug := "lido";
       defaultAPY := num 8.2; risk := num 0.15; chain := "solana" |};
    {| name := "Jito"; slug := "jito";
       defaultAPY := num 9.1; risk := num 0.3; chain := "solana" |};
    {| name := "Raydium"; slug := "raydium";
       defaultAPY := num 15.5; risk := num 0.6; chain := "solana" |};
    {| name := "Orca"; slug := "orca";
       defaultAPY := num 12.3; risk := num 0.5; chain := "solana" |} ].

(** What [fetchProtocolData] reads of the body of a DeFiLlama answer:
    the [totalLiquidityUSD] of each entry of [data.tvl] ([None] where an
    entry has none; the empty list when [data.tvl] is absent), and
    [data.chainTvls] as a map from chain to number (empty when absent). *)
Record LlamaResponse : Type := mkLlamaResponse {
  tvlSeries : list (option Qc);
  chainTvls : gmap string Qc;
}.

(** [response] is [None] when the request throws.  The local [apy] is
    declared and never assigned. *)
Definition fetchProtocolData (response : option LlamaResponse) (chain : string)
  : ProtocolData.t :=
  match response with
  | None => {| apy := None; tvl := None |}
  | Some data =>
      let apy : option Qc := None in
      let tvl :=
        if decide (0 < length (tvlSeries data))%nat then
          match tvlSeries data !! (length (tvlSeries data) - 1)%nat with
          | Some entry => entry
          | None => None
          end
        else if truthy (or_zero (chainTvls data !! chain)) then chainTvls data !! chain
        else None in
      {| apy := apy; tvl := tvl |}
  end.

Definition tvlRanges : gmap string (Qc * Qc) :=
  <["Marinade Finance" := (num 500000000, num 2000000000)]>
  (<["Lido" := (num 1000000000, num 5000000000)]>
  (<["Jito" := (num 200000000, num 800000000)]>
  (<["Raydium LP" := (num 50000000, num 500000000)]>
  (<["Orca LP" := (num 30000000, num 300000000)]> ∅)))).

(** [random] is the value of [Math.random()]. *)
Definition getProtocolTVL (random : Qc) (protocol : string) : Qc :=
  let range := default (num 10000000, num 100000000) (tvlRanges !! protocol) in
  range.1 + random * (range.2 - range.1).

(** What one call of [optimizeYieldFarming] obtains from outside: the
    answer of DeFiLlama for each slug ([None] when the request fails)
    and the value of [Math.random()] used for each protocol name. *)
Record YieldEnv : Type := mkYieldEnv {
  llama : string → option LlamaResponse;
  tvlRandom : string → Qc;
}.

(** The entry pushed for one protocol that passes the risk filter.  The
    [catch] clause of the loop body is not modelled: [fetchProtocolData]
    catches its own errors and [getProtocolTVL] does not throw. *)
Definition yieldOpportunityOf (env : YieldEnv) (amount : Qc) (config : ProtocolConfig.t)
  : YieldFarmingOpportunity.t :=
  let protocolData := fetchProtocolData (llama env (slug config)) (chain config) in
  let apy :=
    if truthy (or_zero (apy protocolData)) then or_zero (apy protocolData)
    else defaultAPY config in
  let tvl :=
    if truthy (or_zero (tvl protocolData)) then or_zero (tvl protocolData)
    else getProtocolTVL (tvlRandom env (name config)) (name config) in
  let estimatedReturn := (amount * apy) / num 100 in
  {| YieldFarmingOpportunity.protocol := name config;
     YieldFarmingOpportunity.token := "SOL";
     YieldFarmingOpportunity.apy := apy;
     YieldFarmingOpportunity.tvl := tvl;
     YieldFarmingOpportunity.risk := risk config;
     YieldFarmingOpportunity.estimatedReturn := estimatedReturn |}.

Definition optimizeYieldFarming (env : YieldEnv) (amount : Qc) (riskTolerance : RiskTolerance)
  : list YieldFarmingOpportunity.t :=
  let opportunities :=
    yieldOpportunityOf env amount
    <$> filter (λ config, matchesRiskTolerance (risk config) riskTolerance = true)
          protocolConfigs in
  AIEngine.rankYieldOpportunities opportunities riskTolerance.

(** [optimizeYieldFarming] as its callers reach it, with whatever
    string [params.riskTolerance || 'medium'] is.  For a string that is
    none of the three names, [thresholds[tolerance]] is [undefined] (or
    a property inherited from [Object.prototype]), the comparison
    [risk <= thresholds[tolerance]] is false for every protocol, and
    ranking the empty list returns it. *)
Definition riskToleranceOf (tolerance : string) : option RiskTolerance :=
  if decide (tolerance = "low") then Some low
  else if decide (tolerance = "medium") then Some medium
  else if decide (tolerance = "high") then Some high
  else None.

Definition optimizeYieldFarmingFor (env : YieldEnv) (amount : Qc) (tolerance : string)
  : list YieldFarmingOpportunity.t :=
  match riskToleranceOf tolerance with
  | Some riskTolerance => optimizeYieldFarming env amount riskTolerance
  | None => []
  end.

(** *** executeStrategy *)

Record StrategyEnv : Type := mkStrategyEnv {
  strategyOracle : Oracle;
  yieldEnv : YieldEnv;
}.

Definition executeStrategy (env : StrategyEnv) (strategy : string) (params : Params.t)
  : list TradingSignal.t :=
  if decide (strategy = "arbitrage") then
    let opportunities :=
      findArbitrageOpportunities (strategyOracle env) (default [] (Params.tokens params)) in
    AIEngine.generateSignalsFromArbitrage opportunities
  else if decide (strategy = "yield-farming") then
    let yieldOps :=
      optimizeYieldFarmingFor (yieldEnv env) (or_zero (Params.amount params))
        (JSArray.or_string (Params.riskTolerance params) "medium") in
    AIEngine.generateSignalsFromYield yieldOps
  else if decide (strategy = "momentum") then
    AIEngine.generateMomentumSignals params
  else [].

End TradingStrategyService.

(** ** AutonomousAgent ([src/agent/revenue-manager.ts], second class) *)

(** ** OracleService ([src/services/oracle.service.ts]) *)

Inductive Network : Type := Solana | Base.

Module OracleService.

Definition networkName (network : Network) : string :=
  match network with Solana => "solana" | Base => "base" end.

(** The fields of the class: the price cache and the time of the last
    request. *)
Record t : Type := mk {
  priceCache : gmap string MarketData.t;
  lastRequestTime : Z;
}.

Definition init : t := {| priceCache := ∅; lastRequestTime := 0 |}.

Definition cacheTTL : Z := 30000.

(** What [getTokenPrice] reads of the body of a Birdeye answer
    ([response.data.data?.value] and so on; [None] is [undefined]). *)
Record PriceBody : Type := mkPriceBody {
  value : option Qc;
  bodyVolume24h : option Qc;
  bodyPriceChange24h : option Qc;
  bodyLiquidity : option Qc;
}.

(** The request either answers or throws, with an HTTP status or none. *)
Inductive FetchOutcome : Type :=
| Fetched (body : PriceBody)
| Failed (status : option Z).

(** What one call of [getTokenPrice] obtains from outside: [Date.now()]
    at the cache check, at the end of [rateLimitDelay] and when the
    result is built, and the outcome of the request. *)
Record PriceEnv : Type := mkPriceEnv {
  nowAtCheck : Z;
  nowAtRequest : Z;
  nowAtResult : Z;
  fetched : FetchOutcome;
}.

Definition withLastRequestTime (time : Z) (st : t) : t :=
  {| priceCache := priceCache st; lastRequestTime := time |}.

Definition noData (tokenAddress : string) (time : Z) : MarketData.t :=
  {| MarketData.token := tokenAddress; MarketData.price := 0;
     MarketData.volume24h := 0; MarketData.priceChange24h := 0;
     MarketData.liquidity := 0; MarketData.timestamp := time |}.

(** The data returned, the state after the call, and whether a request
    was sent. *)
Definition getTokenPrice (env : PriceEnv) (tokenAddress : string) (network : Network)
    (st : t) : MarketData.t * t * bool :=
  let cacheKey := networkName network +:+ ":" +:+ tokenAddress in
  let cached := priceCache st !! cacheKey in
  let fresh :=
    match cached with
    | Some c => bool_decide (nowAtCheck env - MarketData.timestamp c < cacheTTL * 2)%Z
    | None => false
    end in
  match cached, fresh with
  | Some c, true => (c, st, false)
  | _, _ =>
      let st1 := withLastRequestTime (nowAtRequest env) st in
      match fetched env with
      | Fetched body =>
          let data :=
            {| MarketData.token := tokenAddress;
               MarketData.price := or_zero (value body);
               MarketData.volume24h := or_zero (bodyVolume24h body);
               MarketData.priceChange24h := or_zero (bodyPriceChange24h body);
               MarketData.liquidity := or_zero (bodyLiquidity body);
               MarketData.timestamp := nowAtResult env |} in
          (data,
           {| priceCache := <[cacheKey := data]> (priceCache st1);
              lastRequestTime := lastRequestTime st1 |},
           true)
      | Failed status =>
          match (if decide (status = Some 429%Z) then cached else None) with
          | Some c => (c, st1, true)
          | None =>
              match cached with
              | Some c => (c, st1, true)
              | None => (noData tokenAddress (nowAtResult env), st1, true)
              end
          end
      end
  end.

(** The price a venue is given, from the aggregated price and the two
    values of [Math.random()]. *)
Definition dexQuote (price random1 random2 : Qc) : Qc :=
  if decide (0 < price) then
    let variation :=
      (random1 * num 0.004 + num 0.001) * (if decide (num 0.5 < random2) then 1 else - (1)) in
    price * (1 + variation)
  else price.

(** The [catch] clause is not modelled: [getTokenPrice] does not throw. *)
Definition getDEXPrice (env : PriceEnv) (random1 random2 : Qc) (tokenAddress dex : string)
    (st : t) : Qc * t * bool :=
  let '(marketData, st', requested) := getTokenPrice env tokenAddress Solana st in
  (dexQuote (MarketData.price marketData) random1 random2, st', requested).

Definition getMarketSentiment (random : Qc) (token : string) : Qc :=
  random * num 2 - 1.

Definition getTradingVolume (tokenAddress timeframe : string) : Qc := 0.

End OracleService.

(** ** MarketAnalysisService ([src/services/market-analysis.service.ts]) *)

Module MarketAnalysisService.

(** [random] is the value of [Math.random()] inside
    [getMarketSentiment].  The result is [{...marketData, signals}]. *)
Definition analyzeToken (env : OracleService.PriceEnv) (random : Qc) (tokenAddress : string)
    (network : Network) (oracle : OracleService.t)
  : (MarketData.t * list TradingSignal.t) * OracleService.t :=
  let '(marketData, oracle', _) :=
    OracleService.getTokenPrice env tokenAddress network oracle in
  let sentiment := OracleService.getMarketSentiment random tokenAddress in
  let volume24h := OracleService.getTradingVolume tokenAddress "24h" in
  let signals :=
    AIEngine.generateTradingSignals
      {| TradingSignalInput.price := MarketData.price marketData;
         TradingSignalInput.volume24h := volume24h;
         TradingSignalInput.priceChange24h := MarketData.priceChange24h marketData;
         TradingSignalInput.liquidity := MarketData.liquidity marketData;
         TradingSignalInput.sentiment := sentiment |} in
  ((marketData, signals), oracle').

Definition generateTechnicalAnalysis (env : OracleService.PriceEnv) (tokenAddress : string)
    (timeframe : string) (oracle : OracleService.t)
  : TechnicalAnalysis.t * OracleService.t :=
  let '(marketData, oracle', _) :=
    OracleService.getTokenPrice env tokenAddress Solana oracle in
  (AIEngine.analyzeTechnicalIndicators
     {| TechnicalIndicators.currentPrice := MarketData.price marketData;
        TechnicalIndicators.volume := MarketData.volume24h marketData;
        TechnicalIndicators.priceChange := MarketData.priceChange24h marketData;
        TechnicalIndicators.timeframe := timeframe |},
   oracle').

Record MarketOverview : Type := mkMarketOverview {
  topGainers : list MarketData.t;
  topLosers : list MarketData.t;
  highestVolume : list MarketData.t;
  signals : list TradingSignal.t;
}.

(** The loop of [getMarketOverview]: one call of [analyzeToken] for each
    of the tokens, in order, on the same price service; [envs i] is what
    the [i]-th call obtains from outside (for [getTokenPrice] and for
    [Math.random()]). *)
Fixpoint pushSignals (envs : nat → OracleService.PriceEnv * Qc) (network : Network)
    (i : nat) (tokens : list MarketData.t) (oracle : OracleService.t)
  : list TradingSignal.t * OracleService.t :=
  match tokens with
  | [] => ([], oracle)
  | token :: rest =>
      let '((_, signals), oracle1) :=
        analyzeToken (envs i).1 (envs i).2 (MarketData.token token) network oracle in
      let '(more, oracle2) := pushSignals envs network (S i) rest oracle1 in
      (signals ++ more, oracle2)
  end.

(** [prices] is the array [getMultipleTokenPrices] resolves to and
    [oracle] the price service by then. *)
Definition getMarketOverview (envs : nat → OracleService.PriceEnv * Qc)
    (prices : list MarketData.t) (network : Network) (oracle : OracleService.t)
  : MarketOverview * OracleService.t :=
  let sortedByChange := JSArray.sortDesc MarketData.priceChange24h prices in
  let sortedByVolume := JSArray.sortDesc MarketData.volume24h prices in
  let '(signals, oracle') :=
    pushSignals envs network 0 (JSArray.sliceFront 5 sortedByChange) oracle in
  ({| topGainers := JSArray.sliceFront 10 sortedByChange;
      topLosers := reverse (JSArray.sliceBack 10 sortedByChange);
      highestVolume := JSArray.sliceFront 10 sortedByVolume;
      signals := signals |},
   oracle').

End MarketAnalysisService.

Module AutonomousAgent.

Import ArbitrageOpportunity.

Definition SOL : string := "So11111111111111111111111111111111111111112".

(** What one run of [autonomousCycle] obtains from outside. *)
Record CycleEnv : Type := mkCycleEnv {
  oracle : TradingStrategyService.Oracle;
  (** [getBalance()] before the arbitrage is executed, and in step 3 *)
  balanceForArbitrage : Qc;
  balanceForMonitoring : Qc;
  execEnv : TradingStrategyService.ExecEnv;
  (** one per possible [spawnSubAgent]: inside [recordPayment], in step 2
      and in step 3 *)
  spawnEnvPayment : RevenueManager.SpawnEnv;
  spawnEnvStep2 : RevenueManager.SpawnEnv;
  spawnEnvStep3 : RevenueManager.SpawnEnv;
}.

(** The condition under which the cycle goes on to execute the best
    opportunity. *)
Definition worthExecuting (bestOpportunity : ArbitrageOpportunity.t) : bool :=
  let minProfitThreshold := num 0.05 in
  bool_decide (minProfitThreshold < profitEstimate bestOpportunity)
  && bool_decide (risk bestOpportunity < num 0.5).

(** Step 1 of the cycle; returns the manager and the swaps attempted. *)
Definition arbitrageStep (env : CycleEnv) (minBalance : Qc) (rm : RevenueManager.t)
  : RevenueManager.t * list TradingStrategyService.SwapRequest :=
  let arbitrageOps := TradingStrategyService.findArbitrageOpportunities (oracle env) [SOL] in
  match arbitrageOps with
  | [] => (rm, [])
  | bestOpportunity :: _ =>
      if worthExecuting bestOpportunity then
        let balance := balanceForArbitrage env in
        let requiredAmount := num 0.5 in
        if decide (minBalance + requiredAmount <= balance) then
          let '(result, swaps) :=
            TradingStrategyService.executeArbitrage (execEnv env) bestOpportunity requiredAmount in
          if TradingStrategyService.success result then
            match TradingStrategyService.actualProfit result with
            | Some profit =>
                if TradingStrategyService.truthy profit && bool_decide (0 < profit) then
                  (RevenueManager.recordPayment (spawnEnvPayment env) "arbitrage" profit rm, swaps)
                else (rm, swaps)
            | None => (rm, swaps)
            end
          else (rm, swaps)
        else (rm, [])
      else (rm, [])
  end.

Definition autonomousCycle (env : CycleEnv) (minBalance : Qc) (rm : RevenueManager.t)
  : RevenueManager.t * list TradingStrategyService.SwapRequest :=
  let '(rm1, swaps) := arbitrageStep env minBalance rm in
  let rm2 := RevenueManager.considerReinvestment (spawnEnvStep2 env) rm1 in
  let balance := balanceForMonitoring env in
  let rm3 :=
    if decide (minBalance * num 2 < balance) then
      if decide (num 0.3 <= AgentEarnings.available (RevenueManager.earnings rm2)) then
        RevenueManager.considerReinvestment (spawnEnvStep3 env) rm2
      else rm2
    else rm2 in
  (rm3, swaps).

(** *** Requests *)

(** What [handleTradingStrategy] returns, by branch. *)
Inductive StrategyResult : Type :=
| Opportunities (found : list ArbitrageOpportunity.t)
| YieldOpportunities (ranked : list YieldFarmingOpportunity.t)
| Signals (signals : list TradingSignal.t).

(** [params.amount || 1] *)
Definition or_one (o : option Qc) : Qc :=
  if TradingStrategyService.truthy (or_zero o) then or_zero o else 1.

Definition handleTradingStrategy (env : TradingStrategyService.StrategyEnv)
    (params : Params.t) : StrategyResult :=
  let strategy := JSArray.or_string (Params.strategy params) "arbitrage" in
  if decide (strategy = "arbitrage") then
    let tokens := default [SOL] (Params.tokens params) in
    Opportunities
      (TradingStrategyService.findArbitrageOpportunities
         (TradingStrategyService.strategyOracle env) tokens)
  else if decide (strategy = "yield-farming") then
    YieldOpportunities
      (TradingStrategyService.optimizeYieldFarmingFor (TradingStrategyService.yieldEnv env)
         (or_one (Params.amount params))
         (JSArray.or_string (Params.riskTolerance params) "medium"))
  else
    Signals (TradingStrategyService.executeStrategy env strategy params).

(** [chargeForService] returns a transaction reference or throws. *)
Inductive ChargeOutcome : Type :=
| ChargeOk (txHash : string)
| ChargeThrew (message : string).

(** The handler of the service returns a result or throws. *)
Inductive Outcome (R : Type) : Type :=
| Returned (result : R)
| Threw (message : string).
Arguments Returned {R} result.
Arguments Threw {R} message.

(** One call of [chargeForService]. *)
Record Charge : Type := mkCharge {
  chargedService : string;
  chargedUser : string;
  chargedAmount : Qc;
}.

(** What one call of [handleServiceRequest] obtains from outside: the
    outcome of the charge, the payment mode of the blockchain service,
    the outcome of the handler of the service (market analysis, trading
    strategy or data aggregation: none of them touches the revenue
    manager), what a spawn would read, and [Date.now()] at the end. *)
Record RequestEnv (R : Type) : Type := mkRequestEnv {
  charge : ChargeOutcome;
  blockchainPaymentMode : option string;
  execution : Outcome R;
  requestSpawnEnv : RevenueManager.SpawnEnv;
  nowAtReturn : Z;
}.
Arguments charge {R} _.
Arguments blockchainPaymentMode {R} _.
Arguments execution {R} _.
Arguments requestSpawnEnv {R} _.
Arguments nowAtReturn {R} _.

Record ServiceResponse (R : Type) : Type := mkServiceResponse {
  result : R;
  transactionHash : string;
  responseServiceId : string;
  serviceName : string;
  responsePrice : Qc;
  responseTimestamp : Z;
  responsePaymentMode : option string;
}.
Arguments result {R} _.
Arguments transactionHash {R} _.
Arguments responseServiceId {R} _.
Arguments serviceName {R} _.
Arguments responsePrice {R} _.
Arguments responseTimestamp {R} _.
Arguments responsePaymentMode {R} _.

(** [switch (service.type)]: the three known types run their handler,
    any other type throws. *)
Definition executeService {R : Type} (env : RequestEnv R) (service : ServiceConfig.t)
  : Outcome R :=
  if decide (ServiceConfig.type service = "market-analysis") then execution env
  else if decide (ServiceConfig.type service = "trading-strategy") then execution env
  else if decide (ServiceConfig.type service = "data-aggregation") then execution env
  else Threw ("Unknown service type: " +:+ ServiceConfig.type service).

(** The value returned ([inr]) or the message of the error thrown
    ([inl]), the revenue manager after the call and the charges made.
    The verification of the transaction between charge and recording
    only waits and logs; it is left out. *)
Definition handleServiceRequest {R : Type} (services : list ServiceConfig.t)
    (env : RequestEnv R) (request : ServiceRequest.t) (rm : RevenueManager.t)
  : (Text + ServiceResponse R) * RevenueManager.t * list Charge :=
  let service :=
    List.find (λ s, bool_decide (ServiceConfig.id s = ServiceRequest.serviceId request))
              services in
  match service with
  | None =>
      (inl [Lit "Service "; Lit (ServiceRequest.serviceId request);
            Lit " not found or disabled"], rm, [])
  | Some service =>
      if negb (ServiceConfig.enabled service) then
        (inl [Lit "Service "; Lit (ServiceRequest.serviceId request);
              Lit " not found or disabled"], rm, [])
      else if bool_decide (ServiceRequest.paymentAmount request ≠ ServiceConfig.price service)
      then
        (inl [Lit "Payment amount mismatch. Expected: ";
              NumberToString (ServiceConfig.price service);
              Lit ", Received: "; NumberToString (ServiceRequest.paymentAmount request)],
         rm, [])
      else
        let charged :=
          {| chargedService := ServiceRequest.serviceId request;
             chargedUser := ServiceRequest.userId request;
             chargedAmount := ServiceConfig.price service |} in
        match charge env with
        | ChargeThrew message => (inl [Lit "Payment failed: "; Lit message], rm, [charged])
        | ChargeOk txHash =>
            let rm' :=
              RevenueManager.recordPayment (requestSpawnEnv env)
                (ServiceRequest.serviceId request) (ServiceConfig.price service) rm in
            match executeService env service with
            | Threw message =>
                (inl [Lit "Service execution failed: "; Lit message;
                      Lit ". Payment processed: "; Lit txHash], rm', [charged])
            | Returned result =>
                (inr {| result := result;
                        transactionHash := txHash;
                        responseServiceId := ServiceRequest.serviceId request;
                        serviceName := ServiceConfig.name service;
                        responsePrice := ServiceConfig.price service;
                        responseTimestamp := nowAtReturn env;
                        responsePaymentMode := blockchainPaymentMode env |},
                 rm', [charged])
            end
        end
  end.

(** A request or a cycle, as the agent meets them. *)
Inductive Event (R : Type) : Type :=
| EventRequest (env : RequestEnv R) (request : ServiceRequest.t)
| EventCycle (env : CycleEnv).
Arguments EventRequest {R} env request.
Arguments EventCycle {R} env.

Definition handleEvent {R : Type} (services : list ServiceConfig.t) (minBalance : Qc)
    (rm : RevenueManager.t) (event : Event R) : RevenueManager.t :=
  match event with
  | EventRequest env request => (handleServiceRequest services env request rm).1.2
  | EventCycle env => (autonomousCycle env minBalance rm).1
  end.

Definition handleEvents {R : Type} (services : list ServiceConfig.t) (minBalance : Qc)
    (events : list (Event R)) (rm : RevenueManager.t) : RevenueManager.t :=
  foldl (handleEvent services minBalance) rm events.

End AutonomousAgent.

(** * The ledger and the arbitrage finder in binary64

    The modules above compute with exact rationals.  The program
    computes with JavaScript numbers, which are the binary64 values of
    IEEE 754, and keeps [byService] in a plain object.  Where a property
    depends on rounding, on [NaN] or on the keys of that object, the
    code is embedded a second time, below, with Rocq's primitive floats:
    every [+], [-], [*], [/] rounds to nearest (ties to even), as in
    the program, a decimal literal of the source stands for the nearest
    binary64 value, and comparisons with [NaN] are false. *)

Module Binary64.

Import PrimFloat.
#[local] Open Scope float_scope.
#[local] Set Warnings "-inexact-float".

Module Num.

(** A number used as a condition: [0], [-0] and [NaN] are falsy. *)
Definition truthy (x : float) : bool := negb ((x =? 0) || is_nan x).

(** [x || 0] for a number [x]. *)
Definition or_zero (x : float) : float := if truthy x then x else 0.

(** [Math.min(x, y)]: [NaN] when either is, and [-0] below [+0]. *)
Definition min (x y : float) : float :=
  if is_nan x || is_nan y then nan
  else if x <? y then x
  else if y <? x then y
  else if get_sign x then x else y.

End Num.

(** ** A plain object used as a map from strings to numbers

    [byService] starts as [{}], whose prototype is [Object.prototype].
    Reading a key that is not an own property finds the properties of
    the prototype, which are functions or objects; adding a number to
    one of them gives a string. *)

Module JSObject.

(** What a property of the object can hold here: a number, or
    something that is not one (a string, or an inherited function or
    object); the latter is truthy, and [+] with it gives a string. *)
Inductive Value : Type :=
| Number (x : float)
| NotNumber.

(** The property names of [Object.prototype]. *)
Definition objectPrototype : list string :=
  [ "constructor"; "__defineGetter__"; "__defineSetter__"; "hasOwnProperty";
    "__lookupGetter__"; "__lookupSetter__"; "isPrototypeOf";
    "propertyIsEnumerable"; "toString"; "valueOf"; "__proto__"; "toLocaleString" ].

(** [o[key]] for an object with own properties [o]; [None] is
    [undefined]. *)
Definition get (o : gmap string Value) (key : string) : option Value :=
  match o !! key with
  | Some v => Some v
  | None => if bool_decide (key ∈ objectPrototype) then Some NotNumber else None
  end.

(** [o[key] = v], for a [v] that is a number or a string: the setter
    of [__proto__] ignores such a value, any other key becomes an own
    property. *)
Definition set (o : gmap string Value) (key : string) (v : Value) : gmap string Value :=
  if decide (key = "__proto__") then o else <[key := v]> o.

(** [(v || 0) + amount] for the value [v] read from the object. *)
Definition orZeroPlus (v : option Value) (amount : float) : Value :=
  match v with
  | None => Number (0 + amount)
  | Some (Number x) => Number (Num.or_zero x + amount)
  | Some NotNumber => NotNumber
  end.

End JSObject.

(** ** Data model *)

Module AgentEarnings.
Record t : Type := mk {
  total : float;
  byService : gmap string JSObject.Value;
  reinvested : float;
  available : float;
}.
End AgentEarnings.

Module SubAgent.
Record t : Type := mk {
  id : string;
  parentId : string;
  role : string;
  balance : float;
  status : SubAgentStatus;
  createdAt : Z;
  walletAddress : option string;
  fundingTxHash : option string;
}.
End SubAgent.

Module ArbitrageOpportunity.
Record t : Type := mk {
  token : string;
  dexA : string;
  dexB : string;
  priceDiff : float;
  profitEstimate : float;
  risk : float;
}.
End ArbitrageOpportunity.

(** ** RevenueManager ([src/agent/revenue-manager.ts]) *)

Module RevenueManager.

Import AgentEarnings.

Record t : Type := mk {
  earnings : AgentEarnings.t;
  reinvestmentThreshold : float;
  subAgents : gmap string SubAgent.t;
}.

Definition init (reinvestmentThreshold : float) : t :=
  {| earnings := {| total := 0; byService := ∅; reinvested := 0; available := 0 |};
     reinvestmentThreshold := reinvestmentThreshold;
     subAgents := ∅ |}.

Definition defaultThreshold : float := 1.0.

(** What one call of [spawnSubAgent] obtains from outside the ledger
    (identifier, address, funding reference, creation time). *)
Record SpawnEnv : Type := mkSpawnEnv {
  subAgentId : string;
  newWalletAddress : string;
  newFundingTxHash : string;
  now : Z;
}.

Definition upgradeCost : float := 0.5.
Definition spawnCost : float := 0.3.

(** [available -= cost; reinvested += cost] *)
Definition debit (cost : float) (e : AgentEarnings.t) : AgentEarnings.t :=
  {| total := total e;
     byService := byService e;
     reinvested := reinvested e + cost;
     available := available e - cost |}.

Definition newSubAgent (env : SpawnEnv) (role : string) (cost : float) : SubAgent.t :=
  {| SubAgent.id := subAgentId env;
     SubAgent.parentId := "main";
     SubAgent.role := role;
     SubAgent.balance := cost;
     SubAgent.status := active;
     SubAgent.createdAt := now env;
     SubAgent.walletAddress := Some (newWalletAddress env);
     SubAgent.fundingTxHash := Some (newFundingTxHash env) |}.

Definition spawnSubAgent (env : SpawnEnv) (role : string) (cost : float) (rm : t) : t :=
  {| earnings := earnings rm;
     reinvestmentThreshold := reinvestmentThreshold rm;
     subAgents := <[subAgentId env := newSubAgent env role cost]> (subAgents rm) |}.

(** [upgradeAgent(cost)] only logs. *)
Definition upgradeAgent (cost : float) (rm : t) : t := rm.
Arguments upgradeAgent cost rm /.

Definition shouldUpgrade (rm : t) : bool :=
  bool_decide (size (subAgents rm) < 2)%nat || (10 <? total (earnings rm)).

Definition withEarnings (f : AgentEarnings.t → AgentEarnings.t) (rm : t) : t :=
  {| earnings := f (earnings rm);
     reinvestmentThreshold := reinvestmentThreshold rm;
     subAgents := subAgents rm |}.

Definition considerReinvestment (env : SpawnEnv) (rm : t) : t :=
  if available (earnings rm) <? reinvestmentThreshold rm then rm
  else
    let canUpgrade := upgradeCost <=? available (earnings rm) in
    let canSpawn := spawnCost <=? available (earnings rm) in
    if canSpawn && bool_decide (size (subAgents rm) < 5)%nat then
      withEarnings (debit spawnCost) (spawnSubAgent env "data-collector" spawnCost rm)
    else if canUpgrade && shouldUpgrade rm then
      withEarnings (debit upgradeCost) (upgradeAgent upgradeCost rm)
    else rm.

(** The three assignments at the head of [recordPayment]. *)
Definition credit (serviceId : string) (amount : float) (e : AgentEarnings.t)
  : AgentEarnings.t :=
  {| total := total e + amount;
     byService :=
       JSObject.set (byService e) serviceId
         (JSObject.orZeroPlus (JSObject.get (byService e) serviceId) amount);
     reinvested := reinvested e;
     available := available e + amount |}.

Definition recordPayment (env : SpawnEnv) (serviceId : string) (amount : float) (rm : t)
  : t :=
  let rm1 := withEarnings (credit serviceId amount) rm in
  if reinvestmentThreshold rm1 <=? available (earnings rm1) then
    considerReinvestment env rm1
  else rm1.

(** Sequences of calls on one manager. *)
Inductive Call : Type :=
| CallRecordPayment (env : SpawnEnv) (serviceId : string) (amount : float)
| CallConsiderReinvestment (env : SpawnEnv).

Definition step (rm : t) (c : Call) : t :=
  match c with
  | CallRecordPayment env serviceId amount => recordPayment env serviceId amount rm
  | CallConsiderReinvestment env => considerReinvestment env rm
  end.

Definition run (calls : list Call) (rm : t) : t := foldl step rm calls.

End RevenueManager.

(** ** AIEngine.assessArbitrageRisk ([src/ai/ai-engine.ts]) *)

Module AIEngine.

Definition assessArbitrageRisk (token dexA dexB : string) (priceDiff : float) : float :=
  let baseRisk := 0.3 in
  let liquidityRisk := Num.min (priceDiff / 10) 0.4 in
  let executionRisk := 0.2 in
  Num.min (baseRisk + liquidityRisk + executionRisk) 1.0.

End AIEngine.

(** ** TradingStrategyService.findArbitrageOpportunities
    ([src/services/trading-strategy.service.ts]) *)

Module TradingStrategyService.

Import ArbitrageOpportunity.

Definition dexes : list string := ["jupiter"; "raydium"; "orca"].

(** [oracle k token dex] is the answer of [getDEXPrice(token, dex)] in
    the [k]-th iteration of the loop over [tokens]. *)
Definition Oracle : Type := nat → string → string → float.

(** The object [prices] once the loop over [dexes] is done, as the list
    of its entries in insertion order (the order of [Object.keys]; the
    keys are the three names of [dexes]). *)
Definition collectPrices (quote : string → float) : list (string * float) :=
  filter (λ entry, (0 <? entry.2) = true) ((λ dex, (dex, quote dex)) <$> dexes).

Definition priceDiffPercent (priceA priceB : float) : float :=
  let priceDiff := abs (priceA - priceB) in
  let avgPrice := (priceA + priceB) / 2 in
  (priceDiff / avgPrice) * 100.

(** Body of the inner loop: what one pair pushes on [opportunities].
    (The pairs [i < j] of the two nested loops are those of
    [TradingStrategyService.pairs], above.) *)
Definition considerPair (token : string) (a b : string * float)
  : list ArbitrageOpportunity.t :=
  let '(dexA, priceA) := a in
  let '(dexB, priceB) := b in
  if Num.truthy priceA && Num.truthy priceB then
    let priceDiff := abs (priceA - priceB) in
    if 0.5 <? priceDiffPercent priceA priceB then
      let profitEstimate := priceDiff * 0.997 in
      let risk := AIEngine.assessArbitrageRisk token dexA dexB priceDiff in
      [ {| token := token; dexA := dexA; dexB := dexB;
           priceDiff := priceDiff; profitEstimate := profitEstimate; risk := risk |} ]
    else []
  else [].

Definition opportunitiesOfToken (quote : string → float) (token : string)
  : list ArbitrageOpportunity.t :=
  concat ((λ ab, considerPair token ab.1 ab.2)
            <$> TradingStrategyService.pairs (collectPrices quote)).

(** The comparison function of the sort. *)
Definition compareFn (a b : ArbitrageOpportunity.t) : float :=
  profitEstimate b - profitEstimate a.

(** [opportunities.sort(compareFn)]: the sort is stable, so its result
    is the one of a stable insertion sort; [y] goes before [x] when
    [compareFn(x, y) > 0]. *)
Fixpoint insertByProfit (x : ArbitrageOpportunity.t) (l : list ArbitrageOpportunity.t)
  : list ArbitrageOpportunity.t :=
  match l with
  | [] => [x]
  | y :: rest =>
      if 0 <? compareFn x y then y :: insertByProfit x rest
      else x :: y :: rest
  end.

Definition sortByProfit (l : list ArbitrageOpportunity.t) : list ArbitrageOpportunity.t :=
  foldr insertByProfit [] l.

Definition findArbitrageOpportunities (oracle : Oracle) (tokens : list string)
  : list ArbitrageOpportunity.t :=
  sortByProfit
    (concat (imap (λ k token, opportunitiesOfToken (oracle k token) token) tokens)).

End TradingStrategyService.

End Binary64.

(** * Vocabulary of the statements *)

Section ScoringVocabulary.

Import TradingSignalInput AIEngine.

(** The pre-clamp score as the claim describes it: the normalised price
    change weighted twice, by the price weight and by the momentum
    weight. *)
Definition doubleCountedScore (input : TradingSignalInput.t) : Qc :=
  (priceChange24h input / num 100) * num 0.30
  + (priceChange24h input / num 100) * num 0.15
  + num 0.25 * min (volume24h input / num 1000000) 1
  + num 0.20 * sentiment input
  + num 0.10 * min (liquidity input / num 10000000) 1.

Definition withMomentum (m : Qc) (w : Weights) : Weights :=
  {| w_price := w_price w; w_volume := w_volume w; w_sentiment := w_sentiment w;
     w_momentum := m; w_liquidity := w_liquidity w |}.

Definition withPriceChange (c : Qc) (input : TradingSignalInput.t) : TradingSignalInput.t :=
  {| price := price input; volume24h := volume24h input; priceChange24h := c;
     liquidity := liquidity input; sentiment := sentiment input |}.

End ScoringVocabulary.

Section ArbitrageVocabulary.

Import ArbitrageOpportunity AIEngine TradingStrategyService.

(** The entry pushed for the pair of venues [dexA], [dexB] quoting
    [priceA], [priceB]. *)
Definition opportunityOf (token dexA dexB : string) (priceA priceB : Qc)
  : ArbitrageOpportunity.t :=
  {| token := token; dexA := dexA; dexB := dexB;
     priceDiff := abs (priceA - priceB);
     profitEstimate := abs (priceA - priceB) * num 0.997;
     risk := assessArbitrageRisk token dexA dexB (abs (priceA - priceB)) |}.

(** Descending in [profitEstimate]. *)
Inductive descending : list ArbitrageOpportunity.t → Prop :=
| descending_nil : descending []
| descending_cons x l :
    (∀ y, y ∈ l → profitEstimate y <= profitEstimate x) →
    descending l → descending (x :: l).

End ArbitrageVocabulary.

(** * Sample inputs *)

Section Samples.

Import AgentEarnings RevenueManager TradingStrategyService.

(** The outside world of one spawn, for a given identifier. *)
Definition env0 (id : string) : SpawnEnv :=
  {| subAgentId := id; newWalletAddress := "wallet"; newFundingTxHash := "tx"; now := 0 |}.

(** A state reached by one payment of 2: one sub-agent, 1.7 available. *)
Definition afterPaymentOfTwo : RevenueManager.t :=
  recordPayment (env0 "sub_1") "market-analysis" (num 2) (init defaultThreshold).

(** A state reached by one payment of 3: one sub-agent, 2.7 available. *)
Definition afterPaymentOfThree : RevenueManager.t :=
  recordPayment (env0 "sub_0") "market-analysis" (num 3) (init defaultThreshold).

Definition someIds : list string :=
  ["sub_0"; "sub_1"; "sub_2"; "sub_3"; "sub_4"; "sub_5"; "sub_6"].

Definition someAgents (count : nat) : gmap string SubAgent.t :=
  foldr (λ id m, <[id := newSubAgent (env0 id) "data-collector" spawnCost]> m) ∅
        (take count someIds).

(** A ledger with the given [total] and [available], [count] sub-agents
    named ["sub_0"], ["sub_1"], ... (at most 7) and the default
    threshold. *)
Definition ledgerWith (total available : Qc) (count : nat) : RevenueManager.t :=
  {| earnings := {| total := total; byService := {["market-analysis" := total]};
                    reinvested := total - available; available := available |};
     reinvestmentThreshold := defaultThreshold;
     subAgents := someAgents count |}.

(** The cap reached by a run: a payment of 3 followed by four checks
    spawns five sub-agents; the next check spawns none. *)
Definition fiveSpawns : list Call :=
  [ CallRecordPayment (env0 "sub_0") "market-analysis" (num 3);
    CallConsiderReinvestment (env0 "sub_1");
    CallConsiderReinvestment (env0 "sub_2");
    CallConsiderReinvestment (env0 "sub_3");
    CallConsiderReinvestment (env0 "sub_4") ].

(** An oracle that answers the same three prices whatever the token. *)
Definition quotes (jupiter raydium orca : Qc) : Oracle :=
  λ _ _ dex,
    if decide (dex = "jupiter") then jupiter
    else if decide (dex = "raydium") then raydium
    else if decide (dex = "orca") then orca
    else 0.

(** The example of the claim: the live prices are 100 and 100.2, a
    spread of about 0.2 per cent. *)
Definition spreadFallen : ExecEnv :=
  {| currentPriceA := num 100; currentPriceB := num 100.2;
     PAYMENT_MODE := None; swapSuffix1 := "1_a"; swapSuffix2 := "2_b" |}.

End Samples.

(** * Vocabulary of the further properties *)

Section MoreVocabulary.

(** Descending in [key]: every element is at least as large as all the
    elements after it. *)
Inductive descendingBy {A : Type} (key : A → Qc) : list A → Prop :=
| descendingBy_nil : descendingBy key []
| descendingBy_cons x l :
    (∀ y, y ∈ l → key y <= key x) →
    descendingBy key l → descendingBy key (x :: l).

(** The net profit [executeArbitrage] computes for re-fetched prices
    [a], [b]: it buys at the lower one and sells at the higher one. *)
Definition netProfitOf (a b amount : Qc) : Qc :=
  amount * (1 - num 0.005) / min a b * (1 - num 0.003) * max a b - amount.

(** The positions, in [protocolConfigs], of the protocols returned for a
    risk tolerance, in the order in which they are returned. *)
Definition rankedPositions (riskTolerance : RiskTolerance) : list nat :=
  match riskTolerance with
  | low => [1; 0; 2]
  | medium | high => [1; 0; 2; 4; 3]
  end%nat.

Definition rankedCatalog (riskTolerance : RiskTolerance)
  : list ProtocolConfig.t :=
  omap (λ i, TradingStrategyService.protocolConfigs !! i) (rankedPositions riskTolerance).

(** The score of a catalog entry under its default APY. *)
Definition catalogScore (riskTolerance : RiskTolerance)
    (config : ProtocolConfig.t) : Qc :=
  ProtocolConfig.defaultAPY config * AIEngine.riskMultiplier riskTolerance
  - ProtocolConfig.risk config * num 50.

(** A data source that is down, with a random number of one half. *)
Definition sourceDown : TradingStrategyService.YieldEnv :=
  {| TradingStrategyService.llama := λ _, None;
     TradingStrategyService.tvlRandom := λ _, num 0.5 |}.

(** A call that does not record a negative amount. *)
Definition nonNegativeCall (c : RevenueManager.Call) : Prop :=
  match c with
  | RevenueManager.CallRecordPayment _ _ amount => 0 <= amount
  | RevenueManager.CallConsiderReinvestment _ => True
  end.

(** A count as a number. *)
Definition numOfNat (n : nat) : Qc := num (inject_Z (Z.of_nat n)).

(** What holds of the balances as long as no negative amount is
    recorded. *)
Definition solvent (rm : RevenueManager.t) : Prop :=
  0 <= AgentEarnings.available (RevenueManager.earnings rm)
  ∧ 0 <= AgentEarnings.reinvested (RevenueManager.earnings rm).

(** The records written by [spawnSubAgent] under [considerReinvestment]. *)
Definition spawned (rm : RevenueManager.t) : Prop :=
  (∀ id agent, RevenueManager.subAgents rm !! id = Some agent →
     SubAgent.id agent = id
     ∧ SubAgent.parentId agent = "main"
     ∧ SubAgent.role agent = "data-collector"
     ∧ SubAgent.balance agent = num 0.3
     ∧ SubAgent.status agent = active
     ∧ is_Some (SubAgent.walletAddress agent)
     ∧ is_Some (SubAgent.fundingTxHash agent))
  ∧ num 0.3 * numOfNat (size (RevenueManager.subAgents rm))
    <= AgentEarnings.reinvested (RevenueManager.earnings rm).

(** The first service configured under an identifier, as
    [handleServiceRequest] looks it up. *)
Definition serviceOf (services : list ServiceConfig.t) (request : ServiceRequest.t)
  : option ServiceConfig.t :=
  List.find (λ s, bool_decide (ServiceConfig.id s = ServiceRequest.serviceId request))
            services.

(** A call that records, if anything, the price of a configured and
    enabled service. *)
Definition pricedCall (services : list ServiceConfig.t) (c : RevenueManager.Call) : Prop :=
  match c with
  | RevenueManager.CallRecordPayment _ serviceId amount =>
      ∃ service, service ∈ services
        ∧ ServiceConfig.enabled service = true
        ∧ ServiceConfig.id service = serviceId
        ∧ ServiceConfig.price service = amount
  | RevenueManager.CallConsiderReinvestment _ => True
  end.

End MoreVocabulary.


(** * Further sample inputs *)

Section MoreSamples.

(** The services of [defaultConfig] in [index.ts]. *)
Definition defaultServices : list ServiceConfig.t :=
  [ {| ServiceConfig.id := "market-analysis"; ServiceConfig.name := "Market Analysis";
       ServiceConfig.type := "market-analysis"; ServiceConfig.price := num 0.01;
       ServiceConfig.enabled := true |};
    {| ServiceConfig.id := "trading-strategy"; ServiceConfig.name := "Trading Strategy";
       ServiceConfig.type := "trading-strategy"; ServiceConfig.price := num 0.05;
       ServiceConfig.enabled := true |};
    {| ServiceConfig.id := "data-aggregation"; ServiceConfig.name := "Data Aggregation";
       ServiceConfig.type := "data-aggregation"; ServiceConfig.price := num 0.02;
       ServiceConfig.enabled := true |} ].

Definition noParams : Params.t :=
  {| Params.strategy := None; Params.tokens := None; Params.amount := None;
     Params.riskTolerance := None; Params.token := None; Params.currentPrice := None |}.

Definition requestOf (serviceId : string) (amount : Qc) : ServiceRequest.t :=
  {| ServiceRequest.serviceId := serviceId; ServiceRequest.userId := "user";
     ServiceRequest.params := noParams; ServiceRequest.paymentAmount := amount |}.

(** A request whose charge goes through and whose service returns. *)
Definition charged : AutonomousAgent.RequestEnv unit :=
  {| AutonomousAgent.charge := AutonomousAgent.ChargeOk "sim_tx";
     AutonomousAgent.blockchainPaymentMode := Some "simulated";
     AutonomousAgent.execution := AutonomousAgent.Returned ();
     AutonomousAgent.requestSpawnEnv := env0 "sub_0";
     AutonomousAgent.nowAtReturn := 0 |}.

(** A cycle in which the three venues quote 100, 101 and 102. *)
Definition cycleAt (balance : Qc) : AutonomousAgent.CycleEnv :=
  {| AutonomousAgent.oracle := quotes (num 100) (num 101) (num 102);
     AutonomousAgent.balanceForArbitrage := balance;
     AutonomousAgent.balanceForMonitoring := balance;
     AutonomousAgent.execEnv := spreadFallen;
     AutonomousAgent.spawnEnvPayment := env0 "sub_1";
     AutonomousAgent.spawnEnvStep2 := env0 "sub_2";
     AutonomousAgent.spawnEnvStep3 := env0 "sub_3" |}.

Definition position (protocol : string) (apy risk : Qc) : YieldFarmingOpportunity.t :=
  {| YieldFarmingOpportunity.protocol := protocol; YieldFarmingOpportunity.token := "SOL";
     YieldFarmingOpportunity.apy := apy; YieldFarmingOpportunity.tvl := 0;
     YieldFarmingOpportunity.risk := risk;
     YieldFarmingOpportunity.estimatedReturn := 0 |}.

(** A price service that answers [price] at time [time], and one that
    refuses with status 429. *)
Definition answering (price : Qc) (time : Z) : OracleService.PriceEnv :=
  {| OracleService.nowAtCheck := time; OracleService.nowAtRequest := time;
     OracleService.nowAtResult := time;
     OracleService.fetched :=
       OracleService.Fetched
         {| OracleService.value := Some price; OracleService.bodyVolume24h := None;
            OracleService.bodyPriceChange24h := None;
            OracleService.bodyLiquidity := None |} |}.

Definition rateLimited (time : Z) : OracleService.PriceEnv :=
  {| OracleService.nowAtCheck := time; OracleService.nowAtRequest := time;
     OracleService.nowAtResult := time;
     OracleService.fetched := OracleService.Failed (Some 429%Z) |}.

End MoreSamples.

(** * Vocabulary of the binary64 statements *)

Module Vocabulary64.

Import PrimFloat.
Import Binary64 Binary64.AgentEarnings Binary64.RevenueManager.
#[local] Open Scope float_scope.
#[local] Set Warnings "-inexact-float".

(** What one call of [considerReinvestment] decides. *)
Inductive Reinvestment : Type := Spawns | Upgrades | Nothing.

Definition reinvestment (rm : RevenueManager.t) : Reinvestment :=
  if available (earnings rm) <? reinvestmentThreshold rm then Nothing
  else if (spawnCost <=? available (earnings rm))
          && bool_decide (size (subAgents rm) < 5)%nat then Spawns
  else if (upgradeCost <=? available (earnings rm)) && shouldUpgrade rm then Upgrades
  else Nothing.

(** The entries of the ledger: a payment recorded, a cost debited. *)
Inductive Entry : Type :=
| Paid (serviceId : string) (amount : float)
| Debited (cost : float).

Definition entriesOfCheck (rm : RevenueManager.t) : list Entry :=
  match reinvestment rm with
  | Spawns => [Debited spawnCost]
  | Upgrades => [Debited upgradeCost]
  | Nothing => []
  end.

Definition entriesOfCall (rm : RevenueManager.t) (c : Call) : list Entry :=
  match c with
  | CallRecordPayment env serviceId amount =>
      let rm1 := withEarnings (credit serviceId amount) rm in
      Paid serviceId amount
      :: (if reinvestmentThreshold rm1 <=? available (earnings rm1)
          then entriesOfCheck rm1 else [])
  | CallConsiderReinvestment env => entriesOfCheck rm
  end.

(** The entries made by a sequence of calls, in the order in which they
    are made. *)
Fixpoint entriesOf (calls : list Call) (rm : RevenueManager.t) : list Entry :=
  match calls with
  | [] => []
  | c :: rest => entriesOfCall rm c ++ entriesOf rest (step rm c)
  end.

(** What an entry does to the ledger. *)
Definition post (e : AgentEarnings.t) (entry : Entry) : AgentEarnings.t :=
  match entry with
  | Paid serviceId amount => credit serviceId amount e
  | Debited cost => debit cost e
  end.

Definition amountsOf (entries : list Entry) : list float :=
  omap (λ entry, match entry with Paid _ amount => Some amount | Debited _ => None end)
       entries.

Definition costsOf (entries : list Entry) : list float :=
  omap (λ entry, match entry with Paid _ _ => None | Debited cost => Some cost end)
       entries.

Definition paidTo (serviceId : string) (entries : list Entry) : list float :=
  omap (λ entry,
          match entry with
          | Paid s amount => if decide (s = serviceId) then Some amount else None
          | Debited _ => None
          end)
       entries.

(** ** Exact values *)

(** The rational number a binary64 value stands for; [None] for the
    infinities and [NaN]. *)
Definition valueOf (x : float) : option Qc :=
  match FloatOps.Prim2SF x with
  | SpecFloat.S754_zero _ => Some 0%Qc
  | SpecFloat.S754_finite s m e =>
      Some (Q2Qc ((if s then - inject_Z (Z.pos m) else inject_Z (Z.pos m))
                  * Qpower (2 # 1) e)%Q)
  | _ => None
  end.

(** The sum [a + x] (the difference [a - x]) is computed without
    rounding. *)
Definition exactSum (a x : float) : Prop :=
  ∃ va vx, valueOf a = Some va ∧ valueOf x = Some vx
           ∧ valueOf (a + x) = Some (va + vx)%Qc.

Definition exactDifference (a x : float) : Prop :=
  ∃ va vx, valueOf a = Some va ∧ valueOf x = Some vx
           ∧ valueOf (a - x) = Some (va - vx)%Qc.

(** The number [(byService[serviceId] || 0)] that a payment is added
    to, for a key that holds a number or nothing. *)
Definition numberAt (o : gmap string JSObject.Value) (serviceId : string) : float :=
  match o !! serviceId with
  | Some (JSObject.Number x) => Num.or_zero x
  | _ => 0
  end.

(** An entry is posted without rounding, under a key that is not a
    property name of [Object.prototype]. *)
Definition exactEntry (e : AgentEarnings.t) (entry : Entry) : Prop :=
  match entry with
  | Paid serviceId amount =>
      (serviceId ∉ JSObject.objectPrototype)
      ∧ exactSum (total e) amount
      ∧ exactSum (numberAt (byService e) serviceId) amount
      ∧ exactSum (available e) amount
  | Debited cost =>
      exactDifference (available e) cost ∧ exactSum (reinvested e) cost
  end.

Fixpoint noRounding (entries : list Entry) (e : AgentEarnings.t) : Prop :=
  match entries with
  | [] => True
  | entry :: rest => exactEntry e entry ∧ noRounding rest (post e entry)
  end.

(** The values of the numbers an object holds. *)
Definition valuesOf (o : gmap string JSObject.Value) : gmap string Qc :=
  omap (λ v, match v with JSObject.Number x => valueOf x | JSObject.NotNumber => None end) o.

Definition allNumbers (o : gmap string JSObject.Value) : Prop :=
  ∀ key v, o !! key = Some v → ∃ x q, v = JSObject.Number x ∧ valueOf x = Some q.

(** The two equalities of the ledger, read on the exact values. *)
Definition balanced (e : AgentEarnings.t) : Prop :=
  allNumbers (byService e)
  ∧ ∃ t r a : Qc,
      valueOf (total e) = Some t ∧ valueOf (reinvested e) = Some r
      ∧ valueOf (available e) = Some a
      ∧ t = RevenueManager.sumByService (valuesOf (byService e))
      ∧ a = (t - r)%Qc.

(** *** Two checks in a row *)

(** What the branch taken debits. *)
Definition costOf (r : Reinvestment) : float :=
  match r with
  | Spawns => spawnCost
  | Upgrades => upgradeCost
  | Nothing => 0
  end.

(** *** The arbitrage finder *)

(** The entry pushed for the pair of venues [dexA], [dexB] quoting
    [priceA], [priceB]. *)
Definition opportunityOf (token dexA dexB : string) (priceA priceB : float)
  : ArbitrageOpportunity.t :=
  {| ArbitrageOpportunity.token := token;
     ArbitrageOpportunity.dexA := dexA;
     ArbitrageOpportunity.dexB := dexB;
     ArbitrageOpportunity.priceDiff := abs (priceA - priceB);
     ArbitrageOpportunity.profitEstimate := abs (priceA - priceB) * 0.997;
     ArbitrageOpportunity.risk :=
       AIEngine.assessArbitrageRisk token dexA dexB (abs (priceA - priceB)) |}.

(** The percentage of the claim, on exact values:
    [100·|a − b| / ((a + b)/2)]. *)
Definition exactPercent (a b : Qc) : Qc :=
  (Q2Qc 100 * Num.abs (a - b) / ((a + b) / Q2Qc 2))%Qc.

(** The same percentage for two binary64 prices, on the rationals they
    stand for. *)
Definition exactPercentOf (a b : float) : option Qc :=
  match valueOf a, valueOf b with
  | Some va, Some vb => Some (exactPercent va vb)
  | _, _ => None
  end.

End Vocabulary64.

(** * Sample inputs of the binary64 statements *)

Module Samples64.

Import PrimFloat.
Import Binary64 Binary64.AgentEarnings Binary64.RevenueManager.
#[local] Open Scope float_scope.
#[local] Set Warnings "-inexact-float".

(** The outside world of one spawn, for a given identifier. *)
Definition spawn (id : string) : SpawnEnv :=
  {| subAgentId := id; newWalletAddress := "wallet"; newFundingTxHash := "tx"; now := 0 |}.

Definition pay (serviceId : string) (amount : float) : Call :=
  CallRecordPayment (spawn "sub_0") serviceId amount.

(** The default prices paid once, twice to the trading strategy. *)
Definition threePayments : list Call :=
  [ pay "market-analysis" 0.01; pay "trading-strategy" 0.05;
    pay "trading-strategy" 0.05 ].

(** A payment of 3 and two further checks: three sub-agents. *)
Definition threeSpawns : list Call :=
  [ pay "market-analysis" 3;
    CallConsiderReinvestment (spawn "sub_1");
    CallConsiderReinvestment (spawn "sub_2") ].

(** Two payments that are added without rounding, the first of them
    followed by a spawn (threshold 0.5). *)
Definition exactPayments : list Call :=
  [ pay "market-analysis" 0.5; pay "trading-strategy" 0.25 ].

(** A state reached by one payment of 2: one sub-agent, 1.7 available. *)
Definition afterPaymentOfTwo : RevenueManager.t :=
  recordPayment (spawn "sub_1") "market-analysis" 2 (init defaultThreshold).

(** A state reached by one payment of 3: one sub-agent, 2.7 available. *)
Definition afterPaymentOfThree : RevenueManager.t :=
  recordPayment (spawn "sub_0") "market-analysis" 3 (init defaultThreshold).

(** A ledger holding 0.8099999999999999 under a threshold of 0.51. *)
Definition nearThreshold : RevenueManager.t :=
  withEarnings (credit "market-analysis" 0.8099999999999999) (init 0.51).

(** An oracle that answers the same three prices whatever the token. *)
Definition quotes (jupiter raydium orca : float) : TradingStrategyService.Oracle :=
  λ _ _ dex,
    if decide (dex = "jupiter") then jupiter
    else if decide (dex = "raydium") then raydium
    else if decide (dex = "orca") then orca
    else 0.

End Samples64.

(** * Properties *)

(** ** Arithmetic on [Qc] through [Q] *)

Section QcArith.

Lemma Qc_eq_Qeq (x y : Qc) : x = y ↔ (this x == this y)%Q.
Proof. split; [intros ->; reflexivity | apply Qc_is_canon]. Qed.

Lemma Qc_neq_Qeq (x y : Qc) : x ≠ y ↔ ¬ (this x == this y)%Q.
Proof. by rewrite Qc_eq_Qeq. Qed.

Lemma this_plus (x y : Qc) : (this (x + y) == this x + this y)%Q.
Proof. apply Qred_correct. Qed.

Lemma this_mult (x y : Qc) : (this (x * y) == this x * this y)%Q.
Proof. apply Qred_correct. Qed.

Lemma this_opp (x : Qc) : (this (- x) == - this x)%Q.
Proof. apply Qred_correct. Qed.

Lemma this_num (x : Q) : (this (num x) == x)%Q.
Proof. apply Qred_correct. Qed.

Lemma this_div_num (x : Qc) (c : Q) : (this (x / num c) == this x * / c)%Q.
Proof.
  unfold Qcdiv, Qcinv. rewrite this_mult. simpl this.
  by rewrite !Qred_correct.
Qed.

End QcArith.

(** Linear goals over [Qc]: move to [Q] and call [lra].  A division is
    handled when the divisor is a literal. *)
Ltac qc_inv_literals :=
  repeat match goal with
  | |- context [Qinv (Qmake ?n ?d)] =>
      let v := eval vm_compute in (Qinv (Qmake n d)) in
      progress change (Qinv (Qmake n d)) with v
  | H : context [Qinv (Qmake ?n ?d)] |- _ =>
      let v := eval vm_compute in (Qinv (Qmake n d)) in
      progress change (Qinv (Qmake n d)) with v in H
  end.

Ltac qc_prep :=
  rewrite ?Qc_eq_Qeq, ?Qc_neq_Qeq in *;
  unfold Qcle, Qclt, Qcminus in *;
  repeat (rewrite ?this_div_num, ?this_plus, ?this_mult, ?this_opp, ?this_num in * );
  simpl this in *;
  rewrite ?Qred_correct in *;
  qc_inv_literals.

Ltac qc_lra := qc_prep; lra.

(** Closed comparisons and equations between rationals, by evaluation. *)
Ltac qc_compute :=
  unfold not;
  lazymatch goal with
  | |- @eq Qc _ _ => apply Qc_is_canon; vm_compute; reflexivity
  | |- @eq Qc _ _ → False =>
      let H := fresh in intros H; apply Qc_eq_Qeq in H; vm_compute in H; discriminate H
  | |- Qclt _ _ => vm_compute; reflexivity
  | |- Qcle _ _ => let H := fresh in vm_compute; intros H; discriminate H
  | |- Qclt _ _ → False => let H := fresh in intros H; vm_compute in H; discriminate H
  | |- Qcle _ _ → False => let H := fresh in intros H; vm_compute in H; by apply H
  end.

Section NumFacts.

Lemma or_zero_default (o : option Qc) : or_zero o = default 0 o.
Proof. destruct o as [v|]; simpl; [|done]. by case_decide. Qed.

Lemma abs_nonneg (x : Qc) : 0 <= abs x.
Proof. unfold abs. case_decide; qc_lra. Qed.

Lemma min_le_r (x y : Qc) : min x y <= y.
Proof. unfold min. case_decide; qc_lra. Qed.

Lemma min_glb (x y z : Qc) : z <= x → z <= y → z <= min x y.
Proof. unfold min. by case_decide. Qed.

End NumFacts.

(** ** Sums over [byService] *)

Section Ledger.

Import AgentEarnings RevenueManager.

Lemma sumByService_empty : sumByService ∅ = 0.
Proof. apply map_fold_empty. Qed.

Lemma sumByService_insert_fresh (m : gmap string Qc) (k : string) (v : Qc) :
  m !! k = None → sumByService (<[k := v]> m) = v + sumByService m.
Proof.
  intros Hk. unfold sumByService.
  apply (map_fold_insert_L (λ _ v acc, v + acc)); [|done].
  intros. ring.
Qed.

(** Writing [v] under [k] replaces the old contribution of [k], read as
    0 when [k] is absent. *)
Lemma sumByService_insert (m : gmap string Qc) (k : string) (v : Qc) :
  sumByService (<[k := v]> m) = sumByService m - default 0 (m !! k) + v.
Proof.
  destruct (m !! k) as [old|] eqn:Hk; simpl.
  - rewrite <- (insert_delete_id m k old) at 2 by done.
    rewrite <- (insert_delete_eq m).
    rewrite !sumByService_insert_fresh by apply lookup_delete_eq. ring.
  - rewrite sumByService_insert_fresh by done. ring.
Qed.

Lemma sumByService_credit (e : AgentEarnings.t) (serviceId : string) (amount : Qc) :
  sumByService (byService (credit serviceId amount e))
  = sumByService (byService e) + amount.
Proof.
  simpl. rewrite sumByService_insert, or_zero_default. ring.
Qed.

End Ledger.

(** ** What [recordPayment] adds to [total] *)

Section RecordPayment.

Import AgentEarnings RevenueManager.

Lemma total_considerReinvestment (env : SpawnEnv) (rm : RevenueManager.t) :
  total (earnings (considerReinvestment env rm)) = total (earnings rm).
Proof.
  unfold considerReinvestment. case_decide; [done|].
  destruct (_ && _); [done|]. by destruct (_ && _).
Qed.

Lemma total_recordPayment (env : SpawnEnv) (serviceId : string) (amount : Qc)
    (rm : RevenueManager.t) :
  total (earnings (recordPayment env serviceId amount rm)) = total (earnings rm) + amount.
Proof.
  unfold recordPayment. cbv zeta. case_decide; [|done].
  by rewrite total_considerReinvestment.
Qed.

End RecordPayment.

(** ** The reinvestment decision *)

Section Reinvestment.

Import AgentEarnings RevenueManager.

Lemma considerReinvestment_below (env : SpawnEnv) (rm : RevenueManager.t) :
  available (earnings rm) < reinvestmentThreshold rm →
  considerReinvestment env rm = rm.
Proof. intros H. unfold considerReinvestment. by rewrite decide_True. Qed.

Lemma considerReinvestment_spawn (env : SpawnEnv) (rm : RevenueManager.t) :
  reinvestmentThreshold rm <= available (earnings rm) →
  spawnCost <= available (earnings rm) →
  (size (subAgents rm) < 5)%nat →
  considerReinvestment env rm
  = withEarnings (debit spawnCost) (spawnSubAgent env "data-collector" spawnCost rm).
Proof.
  intros Ht Hs Hn. unfold considerReinvestment.
  rewrite decide_False by qc_lra. cbv zeta.
  by rewrite (bool_decide_eq_true_2 _ Hs), (bool_decide_eq_true_2 _ Hn).
Qed.

Lemma considerReinvestment_no_spawn (env : SpawnEnv) (rm : RevenueManager.t) :
  reinvestmentThreshold rm <= available (earnings rm) →
  ¬ (spawnCost <= available (earnings rm) ∧ (size (subAgents rm) < 5)%nat) →
  considerReinvestment env rm
  = if bool_decide (upgradeCost <= available (earnings rm)) && shouldUpgrade rm
    then withEarnings (debit upgradeCost) rm else rm.
Proof.
  intros Ht Hno. unfold considerReinvestment.
  rewrite decide_False by qc_lra.
  destruct (bool_decide (spawnCost <= _) && _) eqn:E; [|done].
  apply andb_true_iff in E as [E1%bool_decide_eq_true E2%bool_decide_eq_true]. tauto.
Qed.

Lemma shouldUpgrade_spec (rm : RevenueManager.t) :
  shouldUpgrade rm = true
  ↔ (size (subAgents rm) < 2)%nat ∨ num 10 < total (earnings rm).
Proof.
  unfold shouldUpgrade. rewrite orb_true_iff, !bool_decide_eq_true. tauto.
Qed.

(** C3. [considerReinvestment] on a state with [available] below the
    threshold changes nothing.  Otherwise, if [available >= 0.3] and
    there are fewer than 5 sub-agents, one record is stored under the
    generated identifier (so the count grows by exactly one, the
    identifier being new), 0.3 moves from [available] to [reinvested] and
    nothing else changes; else if [available >= 0.5] and (fewer than 2
    sub-agents or [total > 10]), 0.5 moves from [available] to
    [reinvested] and no sub-agent is added; else nothing changes. *)
Theorem reinvestment_decision (env : SpawnEnv) (rm : RevenueManager.t) :
  let e := earnings rm in
  let n := size (subAgents rm) in
  let rm' := considerReinvestment env rm in
  let spawns := num 0.3 <= available e ∧ (n < 5)%nat in
  let upgrades := num 0.5 <= available e ∧ ((n < 2)%nat ∨ num 10 < total e) in
  (available e < reinvestmentThreshold rm → rm' = rm)
  ∧ (reinvestmentThreshold rm <= available e → spawns →
       subAgents rm'
         = <[subAgentId env := newSubAgent env "data-collector" (num 0.3)]> (subAgents rm)
       ∧ (subAgents rm !! subAgentId env = None → size (subAgents rm') = S n)
       ∧ available (earnings rm') = available e - num 0.3
       ∧ reinvested (earnings rm') = reinvested e + num 0.3
       ∧ total (earnings rm') = total e
       ∧ byService (earnings rm') = byService e
       ∧ reinvestmentThreshold rm' = reinvestmentThreshold rm)
  ∧ (reinvestmentThreshold rm <= available e → ¬ spawns → upgrades →
       subAgents rm' = subAgents rm
       ∧ available (earnings rm') = available e - num 0.5
       ∧ reinvested (earnings rm') = reinvested e + num 0.5
       ∧ total (earnings rm') = total e
       ∧ byService (earnings rm') = byService e
       ∧ reinvestmentThreshold rm' = reinvestmentThreshold rm)
  ∧ (reinvestmentThreshold rm <= available e → ¬ spawns → ¬ upgrades → rm' = rm).
Proof.
  cbv zeta. split; [apply considerReinvestment_below|]. split; [|split].
  - intros Ht [Hs Hn]. rewrite considerReinvestment_spawn by done. simpl.
    repeat split; try done.
    intros Hfresh. by apply map_size_insert_None.
  - intros Ht Hno [Hu Hsu]. rewrite considerReinvestment_no_spawn by done.
    rewrite bool_decide_eq_true_2 by done.
    apply shouldUpgrade_spec in Hsu. by rewrite Hsu.
  - intros Ht Hno Hnu. rewrite considerReinvestment_no_spawn by done.
    destruct (bool_decide (upgradeCost <= _) && _) eqn:E; [|done].
    apply andb_true_iff in E as [E1%bool_decide_eq_true E2%shouldUpgrade_spec].
    exfalso. apply Hnu. by split.
Qed.

(** The four cases of the decision at concrete ledgers. *)
Lemma reinvestment_decision_witness :
  considerReinvestment (env0 "sub_9") (ledgerWith (num 0.9) (num 0.9) 0)
    = ledgerWith (num 0.9) (num 0.9) 0
  ∧ size (subAgents (considerReinvestment (env0 "sub_9") (ledgerWith (num 2) (num 2) 1)))
    = 2%nat
  ∧ available (earnings (considerReinvestment (env0 "sub_9") (ledgerWith (num 11) (num 2) 5)))
    = num 2 - num 0.5
  ∧ considerReinvestment (env0 "sub_9") (ledgerWith (num 3) (num 2) 5)
    = ledgerWith (num 3) (num 2) 5.
Proof.
  split; [|split; [|split]].
  - pose proof (reinvestment_decision (env0 "sub_9") (ledgerWith (num 0.9) (num 0.9) 0))
      as H.
    cbv zeta in H. destruct H as (Hbelow & _). apply Hbelow. qc_compute.
  - pose proof (reinvestment_decision (env0 "sub_9") (ledgerWith (num 2) (num 2) 1)) as H.
    cbv zeta in H. destruct H as (_ & Hspawn & _).
    apply Hspawn.
    + qc_compute.
    + split; [qc_compute | vm_compute; lia].
    + by vm_compute.
  - pose proof (reinvestment_decision (env0 "sub_9") (ledgerWith (num 11) (num 2) 5)) as H.
    cbv zeta in H. destruct H as (_ & _ & Hupgrade & _).
    apply Hupgrade.
    + qc_compute.
    + intros [_ Hn]. vm_compute in Hn. lia.
    + split; [qc_compute | right; qc_compute].
  - pose proof (reinvestment_decision (env0 "sub_9") (ledgerWith (num 3) (num 2) 5)) as H.
    cbv zeta in H. destruct H as (_ & _ & _ & Hnone).
    apply Hnone.
    + qc_compute.
    + intros [_ Hn]. vm_compute in Hn. lia.
    + intros [_ [Hn | Ht]]; [vm_compute in Hn; lia | revert Ht; qc_compute].
Defined.

End Reinvestment.

(** ** The spawn cap *)

Section SpawnCap.

Import AgentEarnings RevenueManager.

Lemma size_insert_le {A : Type} (m : gmap string A) (k : string) (v : A) :
  (size (<[k := v]> m) ≤ S (size m))%nat.
Proof. rewrite map_size_insert. destruct (m !! k); simpl; lia. Qed.

Lemma cap_considerReinvestment (env : SpawnEnv) (rm : RevenueManager.t) :
  (size (subAgents rm) ≤ 5)%nat → (size (subAgents (considerReinvestment env rm)) ≤ 5)%nat.
Proof.
  intros Hcap. unfold considerReinvestment. case_decide; [done|]. cbv zeta.
  destruct (bool_decide (spawnCost <= _) && _) eqn:E.
  - apply andb_true_iff in E as [_ Hn%bool_decide_eq_true]. simpl.
    pose proof (size_insert_le (subAgents rm) (subAgentId env)
                  (newSubAgent env "data-collector" spawnCost)). lia.
  - unfold upgradeAgent.
    destruct (bool_decide (upgradeCost <= _) && shouldUpgrade rm); simpl; lia.
Qed.

Lemma cap_step (c : Call) (rm : RevenueManager.t) :
  (size (subAgents rm) ≤ 5)%nat → (size (subAgents (step rm c)) ≤ 5)%nat.
Proof.
  intros Hcap. destruct c as [env serviceId amount | env]; simpl.
  - unfold recordPayment. cbv zeta. case_decide; [|done]. by apply cap_considerReinvestment.
  - by apply cap_considerReinvestment.
Qed.

Lemma cap_run (calls : list Call) (rm : RevenueManager.t) :
  (size (subAgents rm) ≤ 5)%nat → (size (subAgents (run calls rm)) ≤ 5)%nat.
Proof.
  revert rm. induction calls as [|c calls IH]; intros rm Hcap; [done|].
  by apply IH, cap_step.
Qed.

Lemma considerReinvestment_at_cap (env : SpawnEnv) (rm : RevenueManager.t) :
  (5 ≤ size (subAgents rm))%nat →
  considerReinvestment env rm
  = if decide (reinvestmentThreshold rm <= available (earnings rm)
               ∧ upgradeCost <= available (earnings rm)
               ∧ num 10 < total (earnings rm))
    then withEarnings (debit upgradeCost) rm else rm.
Proof.
  intros Hcap. unfold considerReinvestment, shouldUpgrade, upgradeAgent. cbv zeta.
  rewrite (bool_decide_eq_false_2 (size (subAgents rm) < 5)%nat) by lia.
  rewrite (bool_decide_eq_false_2 (size (subAgents rm) < 2)%nat) by lia.
  rewrite andb_false_r, orb_false_l.
  destruct (decide (available (earnings rm) < reinvestmentThreshold rm)) as [Ht|Ht].
  - rewrite decide_False; [done|]. intros (Hge & _). clear Hcap. qc_lra.
  - destruct (decide (upgradeCost <= available (earnings rm))) as [Hu|Hu];
      destruct (decide (num 10 < total (earnings rm))) as [Hx|Hx].
    + rewrite (bool_decide_eq_true_2 _ Hu), (bool_decide_eq_true_2 _ Hx).
      rewrite decide_True; [done|]. split; [|done]. clear Hcap Hu Hx. qc_lra.
    + rewrite (bool_decide_eq_false_2 _ Hx), andb_false_r.
      rewrite decide_False; [done|tauto].
    + rewrite (bool_decide_eq_false_2 _ Hu). simpl.
      rewrite decide_False; [done|tauto].
    + rewrite (bool_decide_eq_false_2 _ Hu). simpl.
      rewrite decide_False; [done|tauto].
Qed.

(** C4. From the initial state, whatever calls are made, there are never
    more than 5 sub-agent records.  On any state holding 5 of them, a
    reinvestment check adds none: it either takes the upgrade branch
    (moving 0.5 from [available] to [reinvested]) or returns the state
    unchanged, and a payment adds none either. *)
Theorem spawn_cap :
  (∀ (threshold : Qc) (calls : list Call),
     (size (subAgents (run calls (init threshold))) ≤ 5)%nat)
  ∧ (∀ (env : SpawnEnv) (rm : RevenueManager.t),
       size (subAgents rm) = 5%nat →
       let rm' := considerReinvestment env rm in
       subAgents rm' = subAgents rm
       ∧ (rm' = rm
          ∨ (reinvestmentThreshold rm <= available (earnings rm)
             ∧ num 0.5 <= available (earnings rm)
             ∧ num 10 < total (earnings rm)
             ∧ rm' = withEarnings (debit (num 0.5)) rm)))
  ∧ (∀ (env : SpawnEnv) (serviceId : string) (amount : Qc) (rm : RevenueManager.t),
       size (subAgents rm) = 5%nat →
       subAgents (recordPayment env serviceId amount rm) = subAgents rm).
Proof.
  split; [|split].
  - intros threshold calls. apply cap_run. simpl. rewrite map_size_empty. lia.
  - intros env rm Hfive. cbv zeta.
    rewrite considerReinvestment_at_cap by lia.
    case_decide as Hc; [|by split; [|left]].
    split; [done|]. right. by destruct Hc as (? & ? & ?).
  - intros env serviceId amount rm Hfive. unfold recordPayment. cbv zeta.
    case_decide; [|done].
    rewrite considerReinvestment_at_cap by (simpl; lia).
    by case_decide.
Qed.

Lemma spawn_cap_witness :
  size (subAgents (run fiveSpawns (init defaultThreshold))) = 5%nat
  ∧ subAgents (considerReinvestment (env0 "sub_5") (run fiveSpawns (init defaultThreshold)))
    = subAgents (run fiveSpawns (init defaultThreshold))
  ∧ subAgents (recordPayment (env0 "sub_5") "market-analysis" (num 8)
                 (run fiveSpawns (init defaultThreshold)))
    = subAgents (run fiveSpawns (init defaultThreshold)).
Proof.
  assert (Hfive : size (subAgents (run fiveSpawns (init defaultThreshold))) = 5%nat)
    by (by vm_compute).
  destruct spawn_cap as (_ & Hcheck & Hpay).
  split; [exact Hfive|]. split.
  - apply (Hcheck (env0 "sub_5") _ Hfive).
  - apply (Hpay (env0 "sub_5") "market-analysis" (num 8) _ Hfive).
Defined.

End SpawnCap.

(** ** The scoring engine *)

Section Scoring.

Import TradingSignalInput AIEngine.

(** C6, as stated, fails: for a price change of 100 and every other
    factor 0, the pre-clamp score is 0.3, not 0.45. *)
Lemma double_counting_counterexample :
  let input := {| price := 1; volume24h := 0; priceChange24h := num 100;
                  liquidity := 0; sentiment := 0 |} in
  rawScore modelWeights input = num 0.3
  ∧ doubleCountedScore input = num 0.45
  ∧ rawScore modelWeights input ≠ doubleCountedScore input.
Proof. cbv zeta. split; [qc_compute|]. split; qc_compute. Qed.

(** C6, amended. The pre-clamp score applies [priceChange24h / 100] under
    the price weight 0.30 only: it is
    [0.30·priceChange24h/100 + 0.25·min(volume24h/1000000, 1)
     + 0.20·sentiment + 0.10·min(liquidity/10000000, 1)].
    The momentum weight 0.15 is never read, and raising the price change
    by [d] raises the pre-clamp score by [0.30·d/100]. *)
Theorem score_single_price_weight (input : TradingSignalInput.t) :
  rawScore modelWeights input
  = num 0.30 * (priceChange24h input / num 100)
    + num 0.25 * min (volume24h input / num 1000000) 1
    + num 0.20 * sentiment input
    + num 0.10 * min (liquidity input / num 10000000) 1
  ∧ (∀ (w : Weights) (m : Qc), rawScore (withMomentum m w) input = rawScore w input)
  ∧ (∀ d : Qc,
       rawScore modelWeights (withPriceChange (priceChange24h input + d) input)
       - rawScore modelWeights input
       = num 0.30 * (d / num 100)).
Proof.
  split; [|split].
  - unfold rawScore. simpl.
    replace (num 0.30) with (num 0.3) by qc_compute.
    replace (num 0.20) with (num 0.2) by qc_compute.
    replace (num 0.10) with (num 0.1) by qc_compute.
    ring.
  - done.
  - intros d. unfold rawScore. simpl.
    replace (num 0.30) with (num 0.3) by qc_compute.
    unfold Qcdiv. ring.
Qed.

(** C9. On the saturating input (price change 1000, volume 10,000,000,
    sentiment 1, liquidity 50,000,000, any price) the pre-clamp score is
    3.55, the score is exactly 1, the action is [buy], and the only
    signal returned is the primary one, with confidence 1. *)
Theorem scoring_saturation (p : Qc) :
  let input := {| price := p; volume24h := num 10000000; priceChange24h := num 1000;
                  liquidity := num 50000000; sentiment := 1 |} in
  rawScore modelWeights input = num 3.55
  ∧ calculateSignalScore input = 1
  ∧ determineAction (calculateSignalScore input) = buy
  ∧ ∃ primary : TradingSignal.t,
      generateTradingSignals input = [primary]
      ∧ TradingSignal.action primary = buy
      ∧ TradingSignal.confidence primary = 1
      ∧ TradingSignal.price primary = p.
Proof.
  cbv zeta.
  set (input := {| price := p; volume24h := num 10000000; priceChange24h := num 1000;
                   liquidity := num 50000000; sentiment := 1 |}).
  assert (Hscore : calculateSignalScore input = 1) by qc_compute.
  assert (Habs : abs 1 = 1) by qc_compute.
  split; [qc_compute|]. split; [exact Hscore|]. split; [by rewrite Hscore|].
  unfold generateTradingSignals. cbv zeta. rewrite Hscore, Habs.
  rewrite (bool_decide_eq_false_2 (1 < num 0.7)) by qc_compute.
  simpl. eexists. split; [reflexivity|]. by simpl.
Qed.

(** The arithmetic of [assessArbitrageRisk]. *)
Lemma assessArbitrageRisk_bounds (token dexA dexB : string) (priceDiff : Qc) :
  0 <= priceDiff →
  assessArbitrageRisk token dexA dexB priceDiff
    = num 0.3 + min (priceDiff / num 10) (num 0.4) + num 0.2
  ∧ num 0.5 <= assessArbitrageRisk token dexA dexB priceDiff
  ∧ assessArbitrageRisk token dexA dexB priceDiff <= num 0.9.
Proof.
  intros Hpos.
  assert (Hlo : 0 <= min (priceDiff / num 10) (num 0.4)).
  { apply min_glb; [qc_lra | qc_compute]. }
  pose proof (min_le_r (priceDiff / num 10) (num 0.4)) as Hhi.
  assert (Heq : assessArbitrageRisk token dexA dexB priceDiff
                = num 0.3 + min (priceDiff / num 10) (num 0.4) + num 0.2).
  { unfold assessArbitrageRisk. cbv zeta.
    revert Hlo Hhi. generalize (min (priceDiff / num 10) (num 0.4)). intros l Hlo Hhi.
    unfold min. rewrite decide_True; [done|]. qc_lra. }
  rewrite Heq. clear Heq.
  revert Hlo Hhi. generalize (min (priceDiff / num 10) (num 0.4)). intros l Hlo Hhi.
  split; [done|]. split; qc_lra.
Qed.

End Scoring.

(** ** The arbitrage evaluator *)

Section Arbitrage.

Import ArbitrageOpportunity AIEngine TradingStrategyService.

Lemma elem_of_concat {A : Type} (x : A) (ls : list (list A)) :
  x ∈ concat ls ↔ ∃ l, l ∈ ls ∧ x ∈ l.
Proof.
  rewrite list_elem_of_In, in_concat. split; intros (l & H1 & H2); exists l.
  - by rewrite !list_elem_of_In.
  - by rewrite <- !list_elem_of_In.
Qed.

(** *** The sort keeps the entries and orders them *)

Lemma elem_of_insertByProfit (x y : ArbitrageOpportunity.t) (l : list ArbitrageOpportunity.t) :
  y ∈ insertByProfit x l ↔ y = x ∨ y ∈ l.
Proof.
  induction l as [|z l IH]; simpl.
  - rewrite list_elem_of_singleton, elem_of_nil. tauto.
  - case_decide; rewrite !elem_of_cons; [rewrite IH|]; tauto.
Qed.

Lemma elem_of_sortByProfit (y : ArbitrageOpportunity.t) (l : list ArbitrageOpportunity.t) :
  y ∈ sortByProfit l ↔ y ∈ l.
Proof.
  induction l as [|x l IH]; simpl; [done|].
  rewrite elem_of_insertByProfit, elem_of_cons, IH. tauto.
Qed.

Lemma descending_insertByProfit (x : ArbitrageOpportunity.t) (l : list ArbitrageOpportunity.t) :
  descending l → descending (insertByProfit x l).
Proof.
  induction 1 as [|z l Hz Hl IH]; simpl.
  - constructor; [|constructor]. intros y Hy. by apply elem_of_nil in Hy.
  - case_decide as Hlt.
    + constructor; [|done].
      intros y [-> | Hy]%elem_of_insertByProfit; [qc_lra | by apply Hz].
    + constructor; [|by constructor].
      intros y [-> | Hy]%elem_of_cons; [qc_lra|].
      specialize (Hz y Hy). qc_lra.
Qed.

Lemma descending_sortByProfit (l : list ArbitrageOpportunity.t) :
  descending (sortByProfit l).
Proof.
  induction l as [|x l IH]; simpl; [constructor | by apply descending_insertByProfit].
Qed.

(** *** The pairs of the two nested loops *)

Lemma elem_of_pairs {A : Type} (l : list A) (x y : A) :
  (x, y) ∈ pairs l ↔ ∃ i j : nat, (i < j)%nat ∧ l !! i = Some x ∧ l !! j = Some y.
Proof.
  induction l as [|z l IH]; simpl.
  - rewrite elem_of_nil. split; [done|]. by intros (i & j & _ & Hi & _).
  - rewrite elem_of_app, list_elem_of_fmap, IH. split.
    + intros [(y' & [= -> ->] & Hy) | (i & j & Hij & Hi & Hj)].
      * apply list_elem_of_lookup in Hy as (j & Hj).
        exists 0%nat, (S j). split; [lia|]. by split.
      * exists (S i), (S j). split; [lia|]. by split.
    + intros (i & j & Hij & Hi & Hj).
      destruct j as [|j]; [lia|]. simpl in Hj.
      destruct i as [|i]; simpl in Hi.
      * left. exists y. injection Hi as ->. split; [done|].
        apply list_elem_of_lookup. by exists j.
      * right. exists i, j. split; [lia|]. by split.
Qed.

Lemma filter_pairs_with {A : Type} (P : A → Prop) `{!∀ x, Decision (P x)} (z : A) (l : list A) :
  filter (λ xy, P xy.1 ∧ P xy.2) ((λ y, (z, y)) <$> l)
  = if decide (P z) then (λ y, (z, y)) <$> filter P l else [].
Proof.
  induction l as [|w l IHl].
  - by case_decide.
  - rewrite fmap_cons, !filter_cons, IHl. simpl.
    destruct (decide (P z)) as [Hz|Hz], (decide (P w)) as [Hw|Hw].
    + by rewrite decide_True.
    + by rewrite decide_False by tauto.
    + by rewrite decide_False by tauto.
    + by rewrite decide_False by tauto.
Qed.

Lemma pairs_filter {A : Type} (P : A → Prop) `{!∀ x, Decision (P x)} (l : list A) :
  pairs (filter P l) = filter (λ xy, P xy.1 ∧ P xy.2) (pairs l).
Proof.
  induction l as [|z l IH]; [done|].
  cbn [pairs]. rewrite list.filter_app, <- IH, filter_pairs_with, filter_cons.
  by destruct (decide (P z)).
Qed.

(** *** What ends up in the result *)

Lemma elem_of_considerPair (token : string) (a b : string * Qc) (opp : ArbitrageOpportunity.t) :
  0 < a.2 → 0 < b.2 →
  opp ∈ considerPair token a b
  ↔ num 0.5 < priceDiffPercent a.2 b.2 ∧ opp = opportunityOf token a.1 b.1 a.2 b.2.
Proof.
  destruct a as [dA pA], b as [dB pB]. simpl. intros HA HB.
  unfold truthy. rewrite !bool_decide_eq_true_2 by qc_lra. simpl.
  case_decide as Hp.
  - rewrite list_elem_of_singleton. unfold opportunityOf. tauto.
  - rewrite elem_of_nil. tauto.
Qed.

Lemma elem_of_opportunitiesOfToken (quote : string → Qc) (token : string)
    (opp : ArbitrageOpportunity.t) :
  opp ∈ opportunitiesOfToken quote token
  ↔ ∃ (i j : nat) (dA dB : string),
      (i < j)%nat ∧ dexes !! i = Some dA ∧ dexes !! j = Some dB
      ∧ 0 < quote dA ∧ 0 < quote dB
      ∧ num 0.5 < priceDiffPercent (quote dA) (quote dB)
      ∧ opp = opportunityOf token dA dB (quote dA) (quote dB).
Proof.
  unfold opportunitiesOfToken, collectPrices.
  rewrite elem_of_concat. split.
  - intros (l & Hl & Hopp).
    apply list_elem_of_fmap in Hl as ([a b] & -> & Hab).
    rewrite pairs_filter in Hab.
    apply list_elem_of_filter in Hab as ([Ha Hb] & Hab). simpl in Ha, Hb, Hopp.
    apply elem_of_pairs in Hab as (i & j & Hij & Hi & Hj).
    apply list_lookup_fmap_Some in Hi as (dA & -> & Hi).
    apply list_lookup_fmap_Some in Hj as (dB & -> & Hj).
    apply elem_of_considerPair in Hopp as [Hp ->]; [|done|done].
    exists i, j, dA, dB. simpl in *. by repeat split.
  - intros (i & j & dA & dB & Hij & Hi & Hj & Ha & Hb & Hp & ->).
    exists (considerPair token (dA, quote dA) (dB, quote dB)). split.
    + apply list_elem_of_fmap. exists ((dA, quote dA), (dB, quote dB)). split; [done|].
      rewrite pairs_filter. apply list_elem_of_filter. split; [by split|].
      apply elem_of_pairs. exists i, j. split; [done|].
      rewrite !list_lookup_fmap, Hi, Hj. by split.
    + apply elem_of_considerPair; [done|done|]. by split.
Qed.

(** Characterisation of the result of [findArbitrageOpportunities]. *)
Lemma elem_of_findArbitrageOpportunities (oracle : Oracle) (tokens : list string)
    (opp : ArbitrageOpportunity.t) :
  opp ∈ findArbitrageOpportunities oracle tokens
  ↔ ∃ (k i j : nat) (tok dA dB : string),
      tokens !! k = Some tok
      ∧ (i < j)%nat ∧ dexes !! i = Some dA ∧ dexes !! j = Some dB
      ∧ 0 < oracle k tok dA ∧ 0 < oracle k tok dB
      ∧ num 0.5 < priceDiffPercent (oracle k tok dA) (oracle k tok dB)
      ∧ opp = opportunityOf tok dA dB (oracle k tok dA) (oracle k tok dB).
Proof.
  unfold findArbitrageOpportunities.
  rewrite elem_of_sortByProfit, elem_of_concat. split.
  - intros (l & Hl & Hopp).
    apply elem_of_lookup_imap in Hl as (k & tok & -> & Hk).
    apply elem_of_opportunitiesOfToken in Hopp as (i & j & dA & dB & H).
    by exists k, i, j, tok, dA, dB.
  - intros (k & i & j & tok & dA & dB & Hk & H).
    exists (opportunitiesOfToken (oracle k tok) tok). split.
    + apply elem_of_lookup_imap. by exists k, tok.
    + apply elem_of_opportunitiesOfToken. by exists i, j, dA, dB.
Qed.

(** The result is ordered by decreasing [profitEstimate]. *)
Lemma findArbitrageOpportunities_descending (oracle : Oracle) (tokens : list string) :
  descending (findArbitrageOpportunities oracle tokens).
Proof. apply descending_sortByProfit. Qed.

(** The percentage computed by the source, in the form of the claim. *)
Lemma priceDiffPercent_formula (priceA priceB : Qc) :
  priceDiffPercent priceA priceB
  = num 100 * abs (priceA - priceB) / ((priceA + priceB) / num 2).
Proof. unfold priceDiffPercent, Qcdiv. ring. Qed.

Lemma profitEstimate_findArbitrageOpportunities (oracle : Oracle) (tokens : list string)
    (opp : ArbitrageOpportunity.t) :
  opp ∈ findArbitrageOpportunities oracle tokens →
  0 <= priceDiff opp ∧ profitEstimate opp = priceDiff opp * num 0.997
  ∧ risk opp = assessArbitrageRisk (token opp) (dexA opp) (dexB opp) (priceDiff opp).
Proof.
  intros (k & i & j & tok & dA & dB & _ & _ & _ & _ & _ & _ & _ & ->)
    %elem_of_findArbitrageOpportunities.
  unfold opportunityOf. cbn [priceDiff profitEstimate risk token dexA dexB].
  split; [apply abs_nonneg | by split].
Qed.

End Arbitrage.

(** ** Re-verification before execution *)

Section Reverification.

Import ArbitrageOpportunity TradingStrategyService.

(** C8. Whatever the stored opportunity and the amount, when the
    re-fetched prices (of sum other than 0, so that the spread is
    defined) give a spread [100·|a − b| / ((a + b)/2)] strictly below
    0.3, [executeArbitrage] returns a failure carrying an error message
    and no transaction reference, and makes no call of [executeSwap]. *)
Theorem arbitrage_reverification (env : ExecEnv) (opportunity : ArbitrageOpportunity.t)
    (amount : Qc) :
  let a := currentPriceA env in
  let b := currentPriceB env in
  a + b ≠ 0 →
  num 100 * abs (a - b) / ((a + b) / num 2) < num 0.3 →
  ∃ msg : string,
    executeArbitrage env opportunity amount
    = ({| success := false; txHash1 := None; txHash2 := None;
          actualProfit := None; error := Some msg |}, [])
    ∧ (a ≠ 0 → b ≠ 0 → msg = "Arbitrage opportunity no longer viable").
Proof.
  cbv zeta. intros Hsum Hspread. unfold executeArbitrage. cbv zeta.
  destruct (bool_decide (currentPriceA env = 0) || bool_decide (currentPriceB env = 0)) eqn:Hz.
  - eexists. split; [reflexivity|]. intros Ha Hb.
    apply orb_true_iff in Hz as [Hz%bool_decide_eq_true | Hz%bool_decide_eq_true]; done.
  - rewrite bool_decide_eq_true_2; cycle 1.
    { revert Hsum. generalize (currentPriceA env + currentPriceB env). intros s Hs.
      clear Hspread Hz. qc_lra. }
    rewrite bool_decide_eq_true_2; cycle 1.
    { rewrite <- priceDiffPercent_formula in Hspread. exact Hspread. }
    simpl. eexists. split; [reflexivity | done].
Qed.

Lemma arbitrage_reverification_witness :
  ∃ msg : string,
    executeArbitrage spreadFallen
      (opportunityOf "SOL" "jupiter" "raydium" (num 100) (num 100.6)) (num 0.5)
    = ({| success := false; txHash1 := None; txHash2 := None;
          actualProfit := None; error := Some msg |}, [])
    ∧ (num 100 ≠ 0 → num 100.2 ≠ 0 → msg = "Arbitrage opportunity no longer viable").
Proof.
  apply (arbitrage_reverification spreadFallen
           (opportunityOf "SOL" "jupiter" "raydium" (num 100) (num 100.6)) (num 0.5));
    qc_compute.
Defined.

End Reverification.

(** ** The risk of an opportunity and the autonomous cycle *)

Section Risk.

Import ArbitrageOpportunity AIEngine TradingStrategyService AutonomousAgent.

Lemma risk_findArbitrageOpportunities (oracle : Oracle) (tokens : list string)
    (opp : ArbitrageOpportunity.t) :
  opp ∈ findArbitrageOpportunities oracle tokens → num 0.5 <= risk opp.
Proof.
  intros (Hpos & _ & ->)%profitEstimate_findArbitrageOpportunities.
  by apply assessArbitrageRisk_bounds.
Qed.

Lemma worthExecuting_risky (opp : ArbitrageOpportunity.t) :
  num 0.5 <= risk opp → worthExecuting opp = false.
Proof.
  intros Hrisk. unfold worthExecuting. cbv zeta.
  rewrite (bool_decide_eq_false_2 (risk opp < num 0.5)); [apply andb_false_r|].
  revert Hrisk. generalize (risk opp). intros r Hr. qc_lra.
Qed.

Lemma arbitrageStep_idle (env : CycleEnv) (minBalance : Qc) (rm : RevenueManager.t) :
  arbitrageStep env minBalance rm = (rm, []).
Proof.
  unfold arbitrageStep. cbv zeta.
  destruct (findArbitrageOpportunities (oracle env) [SOL]) as [|best rest] eqn:Hops; [done|].
  rewrite worthExecuting_risky; [done|].
  apply (risk_findArbitrageOpportunities (oracle env) [SOL]).
  rewrite Hops. apply elem_of_cons. by left.
Qed.

(** C10. For a price difference that is not negative,
    [assessArbitrageRisk] is [0.3 + 0.2 + min(priceDiff/10, 0.4)], a value
    between 0.5 and 0.9, so that the final [min(·, 1.0)] leaves it as it is.
    Every opportunity returned by [findArbitrageOpportunities] therefore
    has [risk >= 0.5], the condition under which the autonomous cycle
    executes an opportunity is false for each of them, and a cycle never
    calls [executeArbitrage]: its arbitrage step returns the manager
    unchanged and the cycle attempts no swap. *)
Theorem risk_floor_and_ceiling :
  (∀ (token dexA dexB : string) (priceDiff : Qc),
     0 <= priceDiff →
     assessArbitrageRisk token dexA dexB priceDiff
       = num 0.3 + num 0.2 + min (priceDiff / num 10) (num 0.4)
     ∧ num 0.5 <= assessArbitrageRisk token dexA dexB priceDiff
     ∧ assessArbitrageRisk token dexA dexB priceDiff <= num 0.9)
  ∧ (∀ (oracle : Oracle) (tokens : list string) (opp : ArbitrageOpportunity.t),
       opp ∈ findArbitrageOpportunities oracle tokens →
       num 0.5 <= risk opp ∧ worthExecuting opp = false)
  ∧ (∀ (env : CycleEnv) (minBalance : Qc) (rm : RevenueManager.t),
       arbitrageStep env minBalance rm = (rm, [])
       ∧ (autonomousCycle env minBalance rm).2 = []).
Proof.
  split; [|split].
  - intros token dexA dexB priceDiff Hpos.
    destruct (assessArbitrageRisk_bounds token dexA dexB priceDiff Hpos) as (-> & Hlo & Hhi).
    split; [ring|]. by split.
  - intros oracle tokens opp Hin.
    pose proof (risk_findArbitrageOpportunities oracle tokens opp Hin) as Hrisk.
    split; [done | by apply worthExecuting_risky].
  - intros env minBalance rm. split; [apply arbitrageStep_idle|].
    unfold autonomousCycle. by rewrite arbitrageStep_idle.
Qed.

(** A price difference of 0.6, and the opportunity found for the prices
    100 and 100.6. *)
Lemma risk_floor_and_ceiling_witness :
  (num 0.5 <= assessArbitrageRisk "SOL" "jupiter" "raydium" (num 0.6)
   ∧ assessArbitrageRisk "SOL" "jupiter" "raydium" (num 0.6) <= num 0.9)
  ∧ worthExecuting (opportunityOf "SOL" "jupiter" "raydium" (num 100) (num 100.6)) = false.
Proof.
  destruct risk_floor_and_ceiling as (Hbounds & Hfound & _).
  split.
  - apply (Hbounds "SOL" "jupiter" "raydium" (num 0.6)). qc_compute.
  - apply (Hfound (quotes (num 100) (num 100.6) 0) ["SOL"]).
    apply elem_of_findArbitrageOpportunities.
    exists 0%nat, 0%nat, 1%nat, "SOL", "jupiter", "raydium".
    split; [done|]. split; [lia|]. split; [done|]. split; [done|].
    split; [qc_compute|]. split; [qc_compute|]. split; [qc_compute | done].
Defined.

End Risk.

(** ** The model on concrete inputs *)

Section Evaluation.

Import ArbitrageOpportunity AIEngine TradingStrategyService.

(** No movement at all: score 0, [hold], confidence 0, one signal. *)
Example signals_at_rest :
  let input := {| TradingSignalInput.price := num 20; TradingSignalInput.volume24h := 0;
                  TradingSignalInput.priceChange24h := 0; TradingSignalInput.liquidity := 0;
                  TradingSignalInput.sentiment := 0 |} in
  calculateSignalScore input = 0
  ∧ (TradingSignal.action <$> generateTradingSignals input) = [hold]
  ∧ (this ∘ TradingSignal.confidence <$> generateTradingSignals input) = [0%Q].
Proof. cbv zeta. split; [qc_compute|]. split; by vm_compute. Qed.

(** A moderate score (0.3·0.5 + 0.25 = 0.4) adds the second, [hold]
    signal with confidence 0.5. *)
Example signals_moderate :
  let input := {| TradingSignalInput.price := num 20;
                  TradingSignalInput.volume24h := num 2000000;
                  TradingSignalInput.priceChange24h := num 50;
                  TradingSignalInput.liquidity := 0;
                  TradingSignalInput.sentiment := 0 |} in
  calculateSignalScore input = num 0.4
  ∧ (TradingSignal.action <$> generateTradingSignals input) = [buy; hold]
  ∧ (this ∘ TradingSignal.confidence <$> generateTradingSignals input) = [Qred 0.4; Qred 0.5].
Proof. cbv zeta. split; [qc_compute|]. split; by vm_compute. Qed.

(** Three venues at 100, 101 and 102: three entries, the widest pair
    first, the two pairs of equal profit in the order of the loops. *)
Example three_venues :
  ((λ o, (dexA o, dexB o, this (priceDiff o)))
     <$> findArbitrageOpportunities (quotes (num 100) (num 101) (num 102)) ["SOL"])
  = [("jupiter", "orca", 2%Q); ("jupiter", "raydium", 1%Q); ("raydium", "orca", 1%Q)].
Proof. by vm_compute. Qed.

(** A venue without a price takes no part. *)
Example two_venues :
  ((λ o, (dexA o, dexB o))
     <$> findArbitrageOpportunities (quotes (num 100) 0 (num 102)) ["SOL"; "USDC"])
  = [("jupiter", "orca"); ("jupiter", "orca")].
Proof. by vm_compute. Qed.

(** Live prices 100 and 102 in simulated mode: both swaps are made, buy
    on the cheaper venue first. *)
Example execution_simulated :
  let env := {| currentPriceA := num 100; currentPriceB := num 102;
                PAYMENT_MODE := None; swapSuffix1 := "1_a"; swapSuffix2 := "2_b" |} in
  let run := executeArbitrage env
               (opportunityOf "SOL" "jupiter" "raydium" (num 100) (num 102)) (num 0.5) in
  success run.1 = true
  ∧ txHash1 run.1 = Some "swap_jupiter_1_a"
  ∧ txHash2 run.1 = Some "swap_raydium_2_b"
  ∧ ((λ r, (dex r, direction r)) <$> run.2) = [("jupiter", dirBuy); ("raydium", dirSell)].
Proof. cbv zeta. repeat split; by vm_compute. Qed.

(** The same in on-chain mode: the first swap returns [null]. *)
Example execution_onchain :
  let env := {| currentPriceA := num 100; currentPriceB := num 102;
                PAYMENT_MODE := Some "onchain"; swapSuffix1 := "1_a"; swapSuffix2 := "2_b" |} in
  let run := executeArbitrage env
               (opportunityOf "SOL" "jupiter" "raydium" (num 100) (num 102)) (num 0.5) in
  success run.1 = false
  ∧ error run.1 = Some "First swap failed"
  ∧ length run.2 = 1%nat.
Proof. cbv zeta. repeat split; by vm_compute. Qed.

End Evaluation.

(** * Properties of the binary64 embedding *)

(** ** Binary64 numbers *)

Section FloatFacts.

Import PrimFloat.
Import Binary64 Vocabulary64.
#[local] Open Scope float_scope.

(** Adding [+0] changes nothing, except that [-0] becomes [+0]. *)
Lemma add_zero_r (x : float) : x ≠ neg_zero → x + 0 = x.
Proof.
  intros Hx. apply FloatAxioms.Prim2SF_inj. rewrite FloatAxioms.add_spec.
  change (FloatOps.Prim2SF 0) with (SpecFloat.S754_zero false).
  destruct (FloatOps.Prim2SF x) as [s|s| |s m e] eqn:E; try reflexivity.
  destruct s; [|reflexivity].
  exfalso. apply Hx. apply FloatAxioms.Prim2SF_inj. rewrite E. reflexivity.
Qed.

Lemma SFeqb_refl (f : SpecFloat.spec_float) :
  f ≠ SpecFloat.S754_nan → SpecFloat.SFeqb f f = true.
Proof.
  unfold SpecFloat.SFeqb. destruct f as [s|s| |s m e]; cbn; try done.
  - by destruct s.
  - intros _. rewrite Z.compare_refl.
    assert (Hm : PosDef.Pos.compare_cont Eq m m = Eq) by apply Pos.compare_refl.
    rewrite Hm. by destruct s.
Qed.

Lemma valueOf_not_nan (x : float) (q : Qc) : valueOf x = Some q → is_nan x = false.
Proof.
  unfold valueOf, is_nan. rewrite FloatAxioms.eqb_spec.
  destruct (FloatOps.Prim2SF x) eqn:E; try done; intros _; by rewrite SFeqb_refl.
Qed.

Lemma eqb_zero_value (x : float) : (x =? 0) = true → valueOf x = Some 0%Qc.
Proof.
  unfold valueOf. rewrite FloatAxioms.eqb_spec.
  change (FloatOps.Prim2SF 0) with (SpecFloat.S754_zero false).
  destruct (FloatOps.Prim2SF x) as [s|s| |s m e]; try done.
  - unfold SpecFloat.SFeqb. cbn. by destruct s.
  - unfold SpecFloat.SFeqb. cbn. by destruct s.
Qed.

Lemma valueOf_zero : valueOf 0 = Some 0%Qc.
Proof. reflexivity. Qed.

(** [x || 0] has the value of [x] when [x] has one. *)
Lemma valueOf_or_zero (x : float) (q : Qc) :
  valueOf x = Some q → valueOf (Num.or_zero x) = Some q.
Proof.
  intros Hq. unfold Num.or_zero, Num.truthy.
  rewrite (valueOf_not_nan x q Hq), orb_false_r.
  destruct (x =? 0) eqn:Hz; cbn [negb]; [|done].
  rewrite (eqb_zero_value x Hz) in Hq. by rewrite <- Hq.
Qed.

End FloatFacts.

(** ** The ledger as the replay of its entries *)

Section Binary64Ledger.

Import PrimFloat.
Import Binary64 Binary64.AgentEarnings Binary64.RevenueManager Vocabulary64 Samples64.
#[local] Open Scope float_scope.
#[local] Set Warnings "-inexact-float".

Lemma considerReinvestment_reinvestment (env : SpawnEnv) (rm : RevenueManager.t) :
  considerReinvestment env rm
  = match reinvestment rm with
    | Spawns =>
        withEarnings (debit spawnCost) (spawnSubAgent env "data-collector" spawnCost rm)
    | Upgrades => withEarnings (debit upgradeCost) rm
    | Nothing => rm
    end.
Proof.
  unfold considerReinvestment, reinvestment. cbv zeta.
  destruct (available (earnings rm) <? reinvestmentThreshold rm); [done|].
  destruct (_ && _); [done|]. by destruct (_ && _).
Qed.

Lemma earnings_considerReinvestment (env : SpawnEnv) (rm : RevenueManager.t) :
  earnings (considerReinvestment env rm) = foldl post (earnings rm) (entriesOfCheck rm).
Proof.
  rewrite considerReinvestment_reinvestment. unfold entriesOfCheck.
  by destruct (reinvestment rm).
Qed.

Lemma earnings_step (rm : RevenueManager.t) (c : Call) :
  earnings (step rm c) = foldl post (earnings rm) (entriesOfCall rm c).
Proof.
  destruct c as [env serviceId amount | env]; cbn [step entriesOfCall].
  - unfold recordPayment. cbv zeta.
    destruct (_ <=? _); [|done].
    by rewrite earnings_considerReinvestment.
  - apply earnings_considerReinvestment.
Qed.

Lemma earnings_run (calls : list Call) (rm : RevenueManager.t) :
  earnings (run calls rm) = foldl post (earnings rm) (entriesOf calls rm).
Proof.
  revert rm. induction calls as [|c calls IH]; intros rm; [done|].
  cbn [run foldl entriesOf]. rewrite foldl_app, <- earnings_step. apply IH.
Qed.

Lemma total_replay (entries : list Entry) (e : AgentEarnings.t) :
  total (foldl post e entries) = foldl add (total e) (amountsOf entries).
Proof.
  revert e. induction entries as [|[serviceId amount | cost] entries IH]; intros e;
    [done| |]; cbn [foldl amountsOf omap list_omap]; rewrite IH; done.
Qed.

Lemma reinvested_replay (entries : list Entry) (e : AgentEarnings.t) :
  reinvested (foldl post e entries) = foldl add (reinvested e) (costsOf entries).
Proof.
  revert e. induction entries as [|[serviceId amount | cost] entries IH]; intros e;
    [done| |]; cbn [foldl costsOf omap list_omap]; rewrite IH; done.
Qed.

(** As long as nothing is debited, [available] and [total] go through
    the same additions. *)
Lemma available_replay (entries : list Entry) (e : AgentEarnings.t) :
  costsOf entries = [] →
  available (foldl post e entries) = foldl add (available e) (amountsOf entries).
Proof.
  revert e. induction entries as [|[serviceId amount | cost] entries IH]; intros e;
    [done| |]; cbn [foldl costsOf amountsOf omap list_omap]; [|done].
  intros Hnone. by rewrite IH.
Qed.

(** A key that is no property name of [Object.prototype] holds what the
    payments recorded for it add up to. *)
Lemma byService_replay (serviceId : string) (entries : list Entry) (e : AgentEarnings.t) :
  serviceId ∉ JSObject.objectPrototype →
  byService (foldl post e entries) !! serviceId
  = foldl (λ v amount, Some (JSObject.orZeroPlus v amount)) (byService e !! serviceId)
          (paidTo serviceId entries).
Proof.
  intros Hkey. revert e.
  induction entries as [|[s amount | cost] entries IH]; intros e; [done| |].
  - cbn [foldl post paidTo omap list_omap]. rewrite IH.
    cbn [credit byService]. unfold JSObject.set.
    destruct (decide (s = serviceId)) as [-> | Hne].
    + cbn [foldl].
      rewrite decide_False
        by (intros ->; apply Hkey; apply (bool_decide_unpack _); by vm_compute).
      rewrite lookup_insert_eq. unfold JSObject.get.
      destruct (byService e !! serviceId); [done|].
      by rewrite bool_decide_eq_false_2.
    + destruct (decide (s = "__proto__")); [done|].
      by rewrite lookup_insert_ne.
  - cbn [foldl post paidTo omap list_omap]. by rewrite IH.
Qed.

(** Nothing is ever stored under [__proto__]. *)
Lemma proto_replay (entries : list Entry) (e : AgentEarnings.t) :
  byService (foldl post e entries) !! "__proto__" = byService e !! "__proto__".
Proof.
  revert e. induction entries as [|[s amount | cost] entries IH]; intros e; [done| |].
  - cbn [foldl post]. rewrite IH. cbn [credit byService]. unfold JSObject.set.
    destruct (decide (s = "__proto__")); [done|]. by rewrite lookup_insert_ne.
  - cbn [foldl post]. by rewrite IH.
Qed.

(** *** Without rounding, the two equalities hold *)

Lemma valueOf_numberAt (o : gmap string JSObject.Value) (serviceId : string) :
  allNumbers o →
  valueOf (numberAt o serviceId) = Some (default 0%Qc (valuesOf o !! serviceId)).
Proof.
  intros Hall. unfold numberAt, valuesOf. rewrite lookup_omap.
  destruct (o !! serviceId) as [v|] eqn:Hv; [|done].
  destruct (Hall _ _ Hv) as (x & q & -> & Hq). cbn. rewrite Hq. cbn.
  by apply valueOf_or_zero.
Qed.

Lemma credit_ordinary (serviceId : string) (amount : float) (e : AgentEarnings.t) :
  serviceId ∉ JSObject.objectPrototype →
  allNumbers (byService e) →
  byService (credit serviceId amount e)
  = <[serviceId := JSObject.Number (numberAt (byService e) serviceId + amount)]>
      (byService e).
Proof.
  intros Hkey Hall. cbn [credit byService]. unfold JSObject.set, JSObject.get, numberAt.
  rewrite decide_False
    by (intros ->; apply Hkey; apply (bool_decide_unpack _); by vm_compute).
  rewrite bool_decide_eq_false_2 by done.
  destruct (byService e !! serviceId) as [v|] eqn:Hv; [|done].
  by destruct (Hall _ _ Hv) as (x & q & -> & Hq).
Qed.

Lemma balanced_post (e : AgentEarnings.t) (entry : Entry) :
  exactEntry e entry → balanced e → balanced (post e entry).
Proof.
  intros Hexact (Hall & t & r & a & Ht & Hr & Ha & Hsum & Hav).
  destruct entry as [serviceId amount | cost]; cbn [exactEntry post] in *.
  - destruct Hexact as (Hkey & (vt & vx & Ht' & Hx & Htx) & (vb & vx' & Hb & Hx' & Hbx)
                        & (va & vx'' & Ha' & Hx'' & Hax)).
    rewrite Hx in Hx', Hx''. injection Hx' as <-. injection Hx'' as <-.
    rewrite Ht in Ht'. injection Ht' as <-. rewrite Ha in Ha'. injection Ha' as <-.
    rewrite (valueOf_numberAt _ _ Hall) in Hb. injection Hb as <-.
    split.
    + rewrite (credit_ordinary _ _ _ Hkey Hall). intros key v.
      destruct (decide (key = serviceId)) as [-> | Hne].
      * rewrite lookup_insert_eq. intros [= <-]. by eexists _, _.
      * rewrite lookup_insert_ne by done. apply Hall.
    + exists (t + vx)%Qc, r, (a + vx)%Qc. cbn [credit total reinvested available].
      split; [done|]. split; [done|]. split; [done|].
      rewrite (credit_ordinary _ _ _ Hkey Hall). split; [|rewrite Hav; ring].
      unfold valuesOf at 1.
      rewrite (omap_insert_Some _ _ _ _ (default 0%Qc (valuesOf (byService e) !! serviceId)
                                         + vx)%Qc) by done.
      fold (valuesOf (byService e)).
      rewrite sumByService_insert, Hsum. ring.
  - destruct Hexact as ((va & vc & Ha' & Hc & Hac) & (vr & vc' & Hr' & Hc' & Hrc)).
    rewrite Hc in Hc'. injection Hc' as <-.
    rewrite Ha in Ha'. injection Ha' as <-. rewrite Hr in Hr'. injection Hr' as <-.
    split; [done|].
    exists t, (r + vc)%Qc, (a - vc)%Qc. cbn [debit total reinvested available byService].
    split; [done|]. split; [done|]. split; [done|]. split; [done|].
    rewrite Hav. ring.
Qed.

Lemma balanced_replay (entries : list Entry) (e : AgentEarnings.t) :
  noRounding entries e → balanced e → balanced (foldl post e entries).
Proof.
  revert e. induction entries as [|entry entries IH]; intros e; [done|].
  cbn [noRounding foldl]. intros [Hentry Hrest] Hb.
  apply IH; [done|]. by apply balanced_post.
Qed.

Lemma balanced_init (threshold : float) : balanced (earnings (init threshold)).
Proof.
  split; [by intros key v; cbn; rewrite lookup_empty|].
  exists 0%Qc, 0%Qc, 0%Qc. cbn [init earnings total reinvested available byService].
  split; [done|]. split; [done|]. split; [done|].
  split; [|ring]. unfold valuesOf. by rewrite omap_empty, sumByService_empty.
Qed.

End Binary64Ledger.

(** ** The ledger invariant (C1) *)

Section LedgerInvariant64.

Import PrimFloat.
Import Binary64 Binary64.AgentEarnings Binary64.RevenueManager Vocabulary64 Samples64.
#[local] Open Scope float_scope.
#[local] Set Warnings "-inexact-float".

(** Closed equalities between exact values are settled by computation. *)
Ltac exact_by_computation :=
  eexists _, _; split; [reflexivity|]; split; [reflexivity|];
  match goal with |- ?l = _ => let v := eval hnf in l in change l with v end;
  f_equal; apply Qc_is_canon; vm_compute; reflexivity.

Lemma available_replay_all (entries : list Entry) (e : AgentEarnings.t) :
  available (foldl post e entries)
  = foldl (λ a entry, match entry with Paid _ amount => a + amount | Debited cost => a - cost end)
          (available e) entries.
Proof.
  revert e. induction entries as [|[serviceId amount | cost] entries IH]; intros e;
    [done| |]; cbn [foldl]; rewrite IH; done.
Qed.

(** C1, as stated, fails for the program.  With the default prices
    paid once, twice to the trading strategy, [total] is
    0.11000000000000001 while the two values of [byService], 0.01 and
    0.1, add up to 0.11 in either order.  After a payment of 3 and two
    further checks [available] is 2.1000000000000005 while [total -
    reinvested] is 2.1.  And a payment of 0.5 recorded for the service
    [__proto__] raises [total] to 0.5 and leaves [byService] empty. *)
Lemma ledger_invariant_counterexample :
  let paid := earnings (run threePayments (init defaultThreshold)) in
  let spent := earnings (run threeSpawns (init defaultThreshold)) in
  let proto := earnings (run [pay "__proto__" 0.5] (init defaultThreshold)) in
  (total paid = 0.11000000000000001
   ∧ size (byService paid) = 2%nat
   ∧ byService paid !! "market-analysis" = Some (JSObject.Number 0.01)
   ∧ byService paid !! "trading-strategy" = Some (JSObject.Number 0.1)
   ∧ 0.01 + 0.1 = 0.11 ∧ 0.1 + 0.01 = 0.11
   ∧ (0.11 =? 0.11000000000000001) = false)
  ∧ (total spent = 3 ∧ reinvested spent = 0.8999999999999999
     ∧ available spent = 2.1000000000000005
     ∧ 3 - 0.8999999999999999 = 2.1
     ∧ (2.1 =? 2.1000000000000005) = false)
  ∧ (total proto = 0.5 ∧ size (byService proto) = 0%nat).
Proof.
  cbv zeta. repeat split; vm_compute; reflexivity.
Qed.

(** C1, amended.  After every sequence of calls from the initial
    ledger, the ledger is the replay of the entries made, in order: a
    payment adds its amount to [total], to [available] and to the entry
    of its service, a reinvestment moves its cost from [available] to
    [reinvested], each addition and subtraction rounded to binary64.
    So [total] is the running sum of the amounts, [reinvested] the
    running sum of the costs, the entry of a service whose name is no
    property name of [Object.prototype] the running sum of the amounts
    recorded for it, and [available] equals [total] as long as nothing
    has been debited; nothing is ever stored under [__proto__].  When
    no entry is rounded and no service is named after a property of
    [Object.prototype], [byService] holds numbers only, their exact
    values add up to the value of [total], and the value of [available]
    is that of [total] minus that of [reinvested]. *)
Theorem ledger_running_sums (threshold : float) (calls : list Call) :
  let e := earnings (run calls (init threshold)) in
  let entries := entriesOf calls (init threshold) in
  e = foldl post (earnings (init threshold)) entries
  ∧ total e = foldl add 0 (amountsOf entries)
  ∧ reinvested e = foldl add 0 (costsOf entries)
  ∧ available e
    = foldl (λ a entry,
               match entry with Paid _ amount => a + amount | Debited cost => a - cost end)
            0 entries
  ∧ (costsOf entries = [] → available e = total e)
  ∧ (∀ serviceId, serviceId ∉ JSObject.objectPrototype →
       byService e !! serviceId
       = foldl (λ v amount, Some (JSObject.orZeroPlus v amount)) None
               (paidTo serviceId entries))
  ∧ byService e !! "__proto__" = None
  ∧ (noRounding entries (earnings (init threshold)) →
     allNumbers (byService e)
     ∧ ∃ t r a : Qc,
         valueOf (total e) = Some t ∧ valueOf (reinvested e) = Some r
         ∧ valueOf (available e) = Some a
         ∧ t = RevenueManager.sumByService (valuesOf (byService e))
         ∧ a = (t - r)%Qc).
Proof.
  cbv zeta. rewrite earnings_run.
  split; [done|]. split; [apply total_replay|]. split; [apply reinvested_replay|].
  split; [apply available_replay_all|].
  split.
  { intros Hnone. by rewrite available_replay, total_replay. }
  split.
  { intros serviceId Hkey. by rewrite byService_replay. }
  split; [by rewrite proto_replay|].
  intros Hexact. by apply balanced_replay, balanced_init.
Qed.

(** Two payments added without rounding, the first followed by a
    spawn: 0.5 and 0.25 under a threshold of 0.5. *)
Lemma ledger_running_sums_witness :
  let e := earnings (run exactPayments (init 0.5)) in
  allNumbers (byService e)
  ∧ ∃ t r a : Qc,
      valueOf (total e) = Some t ∧ valueOf (reinvested e) = Some r
      ∧ valueOf (available e) = Some a
      ∧ t = RevenueManager.sumByService (valuesOf (byService e))
      ∧ a = (t - r)%Qc.
Proof.
  cbv zeta. apply (ledger_running_sums 0.5 exactPayments).
  assert (Hkey1 : "market-analysis" ∉ JSObject.objectPrototype)
    by (apply (bool_decide_unpack _); by vm_compute).
  assert (Hkey2 : "trading-strategy" ∉ JSObject.objectPrototype)
    by (apply (bool_decide_unpack _); by vm_compute).
  cbn [noRounding]. split; [|split; [|split; [|done]]].
  - split; [done|]. split; [exact_by_computation|].
    split; exact_by_computation.
  - split; exact_by_computation.
  - split; [done|]. split; [exact_by_computation|].
    split; exact_by_computation.
Defined.

End LedgerInvariant64.

(** ** recordPayment and the sign of the amount (C2) *)

Section RecordPayment64.

Import PrimFloat.
Import Binary64 Binary64.AgentEarnings Binary64.RevenueManager Vocabulary64 Samples64.
#[local] Open Scope float_scope.
#[local] Set Warnings "-inexact-float".

Lemma total_considerReinvestment64 (env : SpawnEnv) (rm : RevenueManager.t) :
  total (earnings (considerReinvestment env rm)) = total (earnings rm)
  ∧ byService (earnings (considerReinvestment env rm)) = byService (earnings rm).
Proof.
  rewrite considerReinvestment_reinvestment. by destruct (reinvestment rm).
Qed.

(** C2, as stated, fails: a payment of -1 on the initial ledger lowers
    [total] to -1 and [available] to -1, and a payment of 0 on a ledger
    holding 1.7 runs the reinvestment check, which spawns a second
    sub-agent and debits 0.3. *)
Lemma recordPayment_nonpositive_counterexample :
  let negative := recordPayment (spawn "sub_1") "market-analysis" (-1) (init defaultThreshold) in
  let zero := recordPayment (spawn "sub_2") "market-analysis" 0 afterPaymentOfTwo in
  ((-1 <=? 0) = true
   ∧ total (earnings (init defaultThreshold)) = 0
   ∧ total (earnings negative) = -1
   ∧ available (earnings negative) = -1
   ∧ byService (earnings negative) !! "market-analysis" = Some (JSObject.Number (-1)))
  ∧ ((0 <=? 0) = true
     ∧ size (subAgents afterPaymentOfTwo) = 1%nat
     ∧ size (subAgents zero) = 2%nat
     ∧ available (earnings afterPaymentOfTwo) = 1.7
     ∧ available (earnings zero) = 1.4
     ∧ reinvested (earnings afterPaymentOfTwo) = 0.3
     ∧ reinvested (earnings zero) = 0.6).
Proof.
  cbv zeta. repeat split; vm_compute; reflexivity.
Qed.

(** C2, amended.  [recordPayment] does not look at [amount] before
    recording it.  For every service and every amount, negative, zero
    or [NaN], it adds the amount to [total] and to [available], writes
    [(byService[serviceId] || 0) + amount] under the service, and then
    runs the reinvestment check exactly when the new [available] is at
    least the threshold; otherwise [reinvested] and the sub-agents stay
    as they are.  The write leaves the other keys alone; under
    [__proto__] it stores nothing.  A payment of [+0] leaves [total] and
    [available] as they are (a [-0] apart), and [reinvested] and the
    sub-agents as well when [available] is not at least the threshold;
    if it is, the check runs on the ledger with the entry written. *)
Theorem recordPayment_unguarded (env : SpawnEnv) (serviceId : string) (amount : float)
    (rm : RevenueManager.t) :
  let rm' := recordPayment env serviceId amount rm in
  let e := earnings rm in
  let written :=
    JSObject.set (byService e) serviceId
      (JSObject.orZeroPlus (JSObject.get (byService e) serviceId) amount) in
  let credited :=
    {| earnings := {| total := total e + amount; byService := written;
                      reinvested := reinvested e; available := available e + amount |};
       reinvestmentThreshold := reinvestmentThreshold rm;
       subAgents := subAgents rm |} in
  total (earnings rm') = total e + amount
  ∧ byService (earnings rm') = written
  ∧ (if reinvestmentThreshold rm <=? available e + amount
     then rm' = considerReinvestment env credited
     else rm' = credited)
  ∧ (∀ key, key ≠ serviceId → written !! key = byService e !! key)
  ∧ (serviceId = "__proto__" → written = byService e)
  ∧ (serviceId ≠ "__proto__" →
     written !! serviceId
     = Some (JSObject.orZeroPlus (JSObject.get (byService e) serviceId) amount))
  ∧ (amount = 0 → total e ≠ neg_zero → available e ≠ neg_zero →
     total (earnings rm') = total e
     ∧ (if reinvestmentThreshold rm <=? available e
        then rm' = considerReinvestment env
                     {| earnings := {| total := total e; byService := written;
                                       reinvested := reinvested e;
                                       available := available e |};
                        reinvestmentThreshold := reinvestmentThreshold rm;
                        subAgents := subAgents rm |}
        else available (earnings rm') = available e
             ∧ reinvested (earnings rm') = reinvested e
             ∧ subAgents rm' = subAgents rm)).
Proof.
  cbv zeta.
  assert (Hstep :
    recordPayment env serviceId amount rm
    = if reinvestmentThreshold rm <=? available (earnings rm) + amount
      then considerReinvestment env (withEarnings (credit serviceId amount) rm)
      else withEarnings (credit serviceId amount) rm) by done.
  split.
  { rewrite Hstep. destruct (_ <=? _); [|done].
    by destruct (total_considerReinvestment64 env (withEarnings (credit serviceId amount) rm))
      as [-> _]. }
  split.
  { rewrite Hstep. destruct (_ <=? _); [|done].
    by destruct (total_considerReinvestment64 env (withEarnings (credit serviceId amount) rm))
      as [_ ->]. }
  split; [rewrite Hstep; by destruct (_ <=? _)|].
  split.
  { intros key Hne. unfold JSObject.set. destruct (decide (serviceId = "__proto__")); [done|].
    by rewrite lookup_insert_ne. }
  split; [intros ->; unfold JSObject.set; by rewrite decide_True|].
  split.
  { intros Hne. unfold JSObject.set. rewrite decide_False by done.
    by rewrite lookup_insert_eq. }
  intros -> Ht Ha. rewrite Hstep. clear Hstep.
  rewrite (add_zero_r _ Ha). unfold withEarnings, credit.
  rewrite (add_zero_r _ Ht), (add_zero_r _ Ha). cbn [earnings reinvestmentThreshold subAgents].
  destruct (_ <=? _); [|done]. split; [|done].
  match goal with
  | |- total (earnings (considerReinvestment env ?s)) = _ =>
      by destruct (total_considerReinvestment64 env s) as [-> _]
  end.
Qed.

(** The amended statement at a payment of 0 on the initial ledger. *)
Lemma recordPayment_unguarded_witness :
  let rm' := recordPayment (spawn "sub_0") "market-analysis" 0 (init defaultThreshold) in
  total (earnings rm') = 0
  ∧ available (earnings rm') = 0
  ∧ subAgents rm' = ∅
  ∧ byService (earnings rm') !! "market-analysis" = Some (JSObject.Number 0).
Proof.
  cbv zeta.
  destruct (recordPayment_unguarded (spawn "sub_0") "market-analysis" 0
              (init defaultThreshold))
    as (_ & Hwritten & _ & _ & _ & Hkey & Hzero).
  destruct (Hzero eq_refl) as [Htotal Hrest].
  { by vm_compute. }
  { by vm_compute. }
  split; [exact Htotal|].
  change (reinvestmentThreshold (init defaultThreshold)
          <=? available (earnings (init defaultThreshold))) with false in Hrest.
  destruct Hrest as (Hav & _ & Hsub).
  split; [exact Hav|]. split; [exact Hsub|].
  rewrite Hwritten. by rewrite Hkey.
Defined.

End RecordPayment64.

(** ** Two checks in a row (C5) *)

Section TwoChecks64.

Import PrimFloat.
Import Binary64 Binary64.AgentEarnings Binary64.RevenueManager Vocabulary64 Samples64.
#[local] Open Scope float_scope.
#[local] Set Warnings "-inexact-float".


(** Holding less than the threshold plus the cost of a spawn does not
    make the second call idle either: under a threshold of 0.51, a
    ledger holding 0.8099999999999999 is below 0.51 + 0.3 = 0.81, the
    first debit leaves exactly 0.51 and the second call spawns again. *)
Example considerReinvestment_near_threshold :
  let once := considerReinvestment (spawn "sub_1") nearThreshold in
  let twice := considerReinvestment (spawn "sub_2") once in
  (available (earnings nearThreshold) <? reinvestmentThreshold nearThreshold + 0.3) = true
  ∧ reinvestment nearThreshold = Spawns ∧ reinvestment once = Spawns
  ∧ available (earnings once) = 0.51
  ∧ available (earnings twice) = 0.21000000000000002.
Proof.
  cbv zeta. repeat split; vm_compute; reflexivity.
Qed.

Lemma reinvestment_below (rm : RevenueManager.t) :
  (available (earnings rm) <? reinvestmentThreshold rm) = true → reinvestment rm = Nothing.
Proof. unfold reinvestment. by intros ->. Qed.



End TwoChecks64.

(** ** The arbitrage filter (C7) *)

Section Arbitrage64.

Import PrimFloat.
Import Binary64 Binary64.ArbitrageOpportunity Binary64.TradingStrategyService.
Import Vocabulary64 Samples64.
#[local] Open Scope float_scope.
#[local] Set Warnings "-inexact-float".

(** A price that passes [price > 0] is truthy. *)
Lemma positive_truthy (x : float) : (0 <? x) = true → Num.truthy x = true.
Proof.
  unfold Num.truthy, is_nan.
  rewrite FloatAxioms.ltb_spec, !FloatAxioms.eqb_spec.
  change (FloatOps.Prim2SF 0) with (SpecFloat.S754_zero false).
  destruct (FloatOps.Prim2SF x) as [s|s| |s m e] eqn:E; try done.
  - destruct s; [done|]. intros _. by vm_compute.
  - destruct s; [done|]. intros _.
    rewrite (SFeqb_refl (SpecFloat.S754_finite false m e)) by done.
    by vm_compute.
Qed.

Lemma elem_of_insertByProfit64 (x y : ArbitrageOpportunity.t)
    (l : list ArbitrageOpportunity.t) :
  y ∈ insertByProfit x l ↔ y = x ∨ y ∈ l.
Proof.
  induction l as [|z l IH]; simpl.
  - rewrite list_elem_of_singleton, elem_of_nil. tauto.
  - destruct (0 <? compareFn x z); rewrite !elem_of_cons; [rewrite IH|]; tauto.
Qed.

Lemma elem_of_sortByProfit64 (y : ArbitrageOpportunity.t) (l : list ArbitrageOpportunity.t) :
  y ∈ sortByProfit l ↔ y ∈ l.
Proof.
  induction l as [|x l IH]; simpl; [done|].
  rewrite elem_of_insertByProfit64, elem_of_cons, IH. tauto.
Qed.

Lemma considerPair_positive (token dA dB : string) (a b : float) :
  (0 <? a) = true → (0 <? b) = true →
  considerPair token (dA, a) (dB, b)
  = if 0.5 <? (abs (a - b) / ((a + b) / 2)) * 100
    then [opportunityOf token dA dB a b] else [].
Proof.
  intros Ha Hb. unfold considerPair.
  by rewrite (positive_truthy a Ha), (positive_truthy b Hb).
Qed.

Lemma elem_of_opportunitiesOfToken64 (quote : string → float) (token : string)
    (opp : ArbitrageOpportunity.t) :
  opp ∈ opportunitiesOfToken quote token
  ↔ ∃ (i j : nat) (dA dB : string),
      (i < j)%nat ∧ dexes !! i = Some dA ∧ dexes !! j = Some dB
      ∧ (0 <? quote dA) = true ∧ (0 <? quote dB) = true
      ∧ (0.5 <? (abs (quote dA - quote dB) / ((quote dA + quote dB) / 2)) * 100) = true
      ∧ opp = opportunityOf token dA dB (quote dA) (quote dB).
Proof.
  unfold opportunitiesOfToken, collectPrices.
  rewrite elem_of_concat. split.
  - intros (l & Hl & Hopp).
    apply list_elem_of_fmap in Hl as ([[dA a] [dB b]] & -> & Hab).
    rewrite pairs_filter in Hab.
    apply list_elem_of_filter in Hab as ([Ha Hb] & Hab). cbn [fst snd] in Ha, Hb, Hopp.
    apply elem_of_pairs in Hab as (i & j & Hij & Hi & Hj).
    apply list_lookup_fmap_Some in Hi as (dA' & [= -> ->] & Hi).
    apply list_lookup_fmap_Some in Hj as (dB' & [= -> ->] & Hj).
    rewrite considerPair_positive in Hopp by done.
    destruct (0.5 <? _) eqn:Hp; [|by apply elem_of_nil in Hopp].
    apply list_elem_of_singleton in Hopp as ->.
    exists i, j, dA', dB'. by repeat split.
  - intros (i & j & dA & dB & Hij & Hi & Hj & Ha & Hb & Hp & ->).
    exists (considerPair token (dA, quote dA) (dB, quote dB)). split.
    + apply list_elem_of_fmap. exists ((dA, quote dA), (dB, quote dB)). split; [done|].
      rewrite pairs_filter. apply list_elem_of_filter. split; [by split|].
      apply elem_of_pairs. exists i, j. split; [done|].
      rewrite !list_lookup_fmap, Hi, Hj. by split.
    + rewrite considerPair_positive, Hp by done. by apply list_elem_of_singleton.
Qed.

Lemma elem_of_findArbitrageOpportunities64 (oracle : Oracle) (tokens : list string)
    (opp : ArbitrageOpportunity.t) :
  opp ∈ findArbitrageOpportunities oracle tokens
  ↔ ∃ (k i j : nat) (tok dA dB : string),
      tokens !! k = Some tok
      ∧ (i < j)%nat ∧ dexes !! i = Some dA ∧ dexes !! j = Some dB
      ∧ (0 <? oracle k tok dA) = true ∧ (0 <? oracle k tok dB) = true
      ∧ (0.5 <? (abs (oracle k tok dA - oracle k tok dB)
                 / ((oracle k tok dA + oracle k tok dB) / 2)) * 100) = true
      ∧ opp = opportunityOf tok dA dB (oracle k tok dA) (oracle k tok dB).
Proof.
  unfold findArbitrageOpportunities.
  rewrite elem_of_sortByProfit64, elem_of_concat. split.
  - intros (l & Hl & Hopp).
    apply elem_of_lookup_imap in Hl as (k & tok & -> & Hk).
    apply elem_of_opportunitiesOfToken64 in Hopp as (i & j & dA & dB & H).
    by exists k, i, j, tok, dA, dB.
  - intros (k & i & j & tok & dA & dB & Hk & H).
    exists (opportunitiesOfToken (oracle k tok) tok). split.
    + apply elem_of_lookup_imap. by exists k, tok.
    + apply elem_of_opportunitiesOfToken64. by exists i, j, dA, dB.
Qed.

(** C7, as stated, fails in both directions, because the program
    rounds each operation.  The prices 62.09 and 62.40122807017544 are
    more than 0.5 % apart (by 1/35041165521733598 of a percent) and the
    pair is dropped: the program computes exactly 0.5.  The decimal
    prices 19.95 and 20.05 are exactly 0.5 % apart, not more, and the
    pair is kept: the program computes 0.5000000000000071. *)
Lemma arbitrage_filter_counterexample :
  (exactPercentOf 62.09 62.40122807017544
     = Some (num 0.5 + Q2Qc (1 # 35041165521733598))%Qc
   ∧ (abs (62.09 - 62.40122807017544) / ((62.09 + 62.40122807017544) / 2)) * 100 = 0.5
   ∧ findArbitrageOpportunities (quotes 62.09 62.40122807017544 0) ["SOL"] = [])
  ∧ (exactPercent (num 19.95) (num 20.05) = num 0.5
     ∧ (abs (19.95 - 20.05) / ((19.95 + 20.05) / 2)) * 100 = 0.5000000000000071
     ∧ findArbitrageOpportunities (quotes 19.95 20.05 0) ["SOL"]
       = [opportunityOf "SOL" "jupiter" "raydium" 19.95 20.05]).
Proof.
  split; [split; [|split]|split; [|split]].
  - unfold exactPercentOf.
    match goal with |- ?l = _ => let v := eval hnf in l in change l with v end.
    f_equal. apply Qc_is_canon. vm_compute. reflexivity.
  - vm_compute. reflexivity.
  - vm_compute. reflexivity.
  - apply Qc_is_canon. vm_compute. reflexivity.
  - vm_compute. reflexivity.
  - vm_compute. reflexivity.
Qed.

(** C7, amended.  For two venues whose prices pass [price > 0] the
    loop body pushes the entry of the pair exactly when the percentage
    as the program computes it, [(|priceA − priceB| / ((priceA +
    priceB) / 2)) * 100] with every operation rounded to binary64, is
    above 0.5, and pushes nothing otherwise.  The result of
    [findArbitrageOpportunities] holds exactly the entries pushed (for
    tokens listed once: the entry of a pair is in the result if and only
    if the pair passes that test), each with [profitEstimate] the
    rounded product of [|priceA − priceB|] and 0.997.  Prices 100 and
    100.3 give no entry; prices 100 and 100.6 give one, with a
    [priceDiff] of 0.5999999999999943 and a [profitEstimate] of
    0.5981999999999943. *)
Theorem arbitrage_filter_binary64 :
  (∀ (tok dA dB : string) (a b : float),
     (0 <? a) = true → (0 <? b) = true →
     considerPair tok (dA, a) (dB, b)
     = if 0.5 <? (abs (a - b) / ((a + b) / 2)) * 100
       then [opportunityOf tok dA dB a b] else [])
  ∧ (∀ (oracle : Oracle) (tokens : list string) (opp : ArbitrageOpportunity.t),
       opp ∈ findArbitrageOpportunities oracle tokens
       ↔ ∃ (k i j : nat) (tok dA dB : string),
           tokens !! k = Some tok
           ∧ (i < j)%nat ∧ dexes !! i = Some dA ∧ dexes !! j = Some dB
           ∧ (0 <? oracle k tok dA) = true ∧ (0 <? oracle k tok dB) = true
           ∧ (0.5 <? (abs (oracle k tok dA - oracle k tok dB)
                      / ((oracle k tok dA + oracle k tok dB) / 2)) * 100) = true
           ∧ opp = opportunityOf tok dA dB (oracle k tok dA) (oracle k tok dB)
           ∧ profitEstimate opp = abs (oracle k tok dA - oracle k tok dB) * 0.997)
  ∧ (∀ (oracle : Oracle) (tokens : list string) (k i j : nat) (tok dA dB : string),
       NoDup tokens →
       tokens !! k = Some tok →
       (i < j)%nat → dexes !! i = Some dA → dexes !! j = Some dB →
       (0 <? oracle k tok dA) = true → (0 <? oracle k tok dB) = true →
       (opportunityOf tok dA dB (oracle k tok dA) (oracle k tok dB)
          ∈ findArbitrageOpportunities oracle tokens
        ↔ (0.5 <? (abs (oracle k tok dA - oracle k tok dB)
                   / ((oracle k tok dA + oracle k tok dB) / 2)) * 100) = true))
  ∧ findArbitrageOpportunities (quotes 100 100.3 0) ["SOL"] = []
  ∧ findArbitrageOpportunities (quotes 100 100.6 0) ["SOL"]
    = [ {| token := "SOL"; dexA := "jupiter"; dexB := "raydium";
           priceDiff := 0.5999999999999943;
           profitEstimate := 0.5981999999999943;
           risk := AIEngine.assessArbitrageRisk "SOL" "jupiter" "raydium"
                     0.5999999999999943 |} ].
Proof.
  split; [|split; [|split; [|split]]].
  - intros tok dA dB a b Ha Hb. by apply considerPair_positive.
  - intros oracle tokens opp. rewrite elem_of_findArbitrageOpportunities64.
    split; intros (k & i & j & tok & dA & dB & Hk & Hij & Hi & Hj & Ha & Hb & Hp & H);
      exists k, i, j, tok, dA, dB.
    + subst opp. by repeat split.
    + destruct H as [-> _]. by repeat split.
  - intros oracle tokens k i j tok dA dB Hnd Hk Hij Hi Hj Ha Hb.
    rewrite elem_of_findArbitrageOpportunities64. split.
    + intros (k' & i' & j' & tok' & dA' & dB' & Hk' & _ & _ & _ & _ & _ & Hp & Heq).
      pose proof (f_equal token Heq) as Htok. change (tok = tok') in Htok.
      pose proof (f_equal dexA Heq) as HdA. change (dA = dA') in HdA.
      pose proof (f_equal dexB Heq) as HdB. change (dB = dB') in HdB.
      subst tok' dA' dB'.
      by rewrite (NoDup_lookup _ _ _ _ Hnd Hk Hk').
    + intros Hp. exists k, i, j, tok, dA, dB. by repeat split.
  - vm_compute. reflexivity.
  - vm_compute. reflexivity.
Qed.

(** The pairs 100 / 100.6 and 100 / 100.3 on the venues ["jupiter"] and
    ["raydium"]. *)
Lemma arbitrage_filter_binary64_witness :
  considerPair "SOL" ("jupiter", 100) ("raydium", 100.6)
    = [opportunityOf "SOL" "jupiter" "raydium" 100 100.6]
  ∧ considerPair "SOL" ("jupiter", 100) ("raydium", 100.3) = []
  ∧ opportunityOf "SOL" "jupiter" "raydium" 100 100.6
      ∈ findArbitrageOpportunities (quotes 100 100.6 0) ["SOL"].
Proof.
  destruct arbitrage_filter_binary64 as (Hbody & _ & Hkept & _).
  split; [|split].
  - by rewrite (Hbody "SOL" "jupiter" "raydium" 100 100.6).
  - by rewrite (Hbody "SOL" "jupiter" "raydium" 100 100.3).
  - apply (Hkept (quotes 100 100.6 0) ["SOL"] 0%nat 0%nat 1%nat
             "SOL" "jupiter" "raydium").
    + apply NoDup_singleton.
    + done.
    + lia.
    + done.
    + done.
    + done.
    + done.
    + done.
Defined.

End Arbitrage64.

(** ** What one call changes *)

Section CallEffects64.

Import PrimFloat.
Import Binary64 Binary64.AgentEarnings Binary64.RevenueManager Vocabulary64.
#[local] Open Scope float_scope.
#[local] Set Warnings "-inexact-float".

Lemma considerReinvestment_effects64 (env : SpawnEnv) (rm : RevenueManager.t) :
  let rm' := considerReinvestment env rm in
  dom (subAgents rm) ⊆ dom (subAgents rm')
  ∧ (size (subAgents rm) ≤ size (subAgents rm') ≤ S (size (subAgents rm)))%nat
  ∧ ((size (subAgents rm) ≤ 5)%nat → (size (subAgents rm') ≤ 5)%nat)
  ∧ reinvestmentThreshold rm' = reinvestmentThreshold rm
  ∧ total (earnings rm') = total (earnings rm)
  ∧ byService (earnings rm') = byService (earnings rm)
  ∧ available (earnings rm')
    = match reinvestment rm with
      | Spawns => available (earnings rm) - spawnCost
      | Upgrades => available (earnings rm) - upgradeCost
      | Nothing => available (earnings rm)
      end
  ∧ reinvested (earnings rm')
    = match reinvestment rm with
      | Spawns => reinvested (earnings rm) + spawnCost
      | Upgrades => reinvested (earnings rm) + upgradeCost
      | Nothing => reinvested (earnings rm)
      end.
Proof.
  cbv zeta. rewrite considerReinvestment_reinvestment.
  unfold reinvestment.
  destruct (available (earnings rm) <? reinvestmentThreshold rm).
  { split; [done|]. split; [lia|]. by repeat split. }
  destruct (spawnCost <=? available (earnings rm)); cbn [andb].
  - case_bool_decide as Hsize.
    + cbn [withEarnings spawnSubAgent subAgents earnings debit reinvestmentThreshold
           total byService available reinvested].
      split; [rewrite dom_insert; set_solver|].
      split.
      { rewrite map_size_insert. destruct (subAgents rm !! subAgentId env); simpl; lia. }
      split.
      { intros _. rewrite map_size_insert.
        destruct (subAgents rm !! subAgentId env); simpl; lia. }
      by repeat split.
    + destruct (_ && _); (split; [done|]); (split; [cbn; lia|]); by repeat split.
  - destruct (_ && _); (split; [done|]); (split; [cbn; lia|]); by repeat split.
Qed.

(** A call never removes a sub-agent and adds at most one, never takes
    their number above five, and never changes the threshold.  A
    reinvestment check leaves [total] and [byService] as they are and
    debits the cost of the branch it takes: 0.3 when it spawns, 0.5 when
    it upgrades, nothing otherwise.  A payment adds the amount to
    [total] and writes [(byService[serviceId] || 0) + amount] under the
    service; [available] receives the amount and [reinvested] stays,
    except for the debit of the check that the payment may run. *)
Theorem call_effects (rm : RevenueManager.t) (c : Call) :
  let rm' := step rm c in
  let a := available (earnings rm) in
  let r := reinvested (earnings rm) in
  dom (subAgents rm) ⊆ dom (subAgents rm')
  ∧ (size (subAgents rm) ≤ size (subAgents rm') ≤ S (size (subAgents rm)))%nat
  ∧ ((size (subAgents rm) ≤ 5)%nat → (size (subAgents rm') ≤ 5)%nat)
  ∧ reinvestmentThreshold rm' = reinvestmentThreshold rm
  ∧ match c with
    | CallRecordPayment _ serviceId amount =>
        total (earnings rm') = total (earnings rm) + amount
        ∧ byService (earnings rm')
          = JSObject.set (byService (earnings rm)) serviceId
              (JSObject.orZeroPlus (JSObject.get (byService (earnings rm)) serviceId)
                 amount)
        ∧ ((available (earnings rm') = a + amount ∧ reinvested (earnings rm') = r)
           ∨ (available (earnings rm') = a + amount - spawnCost
              ∧ reinvested (earnings rm') = r + spawnCost)
           ∨ (available (earnings rm') = a + amount - upgradeCost
              ∧ reinvested (earnings rm') = r + upgradeCost))
    | CallConsiderReinvestment _ =>
        total (earnings rm') = total (earnings rm)
        ∧ byService (earnings rm') = byService (earnings rm)
        ∧ available (earnings rm')
          = match reinvestment rm with
            | Spawns => a - spawnCost
            | Upgrades => a - upgradeCost
            | Nothing => a
            end
        ∧ reinvested (earnings rm')
          = match reinvestment rm with
            | Spawns => r + spawnCost
            | Upgrades => r + upgradeCost
            | Nothing => r
            end
    end.
Proof.
  cbv zeta. destruct c as [env serviceId amount | env]; cbn [step].
  - unfold recordPayment. cbv zeta.
    destruct (_ <=? _).
    + destruct (considerReinvestment_effects64 env (withEarnings (credit serviceId amount) rm))
        as (Hd & Hs & Hcap & Ht & Htot & Hby & Hav & Hre).
      cbn [withEarnings subAgents earnings credit reinvested reinvestmentThreshold
           total byService available] in *.
      do 4 (split; [done|]). split; [done|]. split; [done|].
      rewrite Hav, Hre. destruct (reinvestment _); tauto.
    + cbn [withEarnings subAgents earnings credit reinvested reinvestmentThreshold
           total byService available].
      split; [done|]. split; [lia|]. do 4 (split; [done|]). by left.
  - destruct (considerReinvestment_effects64 env rm)
      as (Hd & Hs & Hcap & Ht & Htot & Hby & Hav & Hre).
    do 6 (split; [done|]). by split.
Qed.

End CallEffects64.

(** * Further properties of the code *)

(** ** Signals of the scoring engine *)

Section Signals.

Import TradingSignalInput AIEngine.

Lemma min_mono (x y c : Qc) : x <= y → min x c <= min y c.
Proof. intros Hxy. unfold min. repeat case_decide; qc_lra. Qed.

Lemma max_mono (x y c : Qc) : x <= y → max c x <= max c y.
Proof. intros Hxy. unfold max. repeat case_decide; qc_lra. Qed.

Lemma clamp_bounds (x : Qc) : - (1) <= max (- (1)) (min 1 x) ∧ max (- (1)) (min 1 x) <= 1.
Proof. unfold max, min. repeat case_decide; split; qc_lra. Qed.

Lemma abs_le (x c : Qc) : - c <= x → x <= c → abs x <= c.
Proof. intros Hlo Hhi. unfold abs. case_decide; qc_lra. Qed.

Lemma div_num_mono (x y : Qc) (c : Q) : (0 < c)%Q → x <= y → x / num c <= y / num c.
Proof.
  intros Hc Hxy. unfold Qcle in *. rewrite !this_div_num.
  apply Qmult_le_compat_r; [done|]. apply Qlt_le_weak, Qinv_lt_0_compat, Hc.
Qed.

Lemma calculateSignalScore_bounds (input : TradingSignalInput.t) :
  - (1) <= calculateSignalScore input ∧ calculateSignalScore input <= 1.
Proof. apply clamp_bounds. Qed.

Lemma confidence_generateTradingSignals (input : TradingSignalInput.t)
    (signal : TradingSignal.t) :
  signal ∈ generateTradingSignals input →
  0 <= TradingSignal.confidence signal ∧ TradingSignal.confidence signal <= 1.
Proof.
  pose proof (calculateSignalScore_bounds input) as [Hlo Hhi].
  unfold generateTradingSignals. cbv zeta.
  assert (Habs : 0 <= abs (calculateSignalScore input)
                 ∧ abs (calculateSignalScore input) <= 1).
  { split; [apply abs_nonneg | by apply abs_le]. }
  destruct (_ && _).
  - intros [-> | [-> | []%elem_of_nil]%elem_of_cons]%elem_of_cons;
      cbn [TradingSignal.confidence]; [done|]. split; qc_compute.
  - intros [-> | []%elem_of_nil]%elem_of_cons. by cbn [TradingSignal.confidence].
Qed.

Lemma length_generateTradingSignals (input : TradingSignalInput.t) :
  (1 ≤ length (generateTradingSignals input) ≤ 2)%nat.
Proof.
  unfold generateTradingSignals. cbv zeta. destruct (_ && _); simpl; lia.
Qed.


(** One signal, or two: the second one, a [hold] of confidence 0.5 for
    the same token and price, is added exactly when the absolute score is
    strictly between 0.3 and 0.7, and then the first one is not a
    [hold]. *)
Theorem signals_shape (input : TradingSignalInput.t) :
  let score := calculateSignalScore input in
  ∃ primary : TradingSignal.t,
    TradingSignal.action primary = determineAction score
    ∧ TradingSignal.confidence primary = abs score
    ∧ TradingSignal.price primary = price input
    ∧ ((generateTradingSignals input = [primary]
        ∧ (abs score <= num 0.3 ∨ num 0.7 <= abs score))
       ∨ (∃ second : TradingSignal.t,
            generateTradingSignals input = [primary; second]
            ∧ num 0.3 < abs score ∧ abs score < num 0.7
            ∧ TradingSignal.action primary ≠ hold
            ∧ TradingSignal.action second = hold
            ∧ TradingSignal.confidence second = num 0.5
            ∧ TradingSignal.token second = TradingSignal.token primary
            ∧ TradingSignal.price second = price input)).
Proof.
  cbv zeta. unfold generateTradingSignals. cbv zeta.
  generalize (calculateSignalScore input). intros score.
  exists {| TradingSignal.action := determineAction score;
            TradingSignal.token := [NumberToString (price input)];
            TradingSignal.confidence := abs score;
            TradingSignal.price := price input;
            TradingSignal.reasoning := generateReasoning input (determineAction score) |}.
  split; [reflexivity|]. split; [reflexivity|]. split; [reflexivity|].
  destruct (bool_decide (abs score < num 0.7)) eqn:Hlt;
    destruct (bool_decide (num 0.3 < abs score)) eqn:Hgt; cbn [andb].
  - apply bool_decide_eq_true in Hlt, Hgt.
    right. eexists. split; [reflexivity|]. split; [done|]. split; [done|].
    split; [|by repeat split].
    cbn [TradingSignal.action]. unfold determineAction, abs in *.
    repeat case_decide; try done; exfalso; qc_lra.
  - apply bool_decide_eq_false in Hgt. left. split; [done|]. left. qc_lra.
  - apply bool_decide_eq_false in Hlt. left. split; [done|]. right. qc_lra.
  - apply bool_decide_eq_false in Hlt. left. split; [done|]. right. qc_lra.
Qed.

Lemma rawScore_mono (a b : TradingSignalInput.t) :
  priceChange24h a <= priceChange24h b →
  volume24h a <= volume24h b →
  sentiment a <= sentiment b →
  liquidity a <= liquidity b →
  rawScore modelWeights a <= rawScore modelWeights b.
Proof.
  intros Hc Hv Hs Hl. unfold rawScore. cbn [modelWeights w_price w_volume w_sentiment w_liquidity].
  pose proof (div_num_mono _ _ 100 eq_refl Hc) as Hc'.
  pose proof (min_mono _ _ 1 (div_num_mono _ _ 1000000 eq_refl Hv)) as Hv'.
  pose proof (min_mono _ _ 1 (div_num_mono _ _ 10000000 eq_refl Hl)) as Hl'.
  revert Hc' Hv' Hl'.
  generalize (priceChange24h a / num 100) (priceChange24h b / num 100)
             (min (volume24h a / num 1000000) 1) (min (volume24h b / num 1000000) 1)
             (min (liquidity a / num 10000000) 1) (min (liquidity b / num 10000000) 1).
  revert Hs. generalize (sentiment a) (sentiment b).
  clear. intros sa sb Hs ca cb va vb la lb Hc' Hv' Hl'. qc_lra.
Qed.

(** The score never goes down when the price change, the volume, the
    sentiment and the liquidity do not go down, and it does not depend
    on the price. *)
Theorem score_monotone (a b : TradingSignalInput.t) :
  priceChange24h a <= priceChange24h b →
  volume24h a <= volume24h b →
  sentiment a <= sentiment b →
  liquidity a <= liquidity b →
  calculateSignalScore a <= calculateSignalScore b
  ∧ (determineAction (calculateSignalScore a) = buy →
     determineAction (calculateSignalScore b) = buy)
  ∧ (determineAction (calculateSignalScore b) = sell →
     determineAction (calculateSignalScore a) = sell).
Proof.
  intros Hc Hv Hs Hl.
  assert (Hle : calculateSignalScore a <= calculateSignalScore b).
  { unfold calculateSignalScore, calculateSignalScoreWith.
    apply max_mono.
    pose proof (rawScore_mono a b Hc Hv Hs Hl) as Hraw.
    revert Hraw. generalize (rawScore modelWeights a) (rawScore modelWeights b).
    intros ra rb Hraw. unfold min. repeat case_decide; qc_lra. }
  split; [done|]. revert Hle.
  generalize (calculateSignalScore a) (calculateSignalScore b). intros sa sb Hle.
  unfold determineAction. split; repeat case_decide; try done; intros _; exfalso; qc_lra.
Qed.

Lemma score_monotone_witness :
  let a := {| price := num 20; volume24h := num 500000; priceChange24h := num 10;
              liquidity := num 1000000; sentiment := 0 |} in
  let b := {| price := num 5; volume24h := num 2000000; priceChange24h := num 60;
              liquidity := num 1000000; sentiment := num 0.5 |} in
  calculateSignalScore a <= calculateSignalScore b.
Proof.
  cbv zeta. apply score_monotone; cbn [priceChange24h volume24h sentiment liquidity];
    qc_compute.
Defined.

End Signals.

(** ** Technical indicators *)

Section Technical.

Import AIEngine.



End Technical.

(** ** Sorting *)

Section Sorting.

Import JSArray.

Context {A : Type} (key : A → Qc).

Lemma insertDesc_perm (x : A) (l : list A) : insertDesc key x l ≡ₚ x :: l.
Proof.
  induction l as [|y l IH]; simpl; [done|].
  case_decide; [|done]. rewrite IH. apply Permutation_swap.
Qed.

Lemma sortDesc_perm (l : list A) : sortDesc key l ≡ₚ l.
Proof.
  induction l as [|x l IH]; simpl; [done|].
  by rewrite insertDesc_perm, IH.
Qed.

Lemma elem_of_sortDesc (x : A) (l : list A) : x ∈ sortDesc key l ↔ x ∈ l.
Proof. by rewrite sortDesc_perm. Qed.

Lemma length_sortDesc (l : list A) : length (sortDesc key l) = length l.
Proof. by rewrite sortDesc_perm. Qed.

Lemma descendingBy_insertDesc (x : A) (l : list A) :
  descendingBy key l → descendingBy key (insertDesc key x l).
Proof.
  induction 1 as [|z l Hz Hl IH]; simpl.
  - constructor; [|constructor]. intros y Hy. by apply elem_of_nil in Hy.
  - case_decide as Hlt.
    + constructor; [|done].
      intros y Hy. rewrite insertDesc_perm in Hy.
      apply elem_of_cons in Hy as [-> | Hy]; [qc_lra | by apply Hz].
    + constructor; [|by constructor].
      intros y [-> | Hy]%elem_of_cons; [qc_lra|].
      specialize (Hz y Hy). qc_lra.
Qed.

Lemma descendingBy_sortDesc (l : list A) : descendingBy key (sortDesc key l).
Proof.
  induction l as [|x l IH]; simpl; [constructor | by apply descendingBy_insertDesc].
Qed.

(** A list that is already strictly ordered, or ordered with ties, is
    left as it is. *)
Lemma insertDesc_head (x : A) (l : list A) :
  (∀ y, y ∈ l → key y <= key x) → insertDesc key x l = x :: l.
Proof.
  destruct l as [|z l]; simpl; [done|]. intros Hle.
  rewrite decide_False; [done|].
  specialize (Hle z (list_elem_of_here _ _)). qc_lra.
Qed.

Lemma sortDesc_descending (l : list A) : descendingBy key l → sortDesc key l = l.
Proof.
  induction 1 as [|x l Hx Hl IH]; simpl; [done|].
  rewrite IH. by apply insertDesc_head.
Qed.

End Sorting.

Section SortingMaps.

Import JSArray.

Lemma insertDesc_fmap {A B : Type} (key : B → Qc) (f : A → B) (x : A) (l : list A) :
  insertDesc key (f x) (f <$> l) = f <$> insertDesc (key ∘ f) x l.
Proof.
  induction l as [|y l IH]; [done|].
  rewrite fmap_cons. cbn [insertDesc compose]. case_decide; [|done].
  by rewrite fmap_cons, IH.
Qed.

Lemma sortDesc_fmap {A B : Type} (key : B → Qc) (f : A → B) (l : list A) :
  sortDesc key (f <$> l) = f <$> sortDesc (key ∘ f) l.
Proof.
  induction l as [|x l IH]; [done|].
  rewrite fmap_cons. unfold sortDesc in *. cbn [foldr]. rewrite IH.
  apply insertDesc_fmap.
Qed.

Lemma sortDesc_ext {A : Type} (key1 key2 : A → Qc) (l : list A) :
  (∀ x, key1 x = key2 x) → sortDesc key1 l = sortDesc key2 l.
Proof.
  intros Hext. induction l as [|x l IH]; simpl; [done|]. rewrite IH.
  generalize (sortDesc key2 l). intros s.
  induction s as [|y s IHs]; simpl; [done|].
  rewrite !Hext, IHs. done.
Qed.

Lemma descendingBy_fmap {A B : Type} (key : B → Qc) (f : A → B) (l : list A) :
  descendingBy (key ∘ f) l → descendingBy key (f <$> l).
Proof.
  induction 1 as [|x l Hx Hl IH]; simpl; constructor; [|done].
  intros y (z & -> & Hz)%list_elem_of_fmap. by apply Hx.
Qed.

Lemma sortByProfit_sortDesc (l : list ArbitrageOpportunity.t) :
  TradingStrategyService.sortByProfit l = sortDesc ArbitrageOpportunity.profitEstimate l.
Proof.
  unfold TradingStrategyService.sortByProfit, sortDesc. induction l as [|x l IH]; simpl; [done|].
  rewrite IH. generalize (foldr (insertDesc ArbitrageOpportunity.profitEstimate) [] l).
  intros s. induction s as [|y s IHs]; simpl; [done|]. by rewrite IHs.
Qed.

End SortingMaps.

(** ** Ranking of yield opportunities *)

Section Ranking.

Import AIEngine JSArray.

Lemma rankYieldOpportunities_sortDesc (opportunities : list YieldFarmingOpportunity.t)
    (riskTolerance : RiskTolerance) :
  rankYieldOpportunities opportunities riskTolerance
  = sortDesc (yieldScore (riskMultiplier riskTolerance)) opportunities.
Proof.
  unfold rankYieldOpportunities. cbv zeta.
  rewrite sortDesc_fmap, <- list_fmap_compose.
  rewrite (sortDesc_ext _ (yieldScore (riskMultiplier riskTolerance))) by done.
  generalize (sortDesc (yieldScore (riskMultiplier riskTolerance)) opportunities).
  intros l. induction l as [|x l IH]; [done|].
  rewrite fmap_cons. cbn [compose fst]. by f_equal.
Qed.



End Ranking.

(** ** The list of arbitrage opportunities *)

Section ArbitrageResult.

Import ArbitrageOpportunity AIEngine TradingStrategyService.

Lemma NoDup_dexes : NoDup dexes.
Proof. apply (bool_decide_unpack _). by vm_compute. Qed.

Lemma length_pairs_le {A : Type} (l : list A) :
  (length l ≤ 3 → length (pairs l) ≤ 3)%nat.
Proof.
  destruct l as [|a [|b [|c [|d l]]]]; simpl; try lia.
Qed.

Lemma length_considerPair (token : string) (a b : string * Qc) :
  (length (considerPair token a b) ≤ 1)%nat.
Proof.
  destruct a as [dA pA], b as [dB pB]. unfold considerPair.
  destruct (_ && _); [|simpl; lia]. case_decide; simpl; lia.
Qed.

Lemma length_concat_le {A B : Type} (f : A → list B) (l : list A) (n : nat) :
  (∀ x, length (f x) ≤ n)%nat → (length (concat (f <$> l)) ≤ n * length l)%nat.
Proof.
  intros Hf. induction l as [|x l IH]; [simpl; lia|].
  rewrite fmap_cons. cbn [concat]. rewrite length_app. cbn [length].
  specialize (Hf x). lia.
Qed.

Lemma length_opportunitiesOfToken (quote : string → Qc) (token : string) :
  (length (opportunitiesOfToken quote token) ≤ 3)%nat.
Proof.
  unfold opportunitiesOfToken.
  pose proof (length_concat_le (λ ab, considerPair token ab.1 ab.2)
                (pairs (collectPrices quote)) 1) as Hlen.
  assert (length (pairs (collectPrices quote)) ≤ 3)%nat.
  { apply length_pairs_le. unfold collectPrices.
    etrans; [apply length_filter|]. by rewrite length_fmap. }
  specialize (Hlen (λ ab, length_considerPair token ab.1 ab.2)). lia.
Qed.

Lemma length_concat_imap_le {A B : Type} (f : nat → A → list B) (l : list A) (n : nat) :
  (∀ i x, length (f i x) ≤ n)%nat → (length (concat (imap f l)) ≤ n * length l)%nat.
Proof.
  revert f. induction l as [|x l IH]; intros f Hf; [simpl; lia|].
  rewrite imap_cons. cbn [concat]. rewrite length_app. cbn [length].
  specialize (IH (f ∘ S) (λ i, Hf (S i))). specialize (Hf 0%nat x). lia.
Qed.

Lemma priceDiff_positive (a b : Qc) :
  0 < a → 0 < b → num 0.5 < priceDiffPercent a b → 0 < abs (a - b).
Proof.
  intros Ha Hb Hp. pose proof (abs_nonneg (a - b)) as Hnn.
  destruct (decide (abs (a - b) = 0)) as [Hz|Hz]; [|qc_lra].
  exfalso. unfold priceDiffPercent in Hp. cbv zeta in Hp. rewrite Hz in Hp.
  revert Hp. unfold Qcdiv. rewrite !Qcmult_0_l. qc_compute.
Qed.

(** The list returned holds at most three entries per token; its first
    entry has the largest profit estimate; every entry joins two
    different venues for one of the tokens asked for, with a positive
    price difference and profit estimate; and nothing is returned when
    no token has two venues quoting a positive price. *)
Theorem arbitrage_result (oracle : Oracle) (tokens : list string) :
  let result := findArbitrageOpportunities oracle tokens in
  (length result ≤ 3 * length tokens)%nat
  ∧ (∀ best rest, result = best :: rest →
       ∀ o, o ∈ result → profitEstimate o <= profitEstimate best)
  ∧ (∀ o, o ∈ result →
       dexA o ≠ dexB o ∧ token o ∈ tokens ∧ 0 < priceDiff o ∧ 0 < profitEstimate o)
  ∧ ((∀ k tok dA dB, tokens !! k = Some tok → dA ≠ dB →
        ¬ (0 < oracle k tok dA ∧ 0 < oracle k tok dB)) →
     result = []).
Proof.
  cbv zeta.
  assert (Hentries : ∀ o, o ∈ findArbitrageOpportunities oracle tokens →
            ∃ k tok dA dB, tokens !! k = Some tok ∧ dA ≠ dB
              ∧ 0 < oracle k tok dA ∧ 0 < oracle k tok dB
              ∧ dexA o = dA ∧ dexB o = dB ∧ token o = tok
              ∧ 0 < priceDiff o ∧ 0 < profitEstimate o).
  { intros o (k & i & j & tok & dA & dB & Hk & Hij & Hi & Hj & Ha & Hb & Hp & ->)
      %elem_of_findArbitrageOpportunities.
    exists k, tok, dA, dB. split; [done|]. split.
    { intros ->. pose proof (NoDup_lookup _ _ _ _ NoDup_dexes Hi Hj). lia. }
    split; [done|]. split; [done|].
    unfold opportunityOf. cbn [dexA dexB token priceDiff profitEstimate].
    pose proof (priceDiff_positive _ _ Ha Hb Hp) as Hd.
    split; [done|]. split; [done|]. split; [done|]. split; [done|].
    revert Hd. generalize (abs (oracle k tok dA - oracle k tok dB)). intros d Hd.
    clear -Hd. qc_lra. }
  split; [|split; [|split]].
  - unfold findArbitrageOpportunities.
    rewrite sortByProfit_sortDesc, length_sortDesc.
    apply length_concat_imap_le. intros i x. apply length_opportunitiesOfToken.
  - intros best rest Hres o Ho.
    pose proof (findArbitrageOpportunities_descending oracle tokens) as Hdesc.
    rewrite Hres in Hdesc, Ho. inversion Hdesc as [|x l Hx Hl]; subst.
    apply elem_of_cons in Ho as [-> | Ho]; [qc_lra | by apply Hx].
  - intros o Ho. destruct (Hentries o Ho)
      as (k & tok & dA & dB & Hk & Hne & _ & _ & -> & -> & -> & Hd & Hp).
    split; [done|]. split; [|done]. apply list_elem_of_lookup. by exists k.
  - intros Hnone.
    destruct (findArbitrageOpportunities oracle tokens) as [|o rest] eqn:Hres; [done|].
    exfalso. destruct (Hentries o) as (k & tok & dA & dB & Hk & Hne & Ha & Hb & _).
    { apply list_elem_of_here. }
    by apply (Hnone k tok dA dB).
Qed.

Lemma arbitrage_result_witness :
  findArbitrageOpportunities (quotes (num 100) 0 0) ["SOL"; "USDC"] = [].
Proof.
  destruct (arbitrage_result (quotes (num 100) 0 0) ["SOL"; "USDC"]) as (_ & _ & _ & Hnone).
  apply Hnone. intros k tok dA dB _ Hne [Ha Hb]. unfold quotes in Ha, Hb.
  repeat case_decide; subst; try done; revert Ha Hb; try qc_compute;
    intros _; qc_compute.
Defined.

End ArbitrageResult.

(** ** Execution of an arbitrage *)

Section Execution.

Import ArbitrageOpportunity TradingStrategyService.

Lemma falsy_executeSwap (env : ExecEnv) (suffix : string) (req : SwapRequest) :
  falsy (executeSwap env suffix req) = negb (bool_decide (paymentMode env = "simulated")).
Proof.
  unfold executeSwap. case_decide as Hmode.
  - rewrite bool_decide_eq_true_2 by done. cbn [falsy negb].
    by apply bool_decide_eq_false_2.
  - by rewrite bool_decide_eq_false_2.
Qed.

Lemma if_bool_decide_lt {A : Type} (a b : Qc) (x y : A) :
  (if bool_decide (a < b) then x else y) = (if decide (a < b) then x else y).
Proof. by case_decide; [rewrite bool_decide_eq_true_2 | rewrite bool_decide_eq_false_2]. Qed.



End Execution.

(** ** Yield farming *)

Section Yield.

Import AIEngine JSArray TradingStrategyService ProtocolConfig ProtocolData.

Lemma fetchProtocolData_apy (response : option LlamaResponse) (chain : string) :
  apy (fetchProtocolData response chain) = None.
Proof. by destruct response. Qed.

Lemma yieldOpportunityOf_apy (env : YieldEnv) (amount : Qc) (config : ProtocolConfig.t) :
  YieldFarmingOpportunity.apy (yieldOpportunityOf env amount config) = defaultAPY config
  ∧ YieldFarmingOpportunity.estimatedReturn (yieldOpportunityOf env amount config)
    = amount * defaultAPY config / num 100
  ∧ YieldFarmingOpportunity.risk (yieldOpportunityOf env amount config) = risk config
  ∧ YieldFarmingOpportunity.protocol (yieldOpportunityOf env amount config) = name config
  ∧ YieldFarmingOpportunity.token (yieldOpportunityOf env amount config) = "SOL".
Proof.
  unfold yieldOpportunityOf. cbv zeta.
  cbn [YieldFarmingOpportunity.apy YieldFarmingOpportunity.estimatedReturn
       YieldFarmingOpportunity.risk YieldFarmingOpportunity.protocol
       YieldFarmingOpportunity.token].
  rewrite fetchProtocolData_apy. cbn [or_zero].
  unfold truthy. rewrite bool_decide_eq_false_2 by (by intros []). done.
Qed.

Lemma optimizeYieldFarming_ranked (env : YieldEnv) (amount : Qc)
    (riskTolerance : RiskTolerance) :
  optimizeYieldFarming env amount riskTolerance
  = yieldOpportunityOf env amount <$> rankedCatalog riskTolerance.
Proof.
  unfold optimizeYieldFarming. cbv zeta.
  rewrite rankYieldOpportunities_sortDesc, sortDesc_fmap.
  rewrite (sortDesc_ext _ (catalogScore riskTolerance)); cycle 1.
  { intros config. unfold compose, yieldScore, catalogScore.
    destruct (yieldOpportunityOf_apy env amount config) as (-> & _ & -> & _). done. }
  f_equal. destruct riskTolerance; vm_compute; reflexivity.
Qed.

(** Whatever the data source answers and whatever the amount, the
    protocols returned and their order depend on the risk tolerance
    only: Lido, Marinade Finance, Jito, then (medium and high) Orca and
    Raydium.  Each entry carries the default APY of its protocol (the
    fetched data never supplies one), its catalog risk, which is within
    the tolerance, the token SOL and [amount × APY / 100] as estimated
    return. *)
Theorem yield_catalog (env : YieldEnv) (amount : Qc) (riskTolerance : RiskTolerance) :
  let result := optimizeYieldFarming env amount riskTolerance in
  YieldFarmingOpportunity.protocol <$> result
  = match riskTolerance with
    | low => ["Lido"; "Marinade Finance"; "Jito"]
    | medium | high => ["Lido"; "Marinade Finance"; "Jito"; "Orca"; "Raydium"]
    end
  ∧ ∀ opp, opp ∈ result →
      ∃ config, config ∈ protocolConfigs
        ∧ YieldFarmingOpportunity.protocol opp = name config
        ∧ YieldFarmingOpportunity.apy opp = defaultAPY config
        ∧ YieldFarmingOpportunity.risk opp = risk config
        ∧ matchesRiskTolerance (YieldFarmingOpportunity.risk opp) riskTolerance = true
        ∧ YieldFarmingOpportunity.token opp = "SOL"
        ∧ YieldFarmingOpportunity.estimatedReturn opp
          = amount * defaultAPY config / num 100.
Proof.
  cbv zeta. rewrite optimizeYieldFarming_ranked. split.
  - rewrite <- list_fmap_compose.
    transitivity (name <$> rankedCatalog riskTolerance).
    + apply list_fmap_ext. intros i config _.
      apply (yieldOpportunityOf_apy env amount config).
    + by destruct riskTolerance.
  - intros opp (config & -> & Hconfig)%list_elem_of_fmap.
    destruct (yieldOpportunityOf_apy env amount config) as (Hapy & Hret & Hrisk & Hname & Htok).
    exists config. rewrite Hrisk.
    assert (Hin : config ∈ protocolConfigs
                  ∧ matchesRiskTolerance (risk config) riskTolerance = true).
    { unfold rankedCatalog in Hconfig.
      apply list_elem_of_omap in Hconfig as (i & Hi & Hlook).
      split; [by apply list_elem_of_lookup; exists i|].
      destruct riskTolerance; cbn [rankedPositions] in Hi;
        repeat (apply elem_of_cons in Hi as [-> | Hi]; [injection Hlook as <-; by vm_compute|]);
        by apply elem_of_nil in Hi. }
    destruct Hin. by repeat split.
Qed.

Lemma getProtocolTVL_range (random : Qc) (protocol : string) :
  0 <= random → random < 1 →
  let range := default (num 10000000, num 100000000) (tvlRanges !! protocol) in
  range.1 < range.2 →
  range.1 <= getProtocolTVL random protocol ∧ getProtocolTVL random protocol <= range.2.
Proof.
  intros Hlo Hhi. cbv zeta. unfold getProtocolTVL. cbv zeta.
  generalize (default (num 10000000, num 100000000) (tvlRanges !! protocol)).
  intros [lo hi]. cbn [fst snd]. intros Hrange. split; qc_prep; nra.
Qed.

(** When the data source supplies no TVL, or 0, the value put in its
    place for a random number in [[0, 1)] lies in the range listed for
    the protocol, ends included; for Raydium and Orca, whose rows of the
    table are filed under other names, that is the default range from
    10 to 100 million. *)
Theorem fallback_tvl (env : YieldEnv) (amount : Qc) (config : ProtocolConfig.t) :
  config ∈ protocolConfigs →
  or_zero (tvl (fetchProtocolData (llama env (slug config)) (chain config))) = 0 →
  0 <= tvlRandom env (name config) → tvlRandom env (name config) < 1 →
  let value := YieldFarmingOpportunity.tvl (yieldOpportunityOf env amount config) in
  let range :=
    if decide (name config = "Marinade Finance") then (num 500000000, num 2000000000)
    else if decide (name config = "Lido") then (num 1000000000, num 5000000000)
    else if decide (name config = "Jito") then (num 200000000, num 800000000)
    else (num 10000000, num 100000000) in
  range.1 <= value ∧ value <= range.2
  ∧ (name config = "Raydium" ∨ name config = "Orca" →
     num 10000000 <= value ∧ value <= num 100000000).
Proof.
  intros Hin Hnone Hlo Hhi. cbv zeta.
  unfold yieldOpportunityOf. cbv zeta. cbn [YieldFarmingOpportunity.tvl].
  rewrite Hnone. unfold truthy.
  rewrite (bool_decide_eq_false_2 (0 ≠ 0)) by (by intros []).
  pose proof (getProtocolTVL_range _ (name config) Hlo Hhi) as Hrange.
  cbv zeta in Hrange. revert Hrange.
  generalize (getProtocolTVL (tvlRandom env (name config)) (name config)). intros value.
  unfold protocolConfigs in Hin.
  repeat (apply elem_of_cons in Hin as [-> | Hin]); [..|by apply elem_of_nil in Hin];
    cbn [name]; intros Hrange.
  all: assert (Hr := Hrange ltac:(vm_compute; reflexivity)); clear Hrange.
  all: vm_compute (default _ _) in Hr.
  all: repeat case_decide; try done; cbn [fst snd] in *.
  all: split; [apply Hr|]; split; [apply Hr|]; intros [|]; try done; apply Hr.
Qed.

(** A data source that is down, and a random number of one half. *)
Lemma yield_catalog_witness :
  ∃ config, config ∈ protocolConfigs
    ∧ YieldFarmingOpportunity.apy
        (yieldOpportunityOf sourceDown (num 10)
           {| name := "Lido"; slug := "lido"; defaultAPY := num 8.2;
              risk := num 0.15; chain := "solana" |})
      = defaultAPY config.
Proof.
  destruct (yield_catalog sourceDown (num 10) low) as (_ & Hentries).
  destruct (Hentries
              (yieldOpportunityOf sourceDown (num 10)
                 {| name := "Lido"; slug := "lido"; defaultAPY := num 8.2;
                    risk := num 0.15; chain := "solana" |}))
    as (config & Hin & _ & Hapy & _).
  - rewrite optimizeYieldFarming_ranked. apply list_elem_of_fmap_2.
    unfold rankedCatalog. apply list_elem_of_omap. exists 1%nat. split; [|done].
    cbn [rankedPositions]. apply list_elem_of_here.
  - by exists config.
Defined.

Lemma fallback_tvl_witness :
  num 10000000
    <= YieldFarmingOpportunity.tvl
         (yieldOpportunityOf sourceDown (num 10)
            {| name := "Raydium"; slug := "raydium"; defaultAPY := num 15.5;
               risk := num 0.6; chain := "solana" |})
  ∧ YieldFarmingOpportunity.tvl
      (yieldOpportunityOf sourceDown (num 10)
         {| name := "Raydium"; slug := "raydium"; defaultAPY := num 15.5;
            risk := num 0.6; chain := "solana" |})
    <= num 100000000.
Proof.
  apply (fallback_tvl sourceDown (num 10)
           {| name := "Raydium"; slug := "raydium"; defaultAPY := num 15.5;
              risk := num 0.6; chain := "solana" |}).
  - apply list_elem_of_lookup. by exists 3%nat.
  - done.
  - qc_compute.
  - qc_compute.
  - by left.
Defined.

End Yield.

(** ** Strategies *)

Section Strategies.

Import ArbitrageOpportunity AIEngine JSArray TradingStrategyService ProtocolConfig ProtocolData.

(** The arbitrage strategy returns one signal for each of the five most
    profitable opportunities, in their order: the [i]-th signal is a
    [buy] of the token of the [i]-th opportunity at price 0, its
    confidence is 1 minus the risk of that opportunity, which lies
    between 0.1 and 0.5, and its reasoning names the two venues.
    Without a [tokens] parameter it returns none. *)
Theorem strategy_arbitrage (env : StrategyEnv) (params : Params.t) :
  let found :=
    findArbitrageOpportunities (strategyOracle env) (default [] (Params.tokens params)) in
  let signals := executeStrategy env "arbitrage" params in
  length signals = Nat.min 5 (length found)
  ∧ (Params.tokens params = None → signals = [])
  ∧ ∀ (i : nat) (signal : TradingSignal.t), signals !! i = Some signal →
      ∃ opp, found !! i = Some opp
        ∧ (i < 5)%nat
        ∧ TradingSignal.action signal = buy
        ∧ TradingSignal.token signal = [Lit (ArbitrageOpportunity.token opp)]
        ∧ TradingSignal.price signal = 0
        ∧ TradingSignal.confidence signal = 1 - ArbitrageOpportunity.risk opp
        ∧ TradingSignal.reasoning signal
          = [Lit "Arbitrage opportunity: ";
             NumberToFixed (ArbitrageOpportunity.priceDiff opp) 2;
             Lit "% price difference between "; Lit (ArbitrageOpportunity.dexA opp);
             Lit " and "; Lit (ArbitrageOpportunity.dexB opp)]
        ∧ num 0.1 <= TradingSignal.confidence signal
        ∧ TradingSignal.confidence signal <= num 0.5.
Proof.
  cbv zeta. unfold executeStrategy. rewrite decide_True by done. cbv zeta.
  unfold generateSignalsFromArbitrage, sliceFront.
  split; [by rewrite length_fmap, length_take|].
  split; [by intros ->|].
  intros i signal Hi.
  apply list_lookup_fmap_Some in Hi as (opp & -> & Hi).
  apply lookup_take_Some in Hi as [Hi Hlt].
  exists opp. split; [done|]. split; [done|].
  cbn [TradingSignal.action TradingSignal.price TradingSignal.confidence
       TradingSignal.token TradingSignal.reasoning].
  do 5 (split; [done|]).
  assert (Hopp : opp ∈ findArbitrageOpportunities (strategyOracle env)
                         (default [] (Params.tokens params)))
    by (apply list_elem_of_lookup; by exists i).
  apply profitEstimate_findArbitrageOpportunities in Hopp as (Hpos & _ & Hrisk).
  rewrite Hrisk.
  destruct (assessArbitrageRisk_bounds (ArbitrageOpportunity.token opp) (dexA opp)
              (dexB opp) _ Hpos) as (_ & Hlo & Hhi).
  revert Hlo Hhi.
  generalize (assessArbitrageRisk (ArbitrageOpportunity.token opp) (dexA opp) (dexB opp)
                (priceDiff opp)).
  clear. intros r Hlo Hhi. split; qc_lra.
Qed.

Lemma strategy_arbitrage_witness :
  executeStrategy
    {| strategyOracle := quotes (num 100) (num 100.6) 0; yieldEnv := sourceDown |}
    "arbitrage"
    {| Params.strategy := Some "arbitrage"; Params.tokens := None; Params.amount := None;
       Params.riskTolerance := None; Params.token := None; Params.currentPrice := None |}
  = [].
Proof.
  by apply (strategy_arbitrage
              {| strategyOracle := quotes (num 100) (num 100.6) 0; yieldEnv := sourceDown |}
              {| Params.strategy := Some "arbitrage"; Params.tokens := None;
                 Params.amount := None; Params.riskTolerance := None;
                 Params.token := None; Params.currentPrice := None |}).
Defined.

Lemma riskToleranceOf_known (tolerance : string) :
  tolerance ∈ ["low"; "medium"; "high"] → is_Some (riskToleranceOf tolerance).
Proof.
  intros Hin. repeat (apply elem_of_cons in Hin as [-> | Hin]); [by eexists..|].
  by apply elem_of_nil in Hin.
Qed.

Lemma riskToleranceOf_unknown (tolerance : string) :
  tolerance ∉ ["low"; "medium"; "high"] → riskToleranceOf tolerance = None.
Proof.
  intros Hnot. unfold riskToleranceOf.
  repeat (case_decide; [subst; exfalso; apply Hnot; set_solver|]). done.
Qed.

(** The yield-farming strategy reads [riskTolerance], ["medium"] when
    it is absent or empty.  For ["low"], ["medium"] and ["high"] it
    returns the same three [buy] signals whatever the amount and the
    answers of the data source: Lido, Marinade Finance and Jito, in
    this order, with confidences of a twentieth of their default APY
    (within a thousandth of 0.41, 0.375 and 0.455).  For any other
    value no protocol passes the risk filter and it returns nothing. *)
Theorem strategy_yield (env : StrategyEnv) (params : Params.t) :
  let tolerance := or_string (Params.riskTolerance params) "medium" in
  let signals := executeStrategy env "yield-farming" params in
  (tolerance ∈ ["low"; "medium"; "high"] →
   ∃ lido marinade jito : TradingSignal.t,
     signals = [lido; marinade; jito]
     ∧ TradingSignal.action lido = buy ∧ TradingSignal.action marinade = buy
     ∧ TradingSignal.action jito = buy
     ∧ TradingSignal.reasoning lido !! 1%nat = Some (Lit "Lido")
     ∧ TradingSignal.reasoning marinade !! 1%nat = Some (Lit "Marinade Finance")
     ∧ TradingSignal.reasoning jito !! 1%nat = Some (Lit "Jito")
     ∧ (num 0.409 <= TradingSignal.confidence lido
        ∧ TradingSignal.confidence lido <= num 0.411)
     ∧ (num 0.374 <= TradingSignal.confidence marinade
        ∧ TradingSignal.confidence marinade <= num 0.376)
     ∧ (num 0.454 <= TradingSignal.confidence jito
        ∧ TradingSignal.confidence jito <= num 0.456))
  ∧ (tolerance ∉ ["low"; "medium"; "high"] → signals = []).
Proof.
  cbv zeta. unfold executeStrategy. rewrite decide_False by done.
  rewrite decide_True by done. cbv zeta. unfold optimizeYieldFarmingFor.
  generalize (or_string (Params.riskTolerance params) "medium"). intros tolerance.
  split; cycle 1.
  { intros Hnot. by rewrite (riskToleranceOf_unknown tolerance Hnot). }
  intros [riskTolerance ->]%riskToleranceOf_known.
  rewrite optimizeYieldFarming_ranked.
  unfold generateSignalsFromYield, sliceFront. rewrite <- fmap_take.
  assert (Htop : ∃ c1 c2 c3,
            take 3 (rankedCatalog riskTolerance) = [c1; c2; c3]
            ∧ (name c1 = "Lido" ∧ defaultAPY c1 = num 8.2)
            ∧ (name c2 = "Marinade Finance" ∧ defaultAPY c2 = num 7.5)
            ∧ (name c3 = "Jito" ∧ defaultAPY c3 = num 9.1)).
  { destruct riskTolerance;
      (eexists _, _, _; split; [vm_compute; reflexivity|]);
      cbn [name defaultAPY]; repeat split; qc_compute. }
  destruct Htop as (c1 & c2 & c3 & -> & [Hn1 Ha1] & [Hn2 Ha2] & [Hn3 Ha3]).
  rewrite !fmap_cons, !fmap_nil.
  eexists _, _, _. split; [reflexivity|].
  cbn [TradingSignal.action TradingSignal.reasoning TradingSignal.confidence lookup
       list_lookup].
  destruct (yieldOpportunityOf_apy (yieldEnv env) (or_zero (Params.amount params)) c1)
    as (-> & _ & _ & -> & _).
  destruct (yieldOpportunityOf_apy (yieldEnv env) (or_zero (Params.amount params)) c2)
    as (-> & _ & _ & -> & _).
  destruct (yieldOpportunityOf_apy (yieldEnv env) (or_zero (Params.amount params)) c3)
    as (-> & _ & _ & -> & _).
  rewrite Hn1, Hn2, Hn3, Ha1, Ha2, Ha3.
  repeat split; qc_compute.
Qed.

Lemma strategy_yield_witness :
  length (executeStrategy
            {| strategyOracle := quotes (num 100) (num 100.6) 0; yieldEnv := sourceDown |}
            "yield-farming" noParams) = 3%nat
  ∧ executeStrategy
      {| strategyOracle := quotes (num 100) (num 100.6) 0; yieldEnv := sourceDown |}
      "yield-farming"
      {| Params.strategy := None; Params.tokens := None; Params.amount := None;
         Params.riskTolerance := Some "extreme"; Params.token := None;
         Params.currentPrice := None |}
    = [].
Proof.
  split.
  - destruct (strategy_yield
                {| strategyOracle := quotes (num 100) (num 100.6) 0; yieldEnv := sourceDown |}
                noParams) as [Hknown _].
    destruct Hknown as (lido & marinade & jito & -> & _); [|done].
    apply (bool_decide_unpack _). by vm_compute.
  - apply (strategy_yield
             {| strategyOracle := quotes (num 100) (num 100.6) 0; yieldEnv := sourceDown |}).
    apply (bool_decide_unpack _). by vm_compute.
Defined.

End Strategies.

(** ** More invariants of the ledger *)

Section LedgerMore.

Import AgentEarnings RevenueManager.

Lemma numOfNat_S (n : nat) : numOfNat (S n) = numOfNat n + 1.
Proof.
  unfold numOfNat. apply Qc_is_canon. rewrite this_plus, !this_num.
  rewrite Nat2Z.inj_succ. unfold Z.succ. rewrite inject_Z_plus. reflexivity.
Qed.

Lemma numOfNat_mono (n m : nat) : (n ≤ m)%nat → numOfNat n <= numOfNat m.
Proof.
  induction 1 as [|m Hle IH]; [apply Qcle_refl|].
  rewrite numOfNat_S. revert IH. generalize (numOfNat n) (numOfNat m). intros x y IH.
  qc_lra.
Qed.

Lemma solvent_considerReinvestment (env : SpawnEnv) (rm : RevenueManager.t) :
  solvent rm → solvent (considerReinvestment env rm).
Proof.
  intros [Ha Hr]. unfold considerReinvestment. case_decide; [done|]. cbv zeta.
  destruct (bool_decide (spawnCost <= _) && _) eqn:Hspawn.
  - apply andb_true_iff in Hspawn as [Hc%bool_decide_eq_true _].
    unfold solvent. cbn [withEarnings earnings debit available reinvested spawnSubAgent].
    unfold spawnCost in *. split; qc_lra.
  - destruct (bool_decide (upgradeCost <= _) && _) eqn:Hup; [|done].
    apply andb_true_iff in Hup as [Hc%bool_decide_eq_true _].
    unfold solvent. cbn [withEarnings earnings debit available reinvested upgradeAgent].
    unfold upgradeCost in *. split; qc_lra.
Qed.

Lemma solvent_step (rm : RevenueManager.t) (c : Call) :
  nonNegativeCall c → solvent rm → solvent (step rm c).
Proof.
  destruct c as [env serviceId amount | env]; cbn [step nonNegativeCall]; intros Hc Hs.
  - assert (Hcredit : solvent (withEarnings (credit serviceId amount) rm)).
    { destruct Hs as [Ha Hr]. unfold solvent.
      cbn [withEarnings earnings credit available reinvested]. split; qc_lra. }
    unfold recordPayment. cbv zeta. case_decide; [|done].
    by apply solvent_considerReinvestment.
  - by apply solvent_considerReinvestment.
Qed.

Lemma total_nonneg_run (calls : list Call) (rm : RevenueManager.t) :
  Forall nonNegativeCall calls → 0 <= total (earnings rm) →
  0 <= total (earnings (run calls rm)).
Proof.
  intros Hcalls. revert rm. unfold run.
  induction Hcalls as [|c calls Hc Hcalls IH]; intros rm Hrm; [done|].
  cbn [foldl]. apply IH.
  destruct c as [env serviceId amount | env]; cbn [step nonNegativeCall] in *.
  - rewrite total_recordPayment. revert Hc Hrm. generalize (total (earnings rm)).
    intros t Hc Hrm. qc_lra.
  - by rewrite total_considerReinvestment.
Qed.



Lemma spawned_considerReinvestment (env : SpawnEnv) (rm : RevenueManager.t) :
  spawned rm → spawned (considerReinvestment env rm).
Proof.
  intros [Hrec Hsize]. unfold considerReinvestment. case_decide; [done|]. cbv zeta.
  destruct (bool_decide (spawnCost <= _) && _).
  - split.
    + cbn [withEarnings spawnSubAgent subAgents]. intros id agent.
      rewrite lookup_insert. case_decide as Hid.
      * intros [= <-]. subst id. cbn. repeat split; by eexists.
      * apply Hrec.
    + cbn [withEarnings spawnSubAgent subAgents earnings debit reinvested].
      pose proof (size_insert_le (subAgents rm) (subAgentId env)
                    (newSubAgent env "data-collector" spawnCost)) as Hle.
      apply numOfNat_mono in Hle. rewrite numOfNat_S in Hle.
      revert Hle Hsize. unfold spawnCost.
      generalize (numOfNat (size (<[subAgentId env:=newSubAgent env "data-collector" (num 0.3)]>
                                    (subAgents rm))))
                 (numOfNat (size (subAgents rm))) (reinvested (earnings rm)).
      intros n' n r Hle Hsize. qc_lra.
  - destruct (bool_decide (upgradeCost <= _) && _); [|done].
    split; [apply Hrec|].
    cbn [withEarnings upgradeAgent subAgents earnings debit reinvested].
    revert Hsize. unfold upgradeCost.
    generalize (numOfNat (size (subAgents rm))) (reinvested (earnings rm)).
    intros n r Hsize. qc_lra.
Qed.

Lemma spawned_step (rm : RevenueManager.t) (c : Call) : spawned rm → spawned (step rm c).
Proof.
  destruct c as [env serviceId amount | env]; cbn [step]; intros Hs.
  - unfold recordPayment. cbv zeta. case_decide; [|done].
    by apply spawned_considerReinvestment.
  - by apply spawned_considerReinvestment.
Qed.

Lemma spawned_init (threshold : Qc) : spawned (init threshold).
Proof.
  split; [intros id agent Hl; cbn [init subAgents] in Hl; by rewrite lookup_empty in Hl|].
  cbn [init subAgents earnings reinvested]. rewrite map_size_empty. qc_compute.
Qed.

Lemma spawned_run (calls : list Call) (rm : RevenueManager.t) :
  spawned rm → spawned (run calls rm).
Proof.
  revert rm. unfold run.
  induction calls as [|c calls IH]; intros rm Hrm; [done|].
  cbn [foldl]. by apply IH, spawned_step.
Qed.

(** A manager whose records are paid for and which holds one at least
    has reinvested 0.3 or more. *)
Lemma spawned_reinvested (rm : RevenueManager.t) :
  spawned rm → (0 < size (subAgents rm))%nat → num 0.3 <= reinvested (earnings rm).
Proof.
  intros [_ Hpaid] Hsize.
  assert (Hone : numOfNat 1 <= numOfNat (size (subAgents rm)))
    by (apply numOfNat_mono; lia).
  assert (H1 : numOfNat 1 = 1) by qc_compute. rewrite H1 in Hone.
  revert Hpaid Hone.
  generalize (numOfNat (size (subAgents rm))) (reinvested (earnings rm)).
  intros n r Hpaid Hone. qc_lra.
Qed.

(** Every sub-agent on record is filed under its own identifier, has
    parent ["main"], role ["data-collector"], balance 0.3 and status
    [active], with a wallet address and a funding reference; and a
    manager that holds a record has reinvested 0.3 or more. *)
Theorem sub_agent_records (threshold : Qc) (calls : list Call) :
  let rm := run calls (init threshold) in
  (∀ id agent, subAgents rm !! id = Some agent →
     SubAgent.id agent = id
     ∧ SubAgent.parentId agent = "main"
     ∧ SubAgent.role agent = "data-collector"
     ∧ SubAgent.balance agent = num 0.3
     ∧ SubAgent.status agent = active
     ∧ is_Some (SubAgent.walletAddress agent)
     ∧ is_Some (SubAgent.fundingTxHash agent))
  ∧ ((0 < size (subAgents rm))%nat → num 0.3 <= reinvested (earnings rm)).
Proof.
  cbv zeta.
  pose proof (spawned_run calls (init threshold) (spawned_init threshold)) as Hspawned.
  split; [apply Hspawned | by apply spawned_reinvested].
Qed.

Lemma sub_agent_records_witness :
  SubAgent.role (newSubAgent (env0 "sub_0") "data-collector" spawnCost) = "data-collector".
Proof.
  destruct (sub_agent_records defaultThreshold fiveSpawns) as (Hrec & _).
  apply (Hrec "sub_0" (newSubAgent (env0 "sub_0") "data-collector" spawnCost)).
  by vm_compute.
Defined.

(** What one reinvestment check can change. *)
Lemma considerReinvestment_effects (env : SpawnEnv) (s : RevenueManager.t) :
  dom (subAgents s) ⊆ dom (subAgents (considerReinvestment env s))
  ∧ (size (subAgents s) ≤ size (subAgents (considerReinvestment env s))
     ≤ S (size (subAgents s)))%nat
  ∧ reinvested (earnings s) <= reinvested (earnings (considerReinvestment env s))
  ∧ reinvestmentThreshold (considerReinvestment env s) = reinvestmentThreshold s
  ∧ total (earnings (considerReinvestment env s)) = total (earnings s)
  ∧ byService (earnings (considerReinvestment env s)) = byService (earnings s)
  ∧ available (earnings (considerReinvestment env s)) <= available (earnings s)
  ∧ available (earnings s) - num 0.5 <= available (earnings (considerReinvestment env s)).
Proof.
  unfold considerReinvestment. case_decide.
  { split; [done|]. split; [lia|].
    generalize (available (earnings s)). intros a. repeat split; try done; qc_lra. }
  cbv zeta. destruct (bool_decide (spawnCost <= _) && _).
  - cbn [withEarnings spawnSubAgent subAgents earnings debit reinvested
         reinvestmentThreshold total byService available].
    split; [rewrite dom_insert; set_solver|].
    split.
    { rewrite map_size_insert. destruct (subAgents s !! subAgentId env); simpl; lia. }
    unfold spawnCost. generalize (reinvested (earnings s)) (available (earnings s)).
    intros r a. repeat split; try done; qc_lra.
  - destruct (bool_decide (upgradeCost <= _) && _).
    + cbn [withEarnings upgradeAgent subAgents earnings debit reinvested
           reinvestmentThreshold total byService available].
      split; [done|]. split; [lia|].
      unfold upgradeCost. generalize (reinvested (earnings s)) (available (earnings s)).
      intros r a. repeat split; try done; qc_lra.
    + split; [done|]. split; [lia|].
      generalize (available (earnings s)). intros a. repeat split; try done; qc_lra.
Qed.



End LedgerMore.

(** ** Requests *)

Section Requests.

Import AgentEarnings RevenueManager AutonomousAgent.

Context {R : Type}.

(** A request for a service that is not configured or is disabled, or
    that announces another amount than the price, is refused before any
    charge: the result is an error, no charge is made and the revenue
    manager is as it was.  The same holds of the ledger when the charge
    itself throws. *)
Theorem request_refused (services : list ServiceConfig.t) (env : RequestEnv R)
    (request : ServiceRequest.t) (rm : RevenueManager.t) :
  let outcome := handleServiceRequest services env request rm in
  ((serviceOf services request = None
    ∨ (∃ service, serviceOf services request = Some service
         ∧ (ServiceConfig.enabled service = false
            ∨ ServiceRequest.paymentAmount request ≠ ServiceConfig.price service))) →
   ∃ message, outcome = (inl message, rm, []))
  ∧ (∀ message, charge env = ChargeThrew message →
     ∃ text, outcome.1.1 = inl text ∧ outcome.1.2 = rm)
  ∧ (length outcome.2 ≤ 1)%nat
  ∧ (∀ c, c ∈ outcome.2 →
       chargedAmount c = ServiceRequest.paymentAmount request
       ∧ chargedService c = ServiceRequest.serviceId request
       ∧ chargedUser c = ServiceRequest.userId request).
Proof.
  cbv zeta. unfold handleServiceRequest. cbv zeta. fold (serviceOf services request).
  destruct (serviceOf services request) as [service|].
  - destruct (ServiceConfig.enabled service) eqn:Hen; cbn [negb].
    + destruct (bool_decide (_ ≠ _)) eqn:Hprice.
      * split; [by eexists|]. split; [by eexists|]. split; [simpl; lia|].
        intros c []%elem_of_nil.
      * apply bool_decide_eq_false in Hprice. apply dec_stable in Hprice.
        split.
        { intros [[=] | (s & [= <-] & [Hdis | Hne])]; [by rewrite Hen in Hdis | done]. }
        destruct (charge env) as [txHash | message].
        -- split; [intros m [=]|].
           destruct (executeService env service);
             (split; [simpl; lia|]);
             intros c ->%list_elem_of_singleton; by cbn.
        -- split; [by eexists|]. split; [simpl; lia|].
           intros c ->%list_elem_of_singleton. by cbn.
    + split; [by eexists|]. split; [by eexists|]. split; [simpl; lia|].
      intros c []%elem_of_nil.
  - split; [by eexists|]. split; [by eexists|]. split; [simpl; lia|].
    intros c []%elem_of_nil.
Qed.

(** Once the charge has gone through, the payment is recorded at the
    price of the service, whether the service then runs or throws: the
    ledger is the one after [recordPayment], [total] is up by the price,
    and a failure of the service is reported together with the
    transaction reference. *)
Theorem payment_kept (services : list ServiceConfig.t) (env : RequestEnv R)
    (request : ServiceRequest.t) (rm : RevenueManager.t) (service : ServiceConfig.t)
    (txHash : string) :
  serviceOf services request = Some service →
  ServiceConfig.enabled service = true →
  ServiceRequest.paymentAmount request = ServiceConfig.price service →
  charge env = ChargeOk txHash →
  let outcome := handleServiceRequest services env request rm in
  outcome.1.2
    = recordPayment (requestSpawnEnv env) (ServiceRequest.serviceId request)
        (ServiceConfig.price service) rm
  ∧ total (earnings outcome.1.2) = total (earnings rm) + ServiceConfig.price service
  ∧ length outcome.2 = 1%nat
  ∧ (∀ message, executeService env service = Threw message →
       outcome.1.1
       = inl [Lit "Service execution failed: "; Lit message;
              Lit ". Payment processed: "; Lit txHash])
  ∧ (∀ result, executeService env service = Returned result →
       ∃ response, outcome.1.1 = inr response
         ∧ AutonomousAgent.result response = result
         ∧ transactionHash response = txHash
         ∧ responsePrice response = ServiceConfig.price service).
Proof.
  intros Hfind Hen Hprice Hcharge. cbv zeta.
  unfold handleServiceRequest. cbv zeta. fold (serviceOf services request).
  rewrite Hfind, Hen. cbn [negb].
  rewrite bool_decide_eq_false_2 by (by intros Hne).
  rewrite Hcharge.
  destruct (executeService env service) as [result | message]; cbn [fst snd length].
  - split; [done|]. split; [apply total_recordPayment|]. split; [done|].
    split; [by intros m [=]|]. intros r [= <-]. by eexists.
  - split; [done|]. split; [apply total_recordPayment|]. split; [done|].
    split; [by intros m [= <-]|]. by intros r [=].
Qed.

(** What a request or a cycle does to the revenue manager is a sequence
    of its two calls: a request records at most one payment, at the
    price of the service found, and a cycle only considers
    reinvestment. *)
Lemma handleEvent_calls (services : list ServiceConfig.t) (minBalance : Qc)
    (rm : RevenueManager.t) (event : Event R) :
  ∃ calls, handleEvent services minBalance rm event = run calls rm
           ∧ Forall (pricedCall services) calls
           ∧ (length calls ≤ 2)%nat.
Proof.
  destruct event as [env request | env]; cbn [handleEvent].
  - unfold handleServiceRequest. cbv zeta. fold (serviceOf services request).
    destruct (serviceOf services request) as [service|] eqn:Hfind;
      [|exists []; repeat split; [constructor | simpl; lia]].
    apply find_some in Hfind as [Hin%list_elem_of_In Hid%bool_decide_eq_true].
    destruct (ServiceConfig.enabled service) eqn:Hen; cbn [negb];
      [|exists []; repeat split; [constructor | simpl; lia]].
    destruct (bool_decide (_ ≠ _));
      [exists []; repeat split; [constructor | simpl; lia]|].
    destruct (charge env) as [txHash | message];
      [|exists []; repeat split; [constructor | simpl; lia]].
    exists [CallRecordPayment (requestSpawnEnv env) (ServiceRequest.serviceId request)
              (ServiceConfig.price service)].
    split; [by destruct (executeService env service)|].
    split; [|simpl; lia].
    constructor; [|constructor]. by exists service.
  - unfold autonomousCycle. rewrite arbitrageStep_idle. cbv zeta.
    case_decide; [case_decide|].
    + exists [CallConsiderReinvestment (spawnEnvStep2 env);
              CallConsiderReinvestment (spawnEnvStep3 env)].
      split; [done|]. split; [by repeat constructor | simpl; lia].
    + exists [CallConsiderReinvestment (spawnEnvStep2 env)].
      split; [done|]. split; [by repeat constructor | simpl; lia].
    + exists [CallConsiderReinvestment (spawnEnvStep2 env)].
      split; [done|]. split; [by repeat constructor | simpl; lia].
Qed.

Lemma handleEvents_calls (services : list ServiceConfig.t) (minBalance : Qc)
    (events : list (Event R)) (rm : RevenueManager.t) :
  ∃ calls, handleEvents services minBalance events rm = run calls rm
           ∧ Forall (pricedCall services) calls
           ∧ (length calls ≤ 2 * length events)%nat.
Proof.
  unfold handleEvents. revert rm.
  induction events as [|event events IH]; intros rm; cbn [foldl].
  - exists []. split; [done|]. split; [constructor | simpl; lia].
  - destruct (handleEvent_calls services minBalance rm event) as (calls1 & -> & H1 & Hl1).
    destruct (IH (run calls1 rm)) as (calls2 & -> & H2 & Hl2).
    exists (calls1 ++ calls2). unfold run. rewrite foldl_app.
    split; [done|]. split; [by apply Forall_app|].
    rewrite length_app. cbn [length]. lia.
Qed.

Lemma solvent_run (calls : list Call) (rm : RevenueManager.t) :
  Forall nonNegativeCall calls → solvent rm → solvent (run calls rm).
Proof.
  intros Hcalls. revert rm. unfold run.
  induction Hcalls as [|c calls Hc Hcalls IH]; intros rm Hrm; [done|].
  cbn [foldl]. by apply IH, solvent_step.
Qed.


End Requests.

Section DefaultServices.

Import AgentEarnings RevenueManager AutonomousAgent.

Lemma request_refused_witness :
  ∃ message,
    handleServiceRequest defaultServices charged (requestOf "staking" (num 0.01))
      (init defaultThreshold)
    = (inl message, init defaultThreshold, []).
Proof.
  apply (request_refused defaultServices charged (requestOf "staking" (num 0.01))
           (init defaultThreshold)).
  left. reflexivity.
Defined.

Lemma payment_kept_witness :
  total (earnings
           (handleServiceRequest defaultServices charged
              (requestOf "trading-strategy" (num 0.05)) (init defaultThreshold)).1.2)
  = total (earnings (init defaultThreshold)) + num 0.05.
Proof.
  apply (payment_kept defaultServices charged (requestOf "trading-strategy" (num 0.05))
           (init defaultThreshold)
           {| ServiceConfig.id := "trading-strategy";
              ServiceConfig.name := "Trading Strategy";
              ServiceConfig.type := "trading-strategy"; ServiceConfig.price := num 0.05;
              ServiceConfig.enabled := true |}
           "sim_tx"); reflexivity.
Defined.


End DefaultServices.

(** ** The price oracle *)

Section Oracle.

Import OracleService.

(** The cache keys of two tokens, or of one token on the two networks,
    are different. *)
Lemma cacheKey_inj (network network' : Network) (tokenAddress tokenAddress' : string) :
  networkName network +:+ ":" +:+ tokenAddress
  = networkName network' +:+ ":" +:+ tokenAddress' →
  network = network' ∧ tokenAddress = tokenAddress'.
Proof.
  destruct network, network'; cbn; intros [=]; by subst.
Qed.

(** The price a venue is given stays within half a per cent of the
    aggregated price and at least a tenth of a per cent away from it
    (both ends can be reached), above it when the second random number
    exceeds one half and below it otherwise; an aggregated price that is
    not positive is passed on as it is.  The cache is handled as by
    [getTokenPrice]. *)
Theorem dex_quote_band (env : PriceEnv) (random1 random2 : Qc) (tokenAddress dex : string)
    (st : OracleService.t) :
  let aggregated := getTokenPrice env tokenAddress Solana st in
  let price := MarketData.price aggregated.1.1 in
  let quoted := getDEXPrice env random1 random2 tokenAddress dex st in
  quoted.1.2 = aggregated.1.2
  ∧ quoted.2 = aggregated.2
  ∧ (price <= 0 → quoted.1.1 = price)
  ∧ (0 < price → 0 <= random1 → random1 < 1 →
     (num 0.5 < random2 →
      price * num 1.001 <= quoted.1.1 ∧ quoted.1.1 <= price * num 1.005)
     ∧ (random2 <= num 0.5 →
        price * num 0.995 <= quoted.1.1 ∧ quoted.1.1 <= price * num 0.999)).
Proof.
  cbv zeta. unfold getDEXPrice.
  destruct (getTokenPrice env tokenAddress Solana st) as [[marketData st'] requested].
  cbn [fst snd]. split; [done|]. split; [done|].
  generalize (MarketData.price marketData). intros p.
  unfold dexQuote. cbv zeta. split.
  - intros Hp. rewrite decide_False; [done|]. by apply Qcle_not_lt.
  - intros Hp H0 H1. rewrite (decide_True (P := 0 < p)) by done.
    split; intros H2.
    + rewrite (decide_True (P := num 0.5 < random2)) by done.
      split; qc_prep; nra.
    + rewrite (decide_False (P := num 0.5 < random2)) by (by apply Qcle_not_lt).
      split; qc_prep; nra.
Qed.

Lemma dex_quote_band_witness :
  let quoted :=
    getDEXPrice (answering (num 100) 0) (num 0.5) (num 0.75) AutonomousAgent.SOL "jupiter"
      OracleService.init in
  let price :=
    MarketData.price
      (getTokenPrice (answering (num 100) 0) AutonomousAgent.SOL Solana
         OracleService.init).1.1 in
  price * num 1.001 <= quoted.1.1 ∧ quoted.1.1 <= price * num 1.005.
Proof.
  cbv zeta.
  apply (dex_quote_band (answering (num 100) 0) (num 0.5) (num 0.75) AutonomousAgent.SOL
           "jupiter" OracleService.init); qc_compute.
Defined.

(** What a call returns when it sent a request that was answered. *)
Lemma getTokenPrice_fetched (env : PriceEnv) (tokenAddress : string) (network : Network)
    (st : OracleService.t) (body : PriceBody) :
  fetched env = Fetched body →
  (getTokenPrice env tokenAddress network st).2 = true →
  let data :=
    {| MarketData.token := tokenAddress;
       MarketData.price := or_zero (value body);
       MarketData.volume24h := or_zero (bodyVolume24h body);
       MarketData.priceChange24h := or_zero (bodyPriceChange24h body);
       MarketData.liquidity := or_zero (bodyLiquidity body);
       MarketData.timestamp := nowAtResult env |} in
  getTokenPrice env tokenAddress network st
  = (data,
     {| priceCache := <[networkName network +:+ ":" +:+ tokenAddress := data]> (priceCache st);
        lastRequestTime := nowAtRequest env |},
     true).
Proof.
  intros Hfetched. unfold getTokenPrice. cbv zeta.
  destruct (priceCache st !! _) as [c|].
  - destruct (bool_decide _); [by intros [=]|]. by rewrite Hfetched.
  - by rewrite Hfetched.
Qed.

(** A price that has been fetched is served from the cache, with no
    further request and no change of state, as long as less than sixty
    seconds have passed since it was built, whatever the price service
    would answer by then; and the fetch touches the entry of no other
    token or network. *)
Theorem cache_round_trip (env1 env2 : PriceEnv) (tokenAddress : string) (network : Network)
    (st : OracleService.t) (body : PriceBody) :
  fetched env1 = Fetched body →
  (getTokenPrice env1 tokenAddress network st).2 = true →
  (nowAtCheck env2 - nowAtResult env1 < 60000)%Z →
  let first := getTokenPrice env1 tokenAddress network st in
  getTokenPrice env2 tokenAddress network first.1.2 = (first.1.1, first.1.2, false)
  ∧ MarketData.token first.1.1 = tokenAddress
  ∧ MarketData.price first.1.1 = or_zero (value body)
  ∧ MarketData.timestamp first.1.1 = nowAtResult env1
  ∧ lastRequestTime first.1.2 = nowAtRequest env1
  ∧ ∀ network' tokenAddress',
      (network', tokenAddress') ≠ (network, tokenAddress) →
      priceCache first.1.2 !! (networkName network' +:+ ":" +:+ tokenAddress')
      = priceCache st !! (networkName network' +:+ ":" +:+ tokenAddress').
Proof.
  intros Hfetched Hrequested Hfresh. cbv zeta.
  rewrite (getTokenPrice_fetched env1 tokenAddress network st body Hfetched Hrequested).
  cbv zeta. cbn [fst snd priceCache lastRequestTime].
  split.
  - unfold getTokenPrice. cbv zeta. cbn [priceCache]. rewrite lookup_insert_eq.
    rewrite bool_decide_eq_true_2; [done|].
    unfold cacheTTL. cbn [MarketData.timestamp]. lia.
  - do 4 (split; [done|]).
    intros network' tokenAddress' Hne. apply lookup_insert_ne.
    intros Heq. symmetry in Heq. apply cacheKey_inj in Heq as [-> ->]. by apply Hne.
Qed.

Lemma cache_round_trip_witness :
  let first := getTokenPrice (answering (num 100) 0) AutonomousAgent.SOL Solana
                 OracleService.init in
  getTokenPrice (rateLimited 59999) AutonomousAgent.SOL Solana first.1.2
  = (first.1.1, first.1.2, false).
Proof.
  cbv zeta.
  apply (cache_round_trip (answering (num 100) 0) (rateLimited 59999) AutonomousAgent.SOL
           Solana OracleService.init
           {| value := Some (num 100); bodyVolume24h := None; bodyPriceChange24h := None;
              bodyLiquidity := None |});
    [reflexivity | reflexivity | cbn; lia].
Defined.

(** When the request fails, with whatever status, the cache is left as
    it was and the entry it holds for the token is returned however old
    it is; only when there is none is the price reported as 0, with all
    other figures 0 as well. *)
Theorem fetch_failure (env : PriceEnv) (tokenAddress : string) (network : Network)
    (st : OracleService.t) (status : option Z) :
  fetched env = Failed status →
  let answer := getTokenPrice env tokenAddress network st in
  priceCache answer.1.2 = priceCache st
  ∧ match priceCache st !! (networkName network +:+ ":" +:+ tokenAddress) with
    | Some cached => answer.1.1 = cached
    | None =>
        answer.2 = true
        ∧ MarketData.token answer.1.1 = tokenAddress
        ∧ MarketData.price answer.1.1 = 0
        ∧ MarketData.volume24h answer.1.1 = 0
        ∧ MarketData.priceChange24h answer.1.1 = 0
        ∧ MarketData.liquidity answer.1.1 = 0
    end.
Proof.
  intros Hfetched. cbv zeta. unfold getTokenPrice. cbv zeta.
  destruct (priceCache st !! _) as [c|].
  - destruct (bool_decide _); [done|]. rewrite Hfetched.
    by destruct (decide (status = Some 429%Z)).
  - rewrite Hfetched. by destruct (decide (status = Some 429%Z)).
Qed.

Lemma fetch_failure_witness :
  priceCache (getTokenPrice (rateLimited 0) AutonomousAgent.SOL Solana
                OracleService.init).1.2
  = priceCache OracleService.init.
Proof.
  apply (fetch_failure (rateLimited 0) AutonomousAgent.SOL Solana OracleService.init
           (Some 429%Z)).
  reflexivity.
Defined.

End Oracle.

(** ** Market analysis *)

Section MarketAnalysis.

Import TradingSignalInput AIEngine JSArray OracleService MarketAnalysisService.

Lemma action_generateTradingSignals (input : TradingSignalInput.t) (signal : TradingSignal.t) :
  signal ∈ generateTradingSignals input →
  TradingSignal.action signal = determineAction (calculateSignalScore input)
  ∨ TradingSignal.action signal = hold.
Proof.
  unfold generateTradingSignals. cbv zeta. destruct (_ && _).
  - intros [-> | [-> | []%elem_of_nil]%elem_of_cons]%elem_of_cons; [by left | by right].
  - intros [-> | []%elem_of_nil]%elem_of_cons. by left.
Qed.

(** The score of the input [analyzeToken] builds: the volume it passes
    is the constant 0 returned by [getTradingVolume]. *)
Lemma rawScore_analysis (price change liquidity sentiment : Qc) :
  rawScore modelWeights
    {| TradingSignalInput.price := price;
       TradingSignalInput.volume24h := getTradingVolume "" "24h";
       TradingSignalInput.priceChange24h := change;
       TradingSignalInput.liquidity := liquidity;
       TradingSignalInput.sentiment := sentiment |}
  = change / num 100 * num 0.3 + sentiment * num 0.2
    + min (liquidity / num 10000000) 1 * num 0.1.
Proof.
  unfold rawScore, getTradingVolume.
  cbn [modelWeights w_price w_volume w_sentiment w_liquidity
       TradingSignalInput.priceChange24h TradingSignalInput.volume24h
       TradingSignalInput.sentiment TradingSignalInput.liquidity].
  assert (Hvol : min (0 / num 1000000) 1 = 0) by qc_compute.
  rewrite Hvol. generalize (min (liquidity / num 10000000) 1). intros l. qc_lra.
Qed.

(** [analyzeToken] returns the market data of [getTokenPrice] and scores
    them with a volume of 0, whatever volume the data report, and a
    sentiment below 1.  So it advises to buy only a token whose price
    went up, and, when the liquidity is not negative, to sell only a
    token whose price fell by more than a third. *)
Theorem analysis_actions (env : PriceEnv) (random : Qc) (tokenAddress : string)
    (network : Network) (oracle : OracleService.t) :
  0 <= random → random < 1 →
  let analysis := analyzeToken env random tokenAddress network oracle in
  let data := analysis.1.1 in
  data = (getTokenPrice env tokenAddress network oracle).1.1
  ∧ analysis.2 = (getTokenPrice env tokenAddress network oracle).1.2
  ∧ ∀ signal, signal ∈ analysis.1.2 →
      (TradingSignal.action signal = buy → 0 < MarketData.priceChange24h data)
      ∧ (0 <= MarketData.liquidity data → TradingSignal.action signal = sell →
         MarketData.priceChange24h data * num 3 < - num 100).
Proof.
  intros H0 H1. cbv zeta. unfold analyzeToken.
  destruct (getTokenPrice env tokenAddress network oracle) as [[marketData oracle'] requested].
  cbn [fst snd]. split; [done|]. split; [done|].
  intros signal [Hprimary | Hhold]%action_generateTradingSignals;
    [|rewrite Hhold; by split; [|intros _]].
  rewrite Hprimary.
  unfold calculateSignalScore, calculateSignalScoreWith, getMarketSentiment.
  rewrite (rawScore_analysis (MarketData.price marketData)).
  generalize (MarketData.priceChange24h marketData) (MarketData.liquidity marketData).
  intros change liquidity.
  assert (Hl : min (liquidity / num 10000000) 1 <= 1) by apply min_le_r.
  assert (Hl' : 0 <= liquidity → 0 <= min (liquidity / num 10000000) 1).
  { intros Hpos. unfold min. case_decide; qc_lra. }
  revert Hl Hl'. generalize (min (liquidity / num 10000000) 1). intros l Hl Hl'.
  unfold determineAction, max, min. split.
  - repeat case_decide; try done; intros _; qc_lra.
  - intros Hpos. specialize (Hl' Hpos). repeat case_decide; try done; intros _; qc_lra.
Qed.

Lemma analysis_actions_witness :
  (analyzeToken (answering (num 100) 0) (num 0.5) AutonomousAgent.SOL Solana
     OracleService.init).2
  = (getTokenPrice (answering (num 100) 0) AutonomousAgent.SOL Solana
       OracleService.init).1.2.
Proof.
  apply (analysis_actions (answering (num 100) 0) (num 0.5) AutonomousAgent.SOL Solana
           OracleService.init); qc_compute.
Defined.

Lemma descendingBy_app {A : Type} (key : A → Qc) (l1 l2 : list A) :
  descendingBy key (l1 ++ l2) →
  descendingBy key l1 ∧ descendingBy key l2
  ∧ ∀ x y, x ∈ l1 → y ∈ l2 → key y <= key x.
Proof.
  induction l1 as [|z l1 IH]; cbn [app].
  - intros Hl2. split; [constructor|]. split; [done|]. by intros x y []%elem_of_nil.
  - inversion 1 as [|? ? Hz Hrest]; subst.
    destruct (IH Hrest) as (H1 & H2 & H12).
    split; [constructor; [|done]; intros y Hy; apply Hz, elem_of_app; by left|].
    split; [done|].
    intros x y [-> | Hx]%elem_of_cons Hy; [apply Hz, elem_of_app; by right | by apply H12].
Qed.

Lemma pushSignals_spec (envs : nat → PriceEnv * Qc) (network : Network) (i : nat)
    (tokens : list MarketData.t) (oracle : OracleService.t) :
  (length (pushSignals envs network i tokens oracle).1 ≤ 2 * length tokens)%nat
  ∧ (length tokens ≤ length (pushSignals envs network i tokens oracle).1)%nat
  ∧ ∀ signal, signal ∈ (pushSignals envs network i tokens oracle).1 →
      0 <= TradingSignal.confidence signal ∧ TradingSignal.confidence signal <= 1.
Proof.
  revert i oracle. induction tokens as [|token rest IH]; intros i oracle; cbn [pushSignals].
  - cbn [fst length]. split; [lia|]. split; [lia|]. by intros signal []%elem_of_nil.
  - unfold analyzeToken.
    destruct (getTokenPrice _ _ _ _) as [[marketData oracle1] requested].
    match goal with
    | |- context [generateTradingSignals ?input] =>
        pose proof (length_generateTradingSignals input) as Hlen;
        pose proof (confidence_generateTradingSignals input) as Hconf;
        revert Hlen Hconf; generalize (generateTradingSignals input)
    end.
    intros signals Hlen Hconf.
    destruct (IH (S i) oracle1) as (Hle & Hge & Hrest).
    destruct (pushSignals envs network (S i) rest oracle1) as [more oracle2].
    cbn [fst] in *. rewrite length_app. cbn [length].
    split; [lia|]. split; [lia|].
    intros signal [Hin | Hin]%elem_of_app; [by apply Hconf | by apply Hrest].
Qed.

(** The signals pushed by the loop, token by token. *)
Lemma pushSignals_groups (envs : nat → PriceEnv * Qc) (network : Network) (i : nat)
    (tokens : list MarketData.t) (oracle : OracleService.t) :
  ∃ groups : list (list TradingSignal.t),
    (pushSignals envs network i tokens oracle).1 = concat groups
    ∧ length groups = length tokens
    ∧ ∀ (k : nat) (group : list TradingSignal.t), groups !! k = Some group →
        (1 ≤ length group ≤ 2)%nat
        ∧ ∃ (data : MarketData.t) (oracle_k : OracleService.t),
            tokens !! k = Some data
            ∧ group = (analyzeToken (envs (i + k)%nat).1 (envs (i + k)%nat).2
                         (MarketData.token data) network oracle_k).1.2.
Proof.
  revert i oracle. induction tokens as [|token rest IH]; intros i oracle; cbn [pushSignals].
  - exists []. split; [done|]. split; [done|]. intros k group Hk.
    by rewrite lookup_nil in Hk.
  - destruct (analyzeToken (envs i).1 (envs i).2 (MarketData.token token) network oracle)
      as [[data signals] oracle1] eqn:Hanalysis.
    destruct (IH (S i) oracle1) as (groups & Hconcat & Hlen & Hgroups).
    destruct (pushSignals envs network (S i) rest oracle1) as [more oracle2].
    cbn [fst] in *. exists (signals :: groups).
    split; [by rewrite Hconcat|]. split; [cbn [length]; by rewrite Hlen|].
    intros [|k] group Hk; cbn in Hk.
    + injection Hk as <-. split.
      * revert Hanalysis. unfold analyzeToken.
        destruct (getTokenPrice _ _ _ _) as [[marketData oracle'] requested].
        intros [= _ <- _].
        match goal with
        | |- context [generateTradingSignals ?input] =>
            pose proof (length_generateTradingSignals input) as Hl
        end.
        lia.
      * exists token, oracle. split; [done|].
        replace (i + 0)%nat with i by lia. by rewrite Hanalysis.
    + destruct (Hgroups k group Hk) as (Hl & data' & oracle_k & Hdata & Hgroup).
      split; [done|]. exists data', oracle_k. split; [done|].
      by replace (i + S k)%nat with (S i + k)%nat by lia.
Qed.



End MarketAnalysis.

(** ** The trading-strategy handler *)

Section Handlers.

Import ArbitrageOpportunity AIEngine JSArray TradingStrategyService AutonomousAgent ProtocolConfig ProtocolData.

(** The handler answers by strategy, [arbitrage] when none is named.
    Arbitrage is looked for on SOL when no tokens are given, and every
    opportunity returned has a risk of at least 0.5.  Yield farming is
    computed for an amount of 1 when the amount is absent or 0, and for
    the risk tolerance named, ["medium"] when none is: the answer is
    what [optimizeYieldFarming] returns for ["low"], ["medium"] or
    ["high"], three to five entries, each with an estimated return of
    amount × APY / 100, and nothing for any other tolerance.  Any other
    strategy goes to [executeStrategy], whose arbitrage and
    yield-farming branches are therefore never reached from here: the
    answer is the single momentum signal, a [buy] of confidence 0.6, or
    no signal at all. *)
Theorem trading_strategy_handler (env : StrategyEnv) (params : Params.t) :
  let strategy := or_string (Params.strategy params) "arbitrage" in
  let tolerance := or_string (Params.riskTolerance params) "medium" in
  match handleTradingStrategy env params with
  | Opportunities found =>
      strategy = "arbitrage"
      ∧ found = findArbitrageOpportunities (strategyOracle env)
                  (default [SOL] (Params.tokens params))
      ∧ ∀ opp, opp ∈ found → num 0.5 <= ArbitrageOpportunity.risk opp
  | YieldOpportunities ranked =>
      strategy = "yield-farming"
      ∧ ranked
        = (if decide (tolerance = "low")
           then optimizeYieldFarming (yieldEnv env) (or_one (Params.amount params)) low
           else if decide (tolerance = "medium")
           then optimizeYieldFarming (yieldEnv env) (or_one (Params.amount params)) medium
           else if decide (tolerance = "high")
           then optimizeYieldFarming (yieldEnv env) (or_one (Params.amount params)) high
           else [])
      ∧ (tolerance ∈ ["low"; "medium"; "high"] → (3 ≤ length ranked ≤ 5)%nat)
      ∧ (tolerance ∉ ["low"; "medium"; "high"] → ranked = [])
      ∧ ∀ opp, opp ∈ ranked →
          YieldFarmingOpportunity.estimatedReturn opp
          = or_one (Params.amount params) * YieldFarmingOpportunity.apy opp / num 100
          ∧ (or_zero (Params.amount params) = 0 →
             YieldFarmingOpportunity.estimatedReturn opp
             = YieldFarmingOpportunity.apy opp / num 100)
  | Signals signals =>
      strategy ≠ "arbitrage" ∧ strategy ≠ "yield-farming"
      ∧ (strategy = "momentum" →
         ∃ signal, signals = [signal]
           ∧ TradingSignal.action signal = buy
           ∧ TradingSignal.confidence signal = num 0.6
           ∧ TradingSignal.price signal = or_zero (Params.currentPrice params))
      ∧ (strategy ≠ "momentum" → signals = [])
  end.
Proof.
  cbv zeta. unfold handleTradingStrategy. cbv zeta.
  generalize (or_string (Params.strategy params) "arbitrage"). intros strategy.
  destruct (decide (strategy = "arbitrage")) as [Harb | Harb].
  { split; [done|]. split; [done|]. intros opp. apply risk_findArbitrageOpportunities. }
  destruct (decide (strategy = "yield-farming")) as [Hyield | Hyield].
  { split; [done|]. unfold optimizeYieldFarmingFor.
    generalize (or_string (Params.riskTolerance params) "medium"). intros tolerance.
    split.
    { unfold riskToleranceOf. by repeat case_decide. }
    split.
    { intros [riskTolerance ->]%riskToleranceOf_known.
      rewrite optimizeYieldFarming_ranked, length_fmap.
      by destruct riskTolerance; cbn; lia. }
    split.
    { intros Hnot. by rewrite (riskToleranceOf_unknown tolerance Hnot). }
    destruct (riskToleranceOf tolerance) as [riskTolerance|];
      [|by intros opp []%elem_of_nil].
    rewrite optimizeYieldFarming_ranked.
    intros opp (config & -> & _)%list_elem_of_fmap.
    destruct (yieldOpportunityOf_apy (yieldEnv env) (or_one (Params.amount params)) config)
      as (-> & -> & _).
    split; [done|]. intros Hzero. unfold or_one, truthy. rewrite Hzero.
    rewrite bool_decide_eq_false_2 by (by intros []).
    generalize (defaultAPY config). intros a. qc_lra. }
  split; [done|]. split; [done|].
  unfold executeStrategy.
  rewrite (decide_False (P := strategy = "arbitrage")) by done.
  rewrite (decide_False (P := strategy = "yield-farming")) by done.
  split.
  - intros Hm. rewrite (decide_True (P := strategy = "momentum")) by done.
    unfold generateMomentumSignals. by eexists.
  - intros Hm. by rewrite (decide_False (P := strategy = "momentum")).
Qed.

Lemma trading_strategy_handler_witness :
  match
    handleTradingStrategy
      {| strategyOracle := quotes (num 100) (num 100.6) 0; yieldEnv := sourceDown |}
      {| Params.strategy := Some "momentum"; Params.tokens := None; Params.amount := None;
         Params.riskTolerance := None; Params.token := None; Params.currentPrice := None |}
  with
  | Signals signals => ∃ signal, signals = [signal] ∧ TradingSignal.action signal = buy
  | _ => False
  end.
Proof.
  pose proof (trading_strategy_handler
                {| strategyOracle := quotes (num 100) (num 100.6) 0;
                   yieldEnv := sourceDown |}
                {| Params.strategy := Some "momentum"; Params.tokens := None;
                   Params.amount := None; Params.riskTolerance := None;
                   Params.token := None; Params.currentPrice := None |}) as Hhandler.
  cbv zeta in Hhandler.
  destruct (handleTradingStrategy _ _) as [found | ranked | signals].
  - by destruct Hhandler as [[=] _].
  - by destruct Hhandler as [[=] _].
  - destruct Hhandler as (_ & _ & Hmomentum & _).
    destruct (Hmomentum eq_refl) as (signal & -> & Haction & _). by exists signal.
Defined.

End Handlers.
